(** * movie-dashboard-bff: resilience layer and aggregation

    A shallow embedding of the Python sources

    - [utils/circuit_breaker.py]   (module [Breaker])
    - [utils/cache_manager.py]     (module [Cache])
    - [services/tmdb_client.py]    (module [Client])
    - [routers/dashboard_router.py] (module [Router], over the dicts of
      [PyDict], the floats of [PyFloat] and the validation of
      [models/movie_models.py])
    - [config.py]                  (record [Settings], module [Config])
    - [dependencies.py], [middleware/auth_middleware.py] (module [Auth])
    - [mock-user-service/main.py]  (module [UserService])

    Asynchronous functions are modelled by explicit state passing over a
    [World] that holds everything outside the Python process: the wall
    clock read by [time.time()], the Redis server and the log of HTTP
    requests that reached the movie catalogue. *)

From Stdlib Require Import ZArith QArith Lia DecimalString Ascii.
From stdpp Require Import base strings list gmap pretty.

Local Open Scope Z_scope.

(** ** Python values *)

(** JSON-shaped Python values. [PNone] is Python's [None]; JSON numbers are
    kept to integers (the only numeric field the modelled code computes with
    is [rating : Optional[int]]). A [dict] with string keys is an association
    list in insertion order. *)
#[warnings="-register-all"]
Inductive pyval :=
| PNone
| PBool (b : bool)
| PInt (n : Z)
| PStr (s : string)
| PList (l : list pyval)
| PDict (d : list (string * pyval)).

Definition pydict := list (string * pyval).

(** Python truthiness, as tested by [if value:]. *)
Definition truthy (v : pyval) : bool :=
  match v with
  | PNone => false
  | PBool b => b
  | PInt n => negb (n =? 0)
  | PStr s => negb (String.eqb s "")
  | PList l => match l with [] => false | _ => true end
  | PDict d => match d with [] => false | _ => true end
  end.

(** [d.get(key)]: the value bound to [key], [None] when there is none. *)
Fixpoint dict_get (key : string) (d : pydict) : pyval :=
  match d with
  | [] => PNone
  | (k, v) :: rest => if String.eqb k key then v else dict_get key rest
  end.

(** Exceptions that cross the modelled functions. The breaker raises a plain
    [Exception("Circuit <name> is OPEN - failing fast")], here [CircuitOpen]. *)
Inductive exn :=
| CircuitOpen (breaker : string)
| TypeError (msg : string)
| DependencyError (msg : string)
| HTTPException (status_code : Z) (detail : string)
| ValidationError (msg : string)
| OverflowError (msg : string).

(** The result of awaiting a coroutine: a value or a raised exception. *)
Inductive outcome (A : Type) :=
| Ok (a : A)
| Raise (e : exn).
Arguments Ok {A} a.
Arguments Raise {A} e.

Definition failed {A} (r : outcome A) : bool :=
  match r with Ok _ => false | Raise _ => true end.

(** ** config.py *)

Record Settings := {
  CACHE_TTL : Z;
  CACHE_ENABLED : bool;
  CIRCUIT_BREAKER_ENABLED : bool;
  CIRCUIT_BREAKER_FAILURE_THRESHOLD : Z;
  CIRCUIT_BREAKER_TIMEOUT_SECONDS : Z;
  TMDB_BASE_URL : string
}.

(** The class defaults of [Settings]. *)
Definition settings : Settings := {|
  CACHE_TTL := 300;
  CACHE_ENABLED := false;
  CIRCUIT_BREAKER_ENABLED := true;
  CIRCUIT_BREAKER_FAILURE_THRESHOLD := 5;
  CIRCUIT_BREAKER_TIMEOUT_SECONDS := 60;
  TMDB_BASE_URL := "https://api.themoviedb.org/3"
|}.

(** [x or d] for an optional integer: [None] and [0] are falsy. *)
Definition py_or (x : option Z) (d : Z) : Z :=
  match x with
  | Some v => if v =? 0 then d else v
  | None => d
  end.

(** ** The world outside the process *)

(** One HTTP request put on the wire by [client.request]. *)
Record HttpRequest := {
  req_method : string;
  req_url : string;
  req_params : option pydict
}.

(** [clock] is the reading of [time.time()], in a fixed unit; [redis_up]
    says whether Redis commands succeed; [redis_db] binds each key to its
    string payload and its expiry instant; [wire] lists the requests that
    reached the catalogue, latest first. *)
Record World := {
  clock : Z;
  redis_up : bool;
  redis_db : gmap string (string * Z);
  wire : list HttpRequest
}.

(** The same world at a later reading of the clock. *)
Definition with_clock (t : Z) (w : World) : World :=
  {| clock := t; redis_up := redis_up w; redis_db := redis_db w; wire := wire w |}.

(** An awaitable operation: it may fail, and it may change the world. *)
Definition Op (A : Type) : Type := World -> outcome A * World.

(** ** utils/circuit_breaker.py *)

Module Breaker.

Inductive CircuitState := CLOSED | OPEN | HALF_OPEN.

Record CircuitBreaker := {
  name : string;
  failure_threshold : Z;
  timeout : Z;
  failure_count : Z;
  last_failure_time : option Z;
  state : CircuitState
}.

Global Instance CircuitState_eq_dec : EqDecision CircuitState.
Proof. solve_decision. Defined.

(** [CircuitBreaker.__init__] *)
Definition init (cfg : Settings) (nm : string)
    (threshold tmo : option Z) : CircuitBreaker := {|
  name := nm;
  failure_threshold := py_or threshold (CIRCUIT_BREAKER_FAILURE_THRESHOLD cfg);
  timeout := py_or tmo (CIRCUIT_BREAKER_TIMEOUT_SECONDS cfg);
  failure_count := 0;
  last_failure_time := None;
  state := CLOSED
|}.

Definition with_state (st : CircuitState) (cb : CircuitBreaker) : CircuitBreaker := {|
  name := name cb;
  failure_threshold := failure_threshold cb;
  timeout := timeout cb;
  failure_count := failure_count cb;
  last_failure_time := last_failure_time cb;
  state := st
|}.

(** Lines 45-50 of [call]: the check made before the operation is awaited.
    [inl] is the exception raised instead of awaiting it. With
    [last_failure_time = None] the subtraction raises [TypeError]. *)
Definition enter (cb : CircuitBreaker) (now : Z) : exn + CircuitBreaker :=
  match state cb with
  | OPEN =>
      match last_failure_time cb with
      | None => inl (TypeError "unsupported operand type(s) for -")
      | Some t =>
          if timeout cb <=? now - t
          then inr (with_state HALF_OPEN cb)
          else inl (CircuitOpen (name cb))
      end
  | _ => inr cb
  end.

(** Lines 56-59: the operation returned. *)
Definition on_success (cb : CircuitBreaker) : CircuitBreaker :=
  match state cb with
  | HALF_OPEN => {|
      name := name cb;
      failure_threshold := failure_threshold cb;
      timeout := timeout cb;
      failure_count := 0;
      last_failure_time := last_failure_time cb;
      state := CLOSED
    |}
  | _ => cb
  end.

(** Lines 64-74: the operation raised; [now] is read after it did. *)
Definition on_failure (cb : CircuitBreaker) (now : Z) : CircuitBreaker :=
  let count := failure_count cb + 1 in {|
    name := name cb;
    failure_threshold := failure_threshold cb;
    timeout := timeout cb;
    failure_count := count;
    last_failure_time := Some now;
    state := if failure_threshold cb <=? count then OPEN else state cb
  |}.

(** [CircuitBreaker.reset] *)
Definition reset (cb : CircuitBreaker) : CircuitBreaker := {|
  name := name cb;
  failure_threshold := failure_threshold cb;
  timeout := timeout cb;
  failure_count := 0;
  last_failure_time := None;
  state := CLOSED
|}.

(** [CircuitBreaker.call]: the breaker after the call and the world after it
    come back with the outcome. *)
Definition call {A} (cfg : Settings) (cb : CircuitBreaker) (func : Op A)
    (w : World) : outcome A * CircuitBreaker * World :=
  if negb (CIRCUIT_BREAKER_ENABLED cfg) then
    let '(r, w') := func w in (r, cb, w')
  else
    match enter cb (clock w) with
    | inl e => (Raise e, cb, w)
    | inr cb1 =>
        let '(r, w') := func w in
        match r with
        | Ok a => (Ok a, on_success cb1, w')
        | Raise e => (Raise e, on_failure cb1 (clock w'), w')
        end
    end.

(** A run of calls on one breaker. Each call comes with the operation it is
    given and the world it starts in: anything may happen between two calls. *)
Fixpoint call_seq {A} (cfg : Settings) (cb : CircuitBreaker)
    (calls : list (Op A * World)) : list (outcome A * World) * CircuitBreaker :=
  match calls with
  | [] => ([], cb)
  | (func, w) :: rest =>
      let '(r, cb1, w') := call cfg cb func w in
      let '(rs, cb2) := call_seq cfg cb1 rest in
      ((r, w') :: rs, cb2)
  end.

(** The atomic updates of a breaker. Between two [await]s the event loop
    runs one coroutine at a time, so a breaker shared by overlapping calls
    goes through these steps in some order. *)
Inductive event :=
| Enter (now : Z)
| Returned
| Raised (now : Z)
| Reset.

Definition step (cb : CircuitBreaker) (ev : event) : CircuitBreaker :=
  match ev with
  | Enter now => match enter cb now with inl _ => cb | inr cb1 => cb1 end
  | Returned => on_success cb
  | Raised now => on_failure cb now
  | Reset => reset cb
  end.

Definition run (cb : CircuitBreaker) (evs : list event) : CircuitBreaker :=
  fold_left step evs cb.

Definition is_reset (ev : event) : bool :=
  match ev with Reset => true | _ => false end.

(** With the breaker enabled, one sequential call is an [Enter] step
    followed, when the operation was awaited, by the step of its outcome. *)
Definition events_of_call {A} (cb : CircuitBreaker) (func : Op A) (w : World) : list event :=
  match enter cb (clock w) with
  | inl _ => [Enter (clock w)]
  | inr _ =>
      match func w with
      | (Ok _, _) => [Enter (clock w); Returned]
      | (Raise _, w') => [Enter (clock w); Raised (clock w')]
      end
  end.

(** What every breaker built by [__init__] and driven by calls satisfies:
    the count never goes negative, and a tripped breaker has reached its
    threshold and remembers its last failure. *)
Definition sound (cb : CircuitBreaker) : Prop :=
  0 ≤ failure_count cb ∧
  (state cb ≠ CLOSED →
   failure_threshold cb ≤ failure_count cb ∧ is_Some (last_failure_time cb)).

(** What a run of calls looks like from outside when no call is rejected:
    the outcomes of the operations, how many of them raised, and the clock
    read after the last one that did. *)
Definition op_outcomes {A} (calls : list (Op A * World)) : list (outcome A * World) :=
  map (fun fw => fw.1 fw.2) calls.

Definition failures {A} (calls : list (Op A * World)) : nat :=
  length (List.filter (fun fw => failed (fw.1 fw.2).1) calls).

Definition last_failure {A} (calls : list (Op A * World)) (before : option Z) : option Z :=
  fold_left (fun acc fw =>
               if failed (fw.1 fw.2).1 then Some (clock (fw.1 fw.2).2) else acc)
            calls before.

End Breaker.

(** ** utils/cache_manager.py *)

(** [json.dumps] and [json.loads] of the Python standard library;
    [json_loads] is [None] where [json.loads] raises. *)
Class Json := {
  json_dumps : pyval -> string;
  json_loads : string -> option pyval
}.

Module Cache.

(** Modelled from the spec: the cache backing store (a Redis server, not
    part of the repository) offers get(key), setWithTTL(key, value, ttl) and
    delete(key); an entry is visible to readers only while now < expires_at,
    and the store may be unavailable, in which case a command raises. Redis
    rejects a [SETEX] whose expiry is not positive. *)
Definition redis_get (key : string) : Op (option string) := fun w =>
  if redis_up w then
    match redis_db w !! key with
    | Some (payload, expires_at) =>
        (Ok (if clock w <? expires_at then Some payload else None), w)
    | None => (Ok None, w)
    end
  else (Raise (DependencyError "redis: connection refused"), w).

(** Modelled from the spec: setWithTTL(key, value, ttl) stores the value
    with expiry = now + ttl. *)
Definition redis_setex (key : string) (ttl : Z) (payload : string) : Op unit := fun w =>
  if redis_up w then
    if ttl <=? 0 then (Raise (DependencyError "redis: invalid expire time"), w)
    else (Ok tt, {| clock := clock w; redis_up := redis_up w;
                    redis_db := <[key := (payload, clock w + ttl)]> (redis_db w);
                    wire := wire w |})
  else (Raise (DependencyError "redis: connection refused"), w).

(** Modelled from the spec: delete(key) removes the entry. *)
Definition redis_delete (key : string) : Op unit := fun w =>
  if redis_up w then
    (Ok tt, {| clock := clock w; redis_up := redis_up w;
               redis_db := delete key (redis_db w);
               wire := wire w |})
  else (Raise (DependencyError "redis: connection refused"), w).

(** [redis_client] says whether the attribute holds a client object
    ([None] is falsy, a client is truthy). *)
Record CacheManager := {
  redis_client : bool;
  enabled : bool
}.

(** [CacheManager.__init__] *)
Definition init (cfg : Settings) : CacheManager :=
  {| redis_client := false; enabled := CACHE_ENABLED cfg |}.

(** [CacheManager.connect]: [from_url] builds the client, [ping] talks to
    the server; a failure turns the cache off. *)
Definition connect (self : CacheManager) (w : World) : CacheManager :=
  if negb (enabled self) then self
  else if redis_up w then {| redis_client := true; enabled := true |}
  else {| redis_client := true; enabled := false |}.

Section WithJson.
Context `{Json}.

(** [CacheManager.get]; the result [PNone] is Python's [None]. *)
Definition get (self : CacheManager) (key : string) (w : World) : pyval * World :=
  if negb (enabled self) || negb (redis_client self) then (PNone, w)
  else
    match redis_get key w with
    | (Ok (Some value), w') =>
        if negb (String.eqb value "") then
          match json_loads value with
          | Some v => (v, w')
          | None => (PNone, w')
          end
        else (PNone, w')
    | (Ok None, w') => (PNone, w')
    | (Raise _, w') => (PNone, w')
    end.

(** [CacheManager.set] *)
Definition set (cfg : Settings) (self : CacheManager) (key : string)
    (value : pyval) (ttl : option Z) (w : World) : World :=
  if negb (enabled self) || negb (redis_client self) then w
  else
    let ttl := py_or ttl (CACHE_TTL cfg) in
    snd (redis_setex key ttl (json_dumps value) w).

(** [CacheManager.delete] *)
Definition delete (self : CacheManager) (key : string) (w : World) : World :=
  if negb (enabled self) || negb (redis_client self) then w
  else snd (redis_delete key w).

End WithJson.
End Cache.

(** ** services/tmdb_client.py *)

Module Client.

(** The movie catalogue behind [client.request] followed by
    [raise_for_status] and [json()]: for a request sent at some instant, the
    decoded body or the exception, and the instant the answer is there. *)
Definition Catalogue : Type := HttpRequest -> Z -> outcome pyval * Z.

Record TMDBClient := {
  base_url : string;
  circuit_breaker : Breaker.CircuitBreaker
}.

(** [TMDBClient.__init__] *)
Definition init (cfg : Settings) : TMDBClient := {|
  base_url := TMDB_BASE_URL cfg;
  circuit_breaker := Breaker.init cfg "tmdb-api" None None
|}.

Definition with_breaker (cb : Breaker.CircuitBreaker) (self : TMDBClient) : TMDBClient :=
  {| base_url := base_url self; circuit_breaker := cb |}.

(** The inner coroutine [_request] of [_make_request]. *)
Definition _request (tmdb : Catalogue) (self : TMDBClient) (method endpoint : string)
    (params : option pydict) : Op pyval := fun w =>
  let rq := {| req_method := method;
               req_url := base_url self +:+ endpoint;
               req_params := params |} in
  let '(r, done) := tmdb rq (clock w) in
  (r, {| clock := done; redis_up := redis_up w; redis_db := redis_db w;
         wire := rq :: wire w |}).

(** [method == "GET" and cache_key]: an absent or empty key is falsy. *)
Definition cacheable (method : string) (cache_key : option string) : bool :=
  String.eqb method "GET" &&
  match cache_key with
  | Some k => negb (String.eqb k "")
  | None => false
  end.

Section WithJson.
Context `{Json}.

(** [TMDBClient._make_request]; [cache] is the module-level cache manager. *)
Definition _make_request (cfg : Settings) (tmdb : Catalogue)
    (cache : Cache.CacheManager) (self : TMDBClient)
    (method endpoint : string) (params : option pydict)
    (cache_key : option string) (w : World) : outcome pyval * TMDBClient * World :=
  let key := default "" cache_key in
  let '(cached, w1) :=
    if cacheable method cache_key then Cache.get cache key w else (PNone, w) in
  if cacheable method cache_key && truthy cached then (Ok cached, self, w1)
  else
    let '(r, cb, w2) :=
      Breaker.call cfg (circuit_breaker self)
        (_request tmdb self method endpoint params) w1 in
    match r with
    | Raise e => (Raise e, with_breaker cb self, w2)
    | Ok result =>
        let w3 :=
          if cacheable method cache_key
          then Cache.set cfg cache key result None w2 else w2 in
        (Ok result, with_breaker cb self, w3)
    end.

End WithJson.

(** What a typed wrapper hands to [_make_request]. *)
Record Plan := {
  method : string;
  endpoint : string;
  params : option pydict;
  cache_key : option string
}.

(** [str(region)] inside an f-string. *)
Definition str_opt (region : option string) : string :=
  match region with Some r => r | None => "None" end.

(** [if region:] *)
Definition region_params (region : option string) : pydict :=
  match region with
  | Some r => if String.eqb r "" then [] else [("region", PStr r)]
  | None => []
  end.

(** [TMDBClient.get_popular_movies] up to the call of [_make_request]. *)
Definition get_popular_movies (page : Z) (region : option string) : Plan := {|
  method := "GET";
  endpoint := "/movie/popular";
  params := Some (("page", PInt page) :: region_params region);
  cache_key := Some ("popular:movies:page" +:+ pretty page +:+ ":region" +:+ str_opt region)
|}.

(** [TMDBClient.get_trending_movies] *)
Definition get_trending_movies (time_window : string) : Plan := {|
  method := "GET";
  endpoint := "/trending/movie/" +:+ time_window;
  params := None;
  cache_key := Some ("trending:movies:" +:+ time_window)
|}.

(** [",".join(names)] *)
Fixpoint join_comma (names : list string) : string :=
  match names with
  | [] => ""
  | [x] => x
  | x :: rest => x +:+ "," +:+ join_comma rest
  end.

(** [TMDBClient.get_movie_details] *)
Definition get_movie_details (movie_id : Z)
    (append_to_response : option (list string)) : Plan := {|
  method := "GET";
  endpoint := "/movie/" +:+ pretty movie_id;
  params := Some [("append_to_response",
    PStr match append_to_response with
         | Some (x :: rest) => join_comma (x :: rest)
         | _ => "credits,reviews,similar,videos,images"
         end)];
  cache_key := Some ("movie:" +:+ pretty movie_id +:+ ":full")
|}.

(** [TMDBClient.get_movie_reviews] *)
Definition get_movie_reviews (movie_id page : Z) : Plan := {|
  method := "GET";
  endpoint := "/movie/" +:+ pretty movie_id +:+ "/reviews";
  params := Some [("page", PInt page)];
  cache_key := Some ("movie:" +:+ pretty movie_id +:+ ":reviews:page" +:+ pretty page)
|}.


(** [TMDBClient.get_now_playing] *)
Definition get_now_playing (page : Z) (region : option string) : Plan := {|
  method := "GET";
  endpoint := "/movie/now_playing";
  params := Some (("page", PInt page) :: region_params region);
  cache_key := Some ("now_playing:page" +:+ pretty page +:+ ":region" +:+ str_opt region)
|}.

(** [TMDBClient.get_upcoming_movies] *)
Definition get_upcoming_movies (page : Z) (region : option string) : Plan := {|
  method := "GET";
  endpoint := "/movie/upcoming";
  params := Some (("page", PInt page) :: region_params region);
  cache_key := Some ("upcoming:page" +:+ pretty page +:+ ":region" +:+ str_opt region)
|}.

(** [TMDBClient.get_top_rated] *)
Definition get_top_rated (page : Z) (region : option string) : Plan := {|
  method := "GET";
  endpoint := "/movie/top_rated";
  params := Some (("page", PInt page) :: region_params region);
  cache_key := Some ("top_rated:page" +:+ pretty page +:+ ":region" +:+ str_opt region)
|}.

(** [TMDBClient.get_movie_credits] *)
Definition get_movie_credits (movie_id : Z) : Plan := {|
  method := "GET";
  endpoint := "/movie/" +:+ pretty movie_id +:+ "/credits";
  params := None;
  cache_key := Some ("movie:" +:+ pretty movie_id +:+ ":credits")
|}.

(** [TMDBClient.get_movie_recommendations] *)
Definition get_movie_recommendations (movie_id page : Z) : Plan := {|
  method := "GET";
  endpoint := "/movie/" +:+ pretty movie_id +:+ "/recommendations";
  params := Some [("page", PInt page)];
  cache_key :=
    Some ("movie:" +:+ pretty movie_id +:+ ":recommendations:page" +:+ pretty page)
|}.

(** [TMDBClient.get_similar_movies] *)
Definition get_similar_movies (movie_id page : Z) : Plan := {|
  method := "GET";
  endpoint := "/movie/" +:+ pretty movie_id +:+ "/similar";
  params := Some [("page", PInt page)];
  cache_key := Some ("movie:" +:+ pretty movie_id +:+ ":similar:page" +:+ pretty page)
|}.

(** [TMDBClient.search_multi] *)
Definition search_multi (query : string) (page : Z) : Plan := {|
  method := "GET";
  endpoint := "/search/multi";
  params := Some [("query", PStr query); ("page", PInt page)];
  cache_key := None
|}.

(** [TMDBClient.get_genres] *)
Definition get_genres : Plan := {|
  method := "GET";
  endpoint := "/genre/movie/list";
  params := None;
  cache_key := Some "genres:movies"
|}.

(** [TMDBClient.get_person_details] *)
Definition get_person_details (person_id : Z) : Plan := {|
  method := "GET";
  endpoint := "/person/" +:+ pretty person_id;
  params := None;
  cache_key := Some ("person:" +:+ pretty person_id)
|}.

(** [TMDBClient.get_person_movie_credits] *)
Definition get_person_movie_credits (person_id : Z) : Plan := {|
  method := "GET";
  endpoint := "/person/" +:+ pretty person_id +:+ "/movie_credits";
  params := None;
  cache_key := Some ("person:" +:+ pretty person_id +:+ ":movie_credits")
|}.

(** The calls of the client that carry a cache key, with their arguments. *)
Inductive CachedCall :=
| Popular (page : Z) (region : option string)
| Trending (time_window : string)
| NowPlaying (page : Z) (region : option string)
| Upcoming (page : Z) (region : option string)
| TopRated (page : Z) (region : option string)
| Details (movie_id : Z) (append_to_response : option (list string))
| MovieCredits (movie_id : Z)
| Reviews (movie_id page : Z)
| Recommendations (movie_id page : Z)
| Similar (movie_id page : Z)
| Genres
| Person (person_id : Z)
| PersonMovieCredits (person_id : Z).

Definition plan_of (c : CachedCall) : Plan :=
  match c with
  | Popular page region => get_popular_movies page region
  | Trending time_window => get_trending_movies time_window
  | NowPlaying page region => get_now_playing page region
  | Upcoming page region => get_upcoming_movies page region
  | TopRated page region => get_top_rated page region
  | Details movie_id append_to_response => get_movie_details movie_id append_to_response
  | MovieCredits movie_id => get_movie_credits movie_id
  | Reviews movie_id page => get_movie_reviews movie_id page
  | Recommendations movie_id page => get_movie_recommendations movie_id page
  | Similar movie_id page => get_similar_movies movie_id page
  | Genres => get_genres
  | Person person_id => get_person_details person_id
  | PersonMovieCredits person_id => get_person_movie_credits person_id
  end.

(** No [":"] among the characters of a string. *)
Fixpoint colon_free (s : string) : bool :=
  match s with
  | EmptyString => true
  | String c rest => negb (Ascii.eqb c ":"%char) && colon_free rest
  end.

Section WithJson.
Context `{Json}.

(** A wrapper awaits [_make_request] on its plan. *)
Definition perform (cfg : Settings) (tmdb : Catalogue) (cache : Cache.CacheManager)
    (self : TMDBClient) (p : Plan) (w : World) : outcome pyval * TMDBClient * World :=
  _make_request cfg tmdb cache self (method p) (endpoint p) (params p) (cache_key p) w.

End WithJson.
End Client.

(** ** Python dicts keyed by JSON values *)

(** Only [in], subscripts, [get], [pop], [values], [len] and [clear] are
    used on the dicts modelled here, so a key is seen up to Python's [==]:
    a dict is the list of its bindings in insertion order, under the
    equality class of the key. *)
Module PyDict.

(** What a dict key is compared by: [True] is the key [1] and [False]
    the key [0]. *)
Inductive hkey := HNone | HInt (n : Z) | HStr (s : string).

#[global] Instance hkey_eq_dec : EqDecision hkey.
Proof. solve_decision. Defined.

(** The hashable JSON values. *)
Inductive scalar := SNone | SBool (b : bool) | SInt (n : Z) | SStr (s : string).

(** [None] for a [list] or a [dict], whose [hash] raises [TypeError]. *)
Definition as_scalar (v : pyval) : option scalar :=
  match v with
  | PNone => Some SNone
  | PBool b => Some (SBool b)
  | PInt n => Some (SInt n)
  | PStr s => Some (SStr s)
  | PList _ | PDict _ => None
  end.

Definition key (v : scalar) : hkey :=
  match v with
  | SNone => HNone
  | SBool b => HInt (if b then 1 else 0)
  | SInt n => HInt n
  | SStr s => HStr s
  end.

(** [str(v)], as an f-string formats it. *)
Definition str (v : scalar) : string :=
  match v with
  | SNone => "None"
  | SBool b => if b then "True" else "False"
  | SInt n => pretty n
  | SStr s => s
  end.

(** [d[key]]: [None] where the subscript raises [KeyError]. *)
Fixpoint dict_find (k : string) (d : pydict) : option pyval :=
  match d with
  | [] => None
  | (k', v) :: rest => if String.eqb k' k then Some v else dict_find k rest
  end.

(** [d.get(key, default)] *)
Definition dict_get_or (k : string) (d : pydict) (default : pyval) : pyval :=
  match dict_find k d with
  | Some v => v
  | None => default
  end.

Definition store := list (hkey * pydict).

(** [k in store] *)
Definition contains (k : hkey) (st : store) : bool := bool_decide (k ∈ st.*1).

(** [store[k]], [None] where it raises [KeyError] *)
Fixpoint getitem (k : hkey) (st : store) : option pydict :=
  match st with
  | [] => None
  | (k', v) :: rest => if decide (k' = k) then Some v else getitem k rest
  end.

(** [store[k] = v]: a bound key keeps its place, a new one goes last. *)
Fixpoint setitem (k : hkey) (v : pydict) (st : store) : store :=
  match st with
  | [] => [(k, v)]
  | (k', v') :: rest =>
      if decide (k' = k) then (k', v) :: rest else (k', v') :: setitem k v rest
  end.

(** The store after [store.pop(k)] *)
Fixpoint pop (k : hkey) (st : store) : store :=
  match st with
  | [] => []
  | (k', v) :: rest => if decide (k' = k) then rest else (k', v) :: pop k rest
  end.

(** [list(store.values())] and [len(store)] *)
Definition values (st : store) : list pydict := st.*2.
Definition len (st : store) : Z := Z.of_nat (length st).

End PyDict.

(** ** Python floats *)

(** A finite float is kept as the rational it stands for. *)
Module PyFloat.

(** The integer nearest to [n / d], halves going to the even one. *)
Definition round_half_even (n d : Z) : Z :=
  let q := n / d in
  let r := n mod d in
  if 2 * r <? d then q
  else if d <? 2 * r then q + 1
  else if Z.even q then q else q + 1.

(** [n / d] divided by [2 ^ e], as a fraction. *)
Definition scaled (n d e : Z) : Z * Z :=
  if 0 <=? e then (n, d * 2 ^ e) else (n * 2 ^ (- e), d).

(** The [e] with [2 ^ e <= n / d < 2 ^ (e + 1)], for positive [n] and [d]. *)
Definition exponent (n d : Z) : Z :=
  let e := Z.log2 n - Z.log2 d in
  let '(a, b) := scaled n d e in
  if a <? b then e - 1 else e.

(** The binary64 number nearest to [n / d] (53 significant bits, exponents
    down to -1074, halves to even), in lowest terms; [None] where it would
    be [2 ^ 1024] or more. *)
Definition nearest (n : Z) (d : positive) : option Q :=
  if n =? 0 then Some 0%Q
  else
    let e := exponent (Z.abs n) (Z.pos d) in
    let shift := Z.max (e - 52) (-1074) in
    let '(a, b) := scaled (Z.abs n) (Z.pos d) shift in
    let m := Z.sgn n * round_half_even a b in
    if 0 <=? shift then
      if 2 ^ 1024 <=? Z.abs m * 2 ^ shift then None
      else Some (Qred (inject_Z (m * 2 ^ shift)))
    else Some (Qred (Qmake m (Z.to_pos (2 ^ (- shift))))).

(** [n / d] on two [int]s: the quotient correctly rounded, or
    [OverflowError]. *)
Definition truediv (n : Z) (d : positive) : outcome Q :=
  match nearest n d with
  | Some x => Ok x
  | None => Raise (OverflowError "integer division result too large for a float")
  end.

End PyFloat.

(** ** routers/dashboard_router.py *)

Module Router.
Import PyDict.

(** Payloads have the shape the router reads them in: a catalogue page is
    an object whose ["results"], when present, is a list of objects and whose
    counters are integers; a preference entry is an object. What the objects
    hold is not restricted: the constructors of [models/movie_models.py]
    decide on it. An optional record field is a key that may be missing from
    the JSON object. *)

Record Page := {
  results : option (list pydict);
  total_pages : option Z;
  total_results : option Z
}.

Record Credits := {
  cast : option (list pydict);
  crew : option (list pydict)
}.

(** [details] holds the keys of the object other than ["credits"],
    ["similar"] and ["reviews"]. *)
Record MovieDetailsResponse := {
  details : pydict;
  credits : option Credits;
  similar : option Page;
  reviews : option Page
}.

(** pydantic is not among the sources. The models declare no validator of
    their own, so each field is validated by itself, and what the router
    needs is taken as a parameter:
    - [accepts model fields]: whether the keys of [fields] are accepted as
      values of the fields of [model] they name (a missing required field
      is refused, a key that names no field is ignored);
    - [Optional_int v], [Optional_str v]: the value a field of that type
      holds when it is given [v], [None] where [v] is refused;
    - [error_text model kwargs]: [str(e)] of the [ValidationError];
    - [duplicate_text model name]: [str(e)] of the [TypeError] raised when
      the keyword [name] is given twice. *)
Class Models := {
  accepts : string -> pydict -> bool;
  Optional_int : pyval -> option (option Z);
  Optional_str : pyval -> option (option string);
  error_text : string -> pydict -> string;
  duplicate_text : string -> string -> string
}.

(** A value that has the declared type already is kept as it is. *)
Definition keeps_typed_values `{Models} : Prop :=
  (∀ n, Optional_int (PInt n) = Some (Some n)) ∧
  Optional_int PNone = Some None ∧
  (∀ s, Optional_str (PStr s) = Some (Some s)) ∧
  Optional_str PNone = Some None.

(** [asyncio.gather(..., return_exceptions=True)]: every awaitable runs to
    completion and leaves its result or its exception in its own slot;
    nothing is cancelled. The interleaving is taken in argument order. *)
Definition gather3 {A B C} (a : Op A) (b : Op B) (c : Op C)
    (w : World) : (outcome A * outcome B * outcome C) * World :=
  let '(ra, w1) := a w in
  let '(rb, w2) := b w1 in
  let '(rc, w3) := c w2 in
  ((ra, rb, rc), w3).

Definition gather4 {A B C D} (a : Op A) (b : Op B) (c : Op C) (d : Op D)
    (w : World) : (outcome A * outcome B * outcome C * outcome D) * World :=
  let '(ra, w1) := a w in
  let '(rb, w2) := b w1 in
  let '(rc, w3) := c w2 in
  let '(rd, w4) := d w3 in
  ((ra, rb, rc, rd), w4).

(** The answers of the user service (its client, [services/users_service.py],
    is not among the sources): an object whose list may be missing. *)
Record FavoritesResponse := { favorites : option (list pydict) }.
Record WatchlistResponse := { watchlist : option (list pydict) }.

(** One round of [{item["movie_id"]: item for item in items}]; [None] where
    the subscript raises [KeyError] or the id is unhashable. *)
Definition index_step (acc : option store) (item : pydict) : option store :=
  match acc, dict_find "movie_id" item with
  | Some m, Some movie_id =>
      match as_scalar movie_id with
      | Some id => Some (setitem (key id) item m)
      | None => None
      end
  | _, _ => None
  end.

(** [{item["movie_id"]: item for item in items}]: a later entry replaces an
    earlier one under the same key. *)
Definition index_by_movie_id (items : list pydict) : option store :=
  foldl index_step (Some []) items.

(** Whether the comprehension gets through an entry, and whether the entry
    goes under the key [k]. *)
Definition has_movie_id (item : pydict) : bool :=
  match dict_find "movie_id" item with
  | Some movie_id => bool_decide (is_Some (as_scalar movie_id))
  | None => false
  end.

Definition goes_under (k : hkey) (item : pydict) : bool :=
  match dict_find "movie_id" item with
  | Some movie_id => bool_decide (key <$> as_scalar movie_id = Some k)
  | None => false
  end.

(** [_fetch_user_favorites]; [get_favorites] is [users_service.get_favorites].
    Every exception ends in [{}]. *)
Definition _fetch_user_favorites (get_favorites : Op FavoritesResponse)
    : Op store := fun w =>
  match get_favorites w with
  | (Ok response, w') =>
      let favorites := default [] (favorites response) in
      (Ok (default [] (index_by_movie_id favorites)), w')
  | (Raise _, w') => (Ok [], w')
  end.

(** [_fetch_user_watchlist] *)
Definition _fetch_user_watchlist (get_watchlist : Op WatchlistResponse)
    : Op store := fun w =>
  match get_watchlist w with
  | (Ok response, w') =>
      let watchlist := default [] (watchlist response) in
      (Ok (default [] (index_by_movie_id watchlist)), w')
  | (Raise _, w') => (Ok [], w')
  end.

(** [str(e)]: the message the exception was raised with; Starlette writes
    an [HTTPException] as its status, a colon and its detail. *)
Definition exn_str (e : exn) : string :=
  match e with
  | CircuitOpen nm => "Circuit " +:+ nm +:+ " is OPEN - failing fast"
  | TypeError msg => msg
  | DependencyError msg => msg
  | HTTPException status_code detail => pretty status_code +:+ ": " +:+ detail
  | ValidationError msg => msg
  | OverflowError msg => msg
  end.

(** [except Exception as e: raise HTTPException(status_code=500, detail=str(e))] *)
Definition internal_error (e : exn) : exn := HTTPException 500 (exn_str e).

(** The [TypeError] of [hash] on a list or a dict. *)
Definition unhashable (v : pyval) : exn :=
  TypeError match v with
            | PList _ => "unhashable type: 'list'"
            | _ => "unhashable type: 'dict'"
            end.

(** The first of the keywords written out in a call that [**fields] gives
    as well. *)
Definition first_duplicate (keywords : list string) (fields : pydict)
    : option string :=
  List.find (fun name => bool_decide (is_Some (dict_find name fields))) keywords.

(** An [EnrichedMovie]: the item it was built from and the three fields the
    router sets. *)
Record EnrichedMovie := {
  movie : pydict;
  is_favorite : bool;
  is_in_watchlist : bool;
  user_rating : option Z
}.

(** [_enrich_movie] *)
Definition _enrich_movie `{Models} (movie : pydict)
    (favorites watchlist : store) : outcome EnrichedMovie :=
  let movie_id := dict_get "id" movie in
  match as_scalar movie_id with
  | None => Raise (unhashable movie_id)
  | Some id =>
      let is_favorite := contains (key id) favorites in
      let is_in_watchlist := contains (key id) watchlist in
      let user_rating := dict_get "rating" (default [] (getitem (key id) favorites)) in
      match first_duplicate ["is_favorite"; "is_in_watchlist"; "user_rating"] movie with
      | Some name => Raise (TypeError (duplicate_text "EnrichedMovie" name))
      | None =>
          match accepts "EnrichedMovie" movie, Optional_int user_rating with
          | true, Some rating =>
              Ok {| movie := movie;
                    is_favorite := is_favorite;
                    is_in_watchlist := is_in_watchlist;
                    user_rating := rating |}
          | _, _ =>
              Raise (ValidationError
                       (error_text "EnrichedMovie"
                          (movie ++ [("is_favorite", PBool is_favorite);
                                     ("is_in_watchlist", PBool is_in_watchlist);
                                     ("user_rating", user_rating)])))
          end
      end
  end.

(** [[_enrich_movie(movie, favorites, watchlist) for movie in movies]]: the
    first exception ends the comprehension. *)
Fixpoint enrich_all `{Models} (movies : list pydict) (favorites watchlist : store)
    : outcome (list EnrichedMovie) :=
  match movies with
  | [] => Ok []
  | movie :: rest =>
      match _enrich_movie movie favorites watchlist with
      | Raise e => Raise e
      | Ok enriched =>
          match enrich_all rest favorites watchlist with
          | Raise e => Raise e
          | Ok others => Ok (enriched :: others)
          end
      end
  end.

Record PersonalizedFeed := {
  movies : list EnrichedMovie;
  feed_total_pages : Z;
  current_page : Z;
  feed_total_results : Z;
  favorites_count : nat;
  watchlist_count : nat
}.

(** What a slot of [gather] holds once [isinstance(_, Exception)] has
    replaced an exception by [{}]. *)
Definition or_empty (r : outcome store) : store :=
  match r with Ok m => m | Raise _ => [] end.

(** [get_personalized_feed] *)
Definition get_personalized_feed `{Models} (page : Z)
    (get_popular_movies : Z -> Op Page)
    (fetch_favorites fetch_watchlist : Op store) : Op PersonalizedFeed := fun w =>
  let '((popular_response, favorites, watchlist), w') :=
    gather3 (get_popular_movies page) fetch_favorites fetch_watchlist w in
  match popular_response with
  | Raise _ => (Raise (HTTPException 500 "Failed to fetch movies from TMDB"), w')
  | Ok popular_response =>
      let favorites := or_empty favorites in
      let watchlist := or_empty watchlist in
      let movies_data := default [] (results popular_response) in
      match enrich_all movies_data favorites watchlist with
      | Raise e => (Raise (internal_error e), w')
      | Ok enriched_movies =>
          (Ok {| movies := enriched_movies;
                 feed_total_pages := default 1 (total_pages popular_response);
                 current_page := page;
                 feed_total_results := default 0 (total_results popular_response);
                 favorites_count := length favorites;
                 watchlist_count := length watchlist |}, w')
      end
  end.

Record UserMovieData := {
  ud_is_favorite : bool;
  ud_is_in_watchlist : bool;
  ud_user_rating : option Z;
  added_to_favorites_date : option string;
  added_to_watchlist_date : option string
}.

(** [Field(None, ge=1, le=5)] *)
Definition one_to_five (rating : option Z) : bool :=
  match rating with
  | Some n => (1 <=? n) && (n <=? 5)
  | None => true
  end.

(** [UserMovieData(is_favorite=..., is_in_watchlist=..., user_rating=...,
    added_to_favorites_date=..., added_to_watchlist_date=...)] *)
Definition new_UserMovieData `{Models} (is_favorite is_in_watchlist : bool)
    (user_rating favorites_date watchlist_date : pyval) : outcome UserMovieData :=
  match Optional_int user_rating, Optional_str favorites_date,
        Optional_str watchlist_date with
  | Some rating, Some favorites_date', Some watchlist_date' =>
      if one_to_five rating then
        Ok {| ud_is_favorite := is_favorite;
              ud_is_in_watchlist := is_in_watchlist;
              ud_user_rating := rating;
              added_to_favorites_date := favorites_date';
              added_to_watchlist_date := watchlist_date' |}
      else Raise (ValidationError
                    (error_text "UserMovieData"
                       [("is_favorite", PBool is_favorite);
                        ("is_in_watchlist", PBool is_in_watchlist);
                        ("user_rating", user_rating);
                        ("added_to_favorites_date", favorites_date);
                        ("added_to_watchlist_date", watchlist_date)]))
  | _, _, _ =>
      Raise (ValidationError
               (error_text "UserMovieData"
                  [("is_favorite", PBool is_favorite);
                   ("is_in_watchlist", PBool is_in_watchlist);
                   ("user_rating", user_rating);
                   ("added_to_favorites_date", favorites_date);
                   ("added_to_watchlist_date", watchlist_date)]))
  end.

(** An [EnrichedMovieDetails]: the object it was built from and the fields
    the router sets. *)
Record EnrichedMovieDetails := {
  md_details : pydict;
  user_data : UserMovieData;
  md_cast : list pydict;
  md_crew : list pydict;
  reviews_count : Z;
  similar_movies : list pydict
}.

(** The call of [EnrichedMovieDetails] on the keys of [movie_details] and the
    keywords [user_data], [cast], [crew], [reviews_count], [similar_movies]. *)
Definition new_EnrichedMovieDetails `{Models} (movie_details : pydict)
    (user_data : UserMovieData) (cast crew : list pydict) (reviews_count : Z)
    (similar_movies : list pydict) : outcome EnrichedMovieDetails :=
  match first_duplicate ["user_data"; "cast"; "crew"; "reviews_count"; "similar_movies"]
                        movie_details with
  | Some name => Raise (TypeError (duplicate_text "EnrichedMovieDetails" name))
  | None =>
      if accepts "EnrichedMovieDetails" movie_details
         && forallb (accepts "CastMember") cast
         && forallb (accepts "CrewMember") crew
         && forallb (accepts "Movie") similar_movies
      then Ok {| md_details := movie_details;
                 user_data := user_data;
                 md_cast := cast;
                 md_crew := crew;
                 reviews_count := reviews_count;
                 similar_movies := similar_movies |}
      else Raise (ValidationError
                    (error_text "EnrichedMovieDetails"
                       (movie_details ++
                        [("cast", PList (map PDict cast));
                         ("crew", PList (map PDict crew));
                         ("reviews_count", PInt reviews_count);
                         ("similar_movies", PList (map PDict similar_movies))])))
  end.

(** [get_enriched_movie_details] *)
Definition get_enriched_movie_details `{Models} (movie_id : Z)
    (get_movie_details : Z -> list string -> Op MovieDetailsResponse)
    (fetch_favorites fetch_watchlist : Op store) : Op EnrichedMovieDetails := fun w =>
  let '((movie_details, favorites, watchlist), w') :=
    gather3 (get_movie_details movie_id ["credits"; "reviews"; "similar"; "recommendations"]%string)
            fetch_favorites fetch_watchlist w in
  match movie_details with
  | Raise _ => (Raise (HTTPException 500 "Failed to fetch movie details from TMDB"), w')
  | Ok movie_details =>
      let favorites := or_empty favorites in
      let watchlist := or_empty watchlist in
      let favorite := default [] (getitem (HInt movie_id) favorites) in
      let listed := default [] (getitem (HInt movie_id) watchlist) in
      match new_UserMovieData (contains (HInt movie_id) favorites)
                              (contains (HInt movie_id) watchlist)
                              (dict_get "rating" favorite)
                              (dict_get "added_date" favorite)
                              (dict_get "added_date" listed) with
      | Raise e => (Raise (internal_error e), w')
      | Ok user_data =>
          let credits := default {| cast := None; crew := None |} (credits movie_details) in
          let cast := take 10 (default [] (cast credits)) in
          let crew := take 10 (default [] (crew credits)) in
          let similar := take 6 (default [] (s ← similar movie_details; results s)) in
          match new_EnrichedMovieDetails (details movie_details) user_data cast crew
                  (default 0 (r ← reviews movie_details; total_results r)) similar with
          | Raise e => (Raise (internal_error e), w')
          | Ok enriched => (Ok enriched, w')
          end
      end
  end.

(** [avg_rating] is the rational the float stands for. *)
Record DashboardStats := {
  total_favorites : nat;
  total_watchlist : nat;
  movies_watched : nat;
  avg_rating : option Q;
  favorite_genres : list string
}.

Record DashboardFeed := {
  popular_movies : list EnrichedMovie;
  trending_movies : list EnrichedMovie;
  recommended_for_you : list EnrichedMovie;
  continue_watching : list EnrichedMovie;
  stats : DashboardStats;
  dashboard_page : Z;
  dashboard_total_pages : Z
}.

Definition is_None (v : pyval) : bool :=
  match v with PNone => true | _ => false end.

(** [[fav.get("rating") for fav in favorites.values()
      if fav.get("rating") is not None]] *)
Definition favorite_ratings (favorites : store) : list pyval :=
  List.filter (fun r => negb (is_None r))
              (map (fun favorite => dict_get "rating" favorite) (values favorites)).

(** [type(v).__name__] *)
Definition type_name (v : pyval) : string :=
  match v with
  | PNone => "NoneType"
  | PBool _ => "bool"
  | PInt _ => "int"
  | PStr _ => "str"
  | PList _ => "list"
  | PDict _ => "dict"
  end.

(** [sum(ratings)], from the [start] it has reached: an [int] (or a [bool],
    which is one) is added; at anything else [+] raises [TypeError]. *)
Fixpoint py_sum (start : Z) (ratings : list pyval) : outcome Z :=
  match ratings with
  | [] => Ok start
  | PInt n :: rest => py_sum (start + n) rest
  | PBool b :: rest => py_sum (start + Z.b2z b) rest
  | r :: _ =>
      Raise (TypeError ("unsupported operand type(s) for +: 'int' and '"
                        +:+ type_name r +:+ "'"))
  end.

(** [sum(favorite_ratings) / len(favorite_ratings) if favorite_ratings else None] *)
Definition compute_avg_rating (favorites : store) : outcome (option Q) :=
  match favorite_ratings favorites with
  | [] => Ok None
  | r :: rest =>
      match py_sum 0 (r :: rest) with
      | Ok total =>
          match PyFloat.truediv total (Pos.of_succ_nat (length rest)) with
          | Ok avg => Ok (Some avg)
          | Raise e => Raise e
          end
      | Raise e => Raise e
      end
  end.

(** The fallback of [get_complete_dashboard] for a catalogue slot:
    [response.get("results", [])[:12]], or [[]] for an exception. *)
Definition first_twelve (r : outcome Page) : list pydict :=
  match r with
  | Ok response => take 12 (default [] (results response))
  | Raise _ => []
  end.

(** [get_complete_dashboard] *)
Definition get_complete_dashboard `{Models}
    (get_popular_movies : Z -> Op Page)
    (get_trending_movies : string -> Op Page)
    (fetch_favorites fetch_watchlist : Op store) : Op DashboardFeed := fun w =>
  let '((popular_response, trending_response, favorites, watchlist), w') :=
    gather4 (get_popular_movies 1) (get_trending_movies "day")
            fetch_favorites fetch_watchlist w in
  let popular_movies := first_twelve popular_response in
  let trending_movies := first_twelve trending_response in
  let favorites := or_empty favorites in
  let watchlist := or_empty watchlist in
  match enrich_all popular_movies favorites watchlist with
  | Raise e => (Raise (internal_error e), w')
  | Ok enriched_popular =>
      match enrich_all trending_movies favorites watchlist with
      | Raise e => (Raise (internal_error e), w')
      | Ok enriched_trending =>
          match compute_avg_rating favorites with
          | Raise e => (Raise (internal_error e), w')
          | Ok avg_rating =>
              (Ok {| popular_movies := enriched_popular;
                     trending_movies := enriched_trending;
                     recommended_for_you := [];
                     continue_watching := [];
                     stats := {| total_favorites := length favorites;
                                 total_watchlist := length watchlist;
                                 movies_watched := length favorites;
                                 avg_rating := avg_rating;
                                 favorite_genres := [] |};
                     dashboard_page := 1;
                     dashboard_total_pages := 1 |}, w')
          end
      end
  end.



(** An item the constructor of [EnrichedMovie] takes whatever the user's
    data are: its id is hashable, none of the three keywords is among its
    keys, and its fields are accepted. *)
Definition enrichable `{Models} (item : pydict) : bool :=
  bool_decide (is_Some (as_scalar (dict_get "id" item)))
  && bool_decide (first_duplicate ["is_favorite"; "is_in_watchlist"; "user_rating"] item = None)
  && accepts "EnrichedMovie" item.

(** The ratings [+] adds to an [int]: an [int] or a [bool]. *)
Definition is_number (v : pyval) : bool :=
  match v with PInt _ | PBool _ => true | _ => false end.

(** A mapping whose entries carry an integer rating or none. *)
Definition int_rating (v : pyval) : option Z :=
  match v with PInt n => Some n | _ => None end.

Definition typed_ratings (m : store) : Prop :=
  Forall (fun entry => dict_get "rating" entry.2 = PNone ∨
                       ∃ n, dict_get "rating" entry.2 = PInt n) m.

(** Details the constructor of [EnrichedMovieDetails] takes whatever the
    user's data are. *)
Definition detailable `{Models} (d : MovieDetailsResponse) : bool :=
  let credits := default {| cast := None; crew := None |} (credits d) in
  bool_decide (first_duplicate ["user_data"; "cast"; "crew"; "reviews_count";
                                "similar_movies"] (details d) = None)
  && (accepts "EnrichedMovieDetails" (details d)
      && forallb (accepts "CastMember") (take 10 (default [] (cast credits)))
      && forallb (accepts "CrewMember") (take 10 (default [] (crew credits)))
      && forallb (accepts "Movie")
                 (take 6 (default [] (s ← similar d; results s)))).

(** A favourite whose rating is an integer from 1 to 5 or missing and whose
    date is a string or missing; a watchlist entry whose date is. *)
Definition typed_date (entry : pydict) : Prop :=
  dict_get "added_date" entry = PNone ∨ ∃ s, dict_get "added_date" entry = PStr s.

Definition typed_favorite (entry : pydict) : Prop :=
  (dict_get "rating" entry = PNone ∨
   ∃ n, dict_get "rating" entry = PInt n ∧ 1 <= n <= 5) ∧
  typed_date entry.

(** What [str.get("added_date")] is once validated. *)
Definition str_value (v : pyval) : option string :=
  match v with PStr s => Some s | _ => None end.

End Router.

(** ** Python string methods *)

Module PyStr.

(** [s.startswith(prefix)] *)
Definition startswith (prefix s : string) : bool := String.prefix prefix s.

(** [s.split(sep)] for a one-character separator: the pieces between the
    occurrences of [sep], empty pieces included; never the empty list. *)
Fixpoint split (sep : ascii) (s : string) : list string :=
  match s with
  | EmptyString => [EmptyString]
  | String c rest =>
      if Ascii.eqb c sep then EmptyString :: split sep rest
      else match split sep rest with
           | piece :: pieces => String c piece :: pieces
           | [] => [String c EmptyString]
           end
  end.

(** The characters [str.strip()] removes, among the ASCII ones: tab, line
    feed, vertical tab, form feed, carriage return, the four separators
    28 to 31 and the space. Text is taken to be ASCII. *)
Definition is_space (c : ascii) : bool :=
  let n := nat_of_ascii c in
  ((9 <=? n) && (n <=? 13) || (28 <=? n) && (n <=? 32))%nat.

Fixpoint lstrip (s : string) : string :=
  match s with
  | EmptyString => EmptyString
  | String c rest => if is_space c then lstrip rest else s
  end.

Fixpoint rstrip (s : string) : string :=
  match s with
  | EmptyString => EmptyString
  | String c rest =>
      match rstrip rest with
      | EmptyString => if is_space c then EmptyString else String c EmptyString
      | kept => String c kept
      end
  end.

(** [s.strip()] *)
Definition strip (s : string) : string := lstrip (rstrip s).

(** How often [sep] occurs in [s]. *)
Fixpoint occurrences (sep : ascii) (s : string) : nat :=
  match s with
  | EmptyString => 0
  | String c rest => (if Ascii.eqb c sep then 1 else 0) + occurrences sep rest
  end.

(** No occurrence of [c] in [s]. *)
Fixpoint free_of (c : ascii) (s : string) : bool :=
  match s with
  | EmptyString => true
  | String c' rest => negb (Ascii.eqb c' c) && free_of c rest
  end.

End PyStr.

(** ** config.py, the validator of [CORS_ORIGINS] *)

Module Config.

(** The value of [CORS_ORIGINS] before validation: a string from the
    environment or a list. *)
Inductive cors_value :=
| CorsStr (v : string)
| CorsList (v : list string).

(** [Settings.parse_cors_origins] *)
Definition parse_cors_origins (v : cors_value) : list string :=
  match v with
  | CorsStr v => map PyStr.strip (PyStr.split ","%char v)
  | CorsList v => v
  end.

End Config.

(** ** dependencies.py and middleware/auth_middleware.py *)

Module Auth.

(** What the two authentication paths end in. [IndexError] is what the
    subscript [[1]] raises on a list with one element. *)
Inductive auth_result (A : Type) :=
| Granted (a : A)
| Denied (status_code : Z) (detail : string)
| IndexError.
Arguments Granted {A} a.
Arguments Denied {A} status_code detail.
Arguments IndexError {A}.

(** [jwt.decode(token, secret, algorithms)]: the claims, or [None] where it
    raises [JWTError]. *)
Definition Jwt : Type := string -> option pydict.

(** [authorization and authorization.startswith("Bearer ")] *)
Definition is_bearer (authorization : option string) : bool :=
  match authorization with
  | Some h => negb (String.eqb h "") && PyStr.startswith "Bearer " h
  | None => false
  end.

(** [get_current_user] *)
Definition get_current_user (jwt_decode : Jwt) (authorization : option string)
    : auth_result pyval :=
  if is_bearer authorization then
    match PyStr.split " "%char (default "" authorization) !! 1%nat with
    | None => IndexError
    | Some token =>
        match jwt_decode token with
        | Some payload =>
            match dict_get "sub" payload with
            | PNone => Denied 401 "Invalid authentication credentials"
            | user_id => Granted user_id
            end
        | None => Denied 401 "Invalid authentication credentials"
        end
    end
  else Granted (PStr "demo-user-123").

(** [verify_api_key] *)
Definition verify_api_key (x_api_key : option string) : bool := true.

(** The part of a request the middleware looks at, and what it adds to
    [request.state]. *)
Record Request := {
  path : string;
  authorization : option string;
  state_user_id : pyval;
  state_user : option pydict
}.

(** [AuthMiddleware.PUBLIC_PATHS] *)
Definition PUBLIC_PATHS : list string :=
  ["/health"; "/docs"; "/redoc"; "/openapi.json"].

(** [any(request.url.path.startswith(path) for path in self.PUBLIC_PATHS)] *)
Definition is_public (request_path : string) : bool :=
  existsb (fun p => PyStr.startswith p request_path) PUBLIC_PATHS.

(** [AuthMiddleware.dispatch]; [call_next] is the rest of the application,
    the response type is its own. *)
Definition dispatch {Response} (jwt_decode : Jwt) (request : Request)
    (call_next : Request -> Response) : auth_result Response :=
  if is_public (path request) then Granted (call_next request)
  else if negb (is_bearer (authorization request)) then
    Denied 401 "Missing or invalid authorization header"
  else
    match PyStr.split " "%char (default "" (authorization request)) !! 1%nat with
    | None => IndexError
    | Some token =>
        match jwt_decode token with
        | Some payload =>
            Granted (call_next {| path := path request;
                                  authorization := authorization request;
                                  state_user_id := dict_get "sub" payload;
                                  state_user := Some payload |})
        | None => Denied 401 "Invalid authentication credentials"
        end
    end.

End Auth.

(** ** mock-user-service/main.py *)

(** The service keeps its data in two module-level dicts ([PyDict.store]).
    Payloads are [pyval]s, so an id that is a JSON float is outside the
    model. *)
Module UserService.

Export PyDict.

Record Stores := {
  favorites_store : store;
  watchlist_store : store
}.

Definition SAMPLE_FAVORITES : list pydict := [
  [("movie_id", PInt 550); ("title", PStr "Fight Club"); ("rating", PInt 5);
   ("added_date", PStr "2024-01-15")];
  [("movie_id", PInt 155); ("title", PStr "The Dark Knight"); ("rating", PInt 5);
   ("added_date", PStr "2024-01-10")];
  [("movie_id", PInt 13); ("title", PStr "Forrest Gump"); ("rating", PInt 4);
   ("added_date", PStr "2024-01-05")]
].

Definition SAMPLE_WATCHLIST : list pydict := [
  [("movie_id", PInt 680); ("title", PStr "Pulp Fiction");
   ("added_date", PStr "2024-02-01")];
  [("movie_id", PInt 27205); ("title", PStr "Inception");
   ("added_date", PStr "2024-01-28")]
].

(** What a handler gives FastAPI: a body (status 200), a raised
    [HTTPException], or any other exception. *)
Inductive response :=
| Json (body : pydict)
| HTTPError (status_code : Z) (detail : string)
| Unhandled (error : string).

(** [for item in items: store[item["movie_id"]] = item]: the store when the
    loop ends, and whether it ended without an exception. *)
Fixpoint store_all (items : list pydict) (st : store) : store * bool :=
  match items with
  | [] => (st, true)
  | item :: rest =>
      match dict_find "movie_id" item with
      | Some v =>
          match as_scalar v with
          | Some id => store_all rest (setitem (key id) item st)
          | None => (st, false)
          end
      | None => (st, false)
      end
  end.

(** The two loops over the sample data, from empty stores. *)
Definition load_samples : Stores * bool :=
  let '(favorites, ok) := store_all SAMPLE_FAVORITES [] in
  if ok then
    let '(watchlist, ok) := store_all SAMPLE_WATCHLIST [] in
    ({| favorites_store := favorites; watchlist_store := watchlist |}, ok)
  else ({| favorites_store := favorites; watchlist_store := [] |}, false).

(** The stores once the module is imported. *)
Definition startup : Stores := load_samples.1.

(** [health_check] *)
Definition health_check (s : Stores) : response * Stores :=
  (Json [("status", PStr "healthy"); ("service", PStr "mock-user-service");
         ("favorites_count", PInt (len (favorites_store s)));
         ("watchlist_count", PInt (len (watchlist_store s)))], s).

(** [get_favorites] *)
Definition get_favorites (s : Stores) : response * Stores :=
  (Json [("favorites", PList (map PDict (values (favorites_store s))));
         ("total", PInt (len (favorites_store s)))], s).

(** [add_favorite]; [now] is [datetime.now().isoformat()]. *)
Definition add_favorite (payload : pydict) (now : string) (s : Stores)
    : response * Stores :=
  let movie_id := dict_get "movie_id" payload in
  if negb (truthy movie_id) then (HTTPError 400 "movie_id is required", s)
  else
    match as_scalar movie_id with
    | None => (Unhandled "TypeError", s)
    | Some id =>
        if contains (key id) (favorites_store s) then
          (HTTPError 409 "Movie already in favorites", s)
        else
          let favorite := [
            ("movie_id", movie_id);
            ("title", dict_get_or "title" payload (PStr ("Movie " +:+ str id)));
            ("rating", dict_get "rating" payload);
            ("poster_path", dict_get "poster_path" payload);
            ("added_date", PStr now)
          ] in
          (Json [("message", PStr "Movie added to favorites");
                 ("favorite", PDict favorite)],
           {| favorites_store := setitem (key id) favorite (favorites_store s);
              watchlist_store := watchlist_store s |})
    end.

(** [delete_favorite] *)
Definition delete_favorite (movie_id : Z) (s : Stores) : response * Stores :=
  if negb (contains (HInt movie_id) (favorites_store s)) then
    (HTTPError 404 "Movie not found in favorites", s)
  else
    match getitem (HInt movie_id) (favorites_store s) with
    | None => (Unhandled "KeyError", s)
    | Some removed =>
        (Json [("message", PStr "Movie removed from favorites");
               ("removed", PDict removed)],
         {| favorites_store := pop (HInt movie_id) (favorites_store s);
            watchlist_store := watchlist_store s |})
    end.

(** [get_favorite] *)
Definition get_favorite (movie_id : Z) (s : Stores) : response * Stores :=
  if negb (contains (HInt movie_id) (favorites_store s)) then
    (HTTPError 404 "Movie not found in favorites", s)
  else
    match getitem (HInt movie_id) (favorites_store s) with
    | None => (Unhandled "KeyError", s)
    | Some favorite => (Json favorite, s)
    end.

(** [get_watchlist] *)
Definition get_watchlist (s : Stores) : response * Stores :=
  (Json [("watchlist", PList (map PDict (values (watchlist_store s))));
         ("total", PInt (len (watchlist_store s)))], s).

(** [add_to_watchlist] *)
Definition add_to_watchlist (payload : pydict) (now : string) (s : Stores)
    : response * Stores :=
  let movie_id := dict_get "movie_id" payload in
  if negb (truthy movie_id) then (HTTPError 400 "movie_id is required", s)
  else
    match as_scalar movie_id with
    | None => (Unhandled "TypeError", s)
    | Some id =>
        if contains (key id) (watchlist_store s) then
          (HTTPError 409 "Movie already in watchlist", s)
        else
          let watchlist_item := [
            ("movie_id", movie_id);
            ("title", dict_get_or "title" payload (PStr ("Movie " +:+ str id)));
            ("poster_path", dict_get "poster_path" payload);
            ("release_date", dict_get "release_date" payload);
            ("added_date", PStr now)
          ] in
          (Json [("message", PStr "Movie added to watchlist");
                 ("watchlist_item", PDict watchlist_item)],
           {| favorites_store := favorites_store s;
              watchlist_store := setitem (key id) watchlist_item (watchlist_store s) |})
    end.

(** [delete_from_watchlist] *)
Definition delete_from_watchlist (movie_id : Z) (s : Stores) : response * Stores :=
  if negb (contains (HInt movie_id) (watchlist_store s)) then
    (HTTPError 404 "Movie not found in watchlist", s)
  else
    match getitem (HInt movie_id) (watchlist_store s) with
    | None => (Unhandled "KeyError", s)
    | Some removed =>
        (Json [("message", PStr "Movie removed from watchlist");
               ("removed", PDict removed)],
         {| favorites_store := favorites_store s;
            watchlist_store := pop (HInt movie_id) (watchlist_store s) |})
    end.

(** [get_watchlist_item] *)
Definition get_watchlist_item (movie_id : Z) (s : Stores) : response * Stores :=
  if negb (contains (HInt movie_id) (watchlist_store s)) then
    (HTTPError 404 "Movie not found in watchlist", s)
  else
    match getitem (HInt movie_id) (watchlist_store s) with
    | None => (Unhandled "KeyError", s)
    | Some item => (Json item, s)
    end.

(** [reset_data]: both stores are cleared, then loaded as at start-up. *)
Definition reset_data (s : Stores) : response * Stores :=
  let '(s', ok) := load_samples in
  if ok then
    (Json [("message", PStr "Data reset successfully");
           ("favorites_count", PInt (len (favorites_store s')));
           ("watchlist_count", PInt (len (watchlist_store s')))], s')
  else (Unhandled "KeyError", s').

(** [clear_all_data] *)
Definition clear_all_data (s : Stores) : response * Stores :=
  (Json [("message", PStr "All data cleared");
         ("favorites_count", PInt 0);
         ("watchlist_count", PInt 0)],
   {| favorites_store := []; watchlist_store := [] |}).

(** The routes of the application. *)
Inductive request :=
| HealthCheck
| GetFavorites
| AddFavorite (payload : pydict) (now : string)
| DeleteFavorite (movie_id : Z)
| GetFavorite (movie_id : Z)
| GetWatchlist
| AddToWatchlist (payload : pydict) (now : string)
| DeleteFromWatchlist (movie_id : Z)
| GetWatchlistItem (movie_id : Z)
| ResetData
| ClearAllData.

Definition handle (r : request) (s : Stores) : response * Stores :=
  match r with
  | HealthCheck => health_check s
  | GetFavorites => get_favorites s
  | AddFavorite payload now => add_favorite payload now s
  | DeleteFavorite movie_id => delete_favorite movie_id s
  | GetFavorite movie_id => get_favorite movie_id s
  | GetWatchlist => get_watchlist s
  | AddToWatchlist payload now => add_to_watchlist payload now s
  | DeleteFromWatchlist movie_id => delete_from_watchlist movie_id s
  | GetWatchlistItem movie_id => get_watchlist_item movie_id s
  | ResetData => reset_data s
  | ClearAllData => clear_all_data s
  end.

(** The stores after a sequence of requests, served one at a time. *)
Definition serve (requests : list request) (s : Stores) : Stores :=
  foldl (fun s r => (handle r s).2) s requests.

(** An entry carries a truthy ["movie_id"] and sits under its key. *)
Definition filed (entry : hkey * pydict) : Prop :=
  truthy (dict_get "movie_id" entry.2) = true ∧
  key <$> as_scalar (dict_get "movie_id" entry.2) = Some entry.1.

(** Each key is bound once, and every entry is filed under its own. *)
Definition keyed (st : store) : Prop := NoDup st.*1 ∧ Forall filed st.

End UserService.

(** ** Concrete data used to run the definitions *)

Module Sample.

Definition at_time (t : Z) : World :=
  {| clock := t; redis_up := true; redis_db := ∅; wire := [] |}.

(** A dependency that answers after one tick, and one that fails after one. *)
Definition tick (w : World) : World :=
  {| clock := clock w + 1; redis_up := redis_up w;
     redis_db := redis_db w; wire := wire w |}.

Definition fight_club : pyval := PDict [("id", PInt 550); ("title", PStr "Fight Club")].

Definition answering : Op pyval := fun w => (Ok fight_club, tick w).
Definition failing : Op pyval := fun w => (Raise (DependencyError "503"), tick w).

(** A JSON codec for scalars and the empty object, enough to run the cache
    on sample payloads. *)
Definition scalar_dumps (v : pyval) : string :=
  match v with
  | PNone => "null"
  | PBool true => "true"
  | PBool false => "false"
  | PInt n => pretty n
  | _ => "{}"
  end.

Definition scalar_loads (s : string) : option pyval :=
  if String.eqb s "null" then Some PNone
  else if String.eqb s "true" then Some (PBool true)
  else if String.eqb s "false" then Some (PBool false)
  else if String.eqb s "{}" then Some (PDict [])
  else if String.eqb s "" then None
  else (fun d => PInt (Z.of_int d)) <$> NilEmpty.int_of_string s.

Definition scalar_json : Json :=
  {| json_dumps := scalar_dumps; json_loads := scalar_loads |}.

(** A connected, enabled cache manager. *)
Definition cache_on : Cache.CacheManager :=
  {| Cache.redis_client := true; Cache.enabled := true |}.

(** A catalogue that is down: every request fails after one tick. *)
Definition catalogue_down : Client.Catalogue :=
  fun _ sent => (Raise (DependencyError "503"), sent + 1).

(** A catalogue with nothing to list: every request is answered with the
    empty object after one tick. *)
Definition catalogue_empty : Client.Catalogue :=
  fun _ sent => (Ok (PDict []), sent + 1).

(** A world whose Redis holds the empty JSON object under the genres key,
    visible until 2000. *)
Definition genres_cached_empty : World :=
  {| clock := 1000; redis_up := true;
     redis_db := {["genres:movies" := ("{}", 2000)]}; wire := [] |}.

(** The mappings and the page of the dashboard tests. *)
Definition favorites : PyDict.store := [(PyDict.HInt 550, [("rating", PInt 5)])].
Definition watchlist : PyDict.store := [(PyDict.HInt 155, [])].
Definition two_favorites : PyDict.store :=
  [(PyDict.HInt 550, [("movie_id", PInt 550); ("rating", PInt 5)]);
   (PyDict.HInt 155, [("movie_id", PInt 155); ("rating", PInt 4)])].
Definition three_favorites : PyDict.store :=
  [(PyDict.HInt 550, [("movie_id", PInt 550); ("rating", PInt 1)]);
   (PyDict.HInt 155, [("movie_id", PInt 155); ("rating", PInt 1)]);
   (PyDict.HInt 13, [("movie_id", PInt 13); ("rating", PInt 2)])].

Definition fight_club_item : pydict := [("id", PInt 550); ("title", PStr "Fight Club")].
Definition dark_knight_item : pydict := [("id", PInt 155); ("title", PStr "The Dark Knight")].

Definition popular_page : Router.Page :=
  {| Router.results := Some [fight_club_item; dark_knight_item];
     Router.total_pages := Some 100;
     Router.total_results := Some 2000 |}.

Definition popular_ok : Z → Op Router.Page := fun _ w => (Ok popular_page, tick w).
Definition popular_down : Z → Op Router.Page :=
  fun _ w => (Raise (DependencyError "TMDB API error"), tick w).
Definition trending_ok : string → Op Router.Page := fun _ w => (Ok popular_page, tick w).
Definition context_ok (m : PyDict.store) : Op PyDict.store := fun w => (Ok m, tick w).
Definition context_down : Op PyDict.store :=
  fun w => (Raise (DependencyError "User service down"), tick w).

(** Models for the examples: a value is taken when it has the declared
    type already, so what these accept pydantic accepts, and an object
    without a required field is refused as pydantic refuses it. The
    texts of the errors are stand-ins. *)
Definition has_type (is_type : pyval → bool) (required : bool) (name : string)
    (fields : pydict) : bool :=
  match PyDict.dict_find name fields with
  | Some v => is_type v
  | None => negb required
  end.

Definition is_int (v : pyval) : bool := match v with PInt _ => true | _ => false end.
Definition is_str (v : pyval) : bool := match v with PStr _ => true | _ => false end.

(** Every key is one of [names]. *)
Definition only_keys (names : list string) (fields : pydict) : bool :=
  forallb (fun kv => existsb (String.eqb kv.1) names) fields.

Definition typed_accepts (model : string) (fields : pydict) : bool :=
  if String.eqb model "EnrichedMovie" || String.eqb model "Movie"
     || String.eqb model "EnrichedMovieDetails" then
    only_keys ["id"; "title"] fields
    && has_type is_int true "id" fields && has_type is_str true "title" fields
  else if String.eqb model "CastMember" then
    only_keys ["id"; "name"; "character"] fields
    && has_type is_int true "id" fields && has_type is_str true "name" fields
    && has_type is_str true "character" fields
  else if String.eqb model "CrewMember" then
    only_keys ["id"; "name"; "job"; "department"] fields
    && has_type is_int true "id" fields && has_type is_str true "name" fields
    && has_type is_str true "job" fields && has_type is_str true "department" fields
  else false.

Definition typed_models : Router.Models := {|
  Router.accepts := typed_accepts;
  Router.Optional_int v :=
    match v with PNone => Some None | PInt n => Some (Some n) | _ => None end;
  Router.Optional_str v :=
    match v with PNone => Some None | PStr s => Some (Some s) | _ => None end;
  Router.error_text model _ := "validation error for " +:+ model;
  Router.duplicate_text model name :=
    model +:+ "() got multiple values for keyword argument '" +:+ name +:+ "'"
|}.

(** A breaker that trips at the second failure and stays open for 60. *)
Definition breaker : Breaker.CircuitBreaker :=
  Breaker.init settings "tmdb-api" (Some 2) None.

Definition two_failures : list (Op pyval * World) :=
  [(failing, at_time 1000); (failing, at_time 1005)].

End Sample.

(** * Properties of the circuit breaker *)

Module BreakerFacts.
Import Breaker.

Lemma enter_not_open cb now : state cb ≠ OPEN → enter cb now = inr cb.
Proof. unfold enter. by destruct (state cb). Qed.

Lemma enter_open cb now t :
  state cb = OPEN → last_failure_time cb = Some t →
  enter cb now =
    if timeout cb <=? now - t then inr (with_state HALF_OPEN cb)
    else inl (CircuitOpen (name cb)).
Proof. unfold enter. by intros -> ->. Qed.

Lemma enter_inr cb now cb1 :
  enter cb now = inr cb1 →
  cb1 = cb ∨ (state cb = OPEN ∧ cb1 = with_state HALF_OPEN cb).
Proof.
  unfold enter. destruct (state cb) eqn:Hst; [naive_solver| |naive_solver].
  destruct (last_failure_time cb); [|done].
  case_match; naive_solver.
Qed.

Lemma init_sound cfg nm th tmo : sound (init cfg nm th tmo).
Proof. split; simpl; [lia|done]. Qed.

Lemma step_sound cb ev : sound cb → sound (step cb ev).
Proof.
  intros Hs. pose proof Hs as [Hc Ht]. destruct ev as [now| |now|]; simpl.
  - destruct (enter cb now) as [e|cb1] eqn:Hg; [done|].
    apply enter_inr in Hg as [->|[Ho ->]]; [done|].
    split; simpl; [done|]. intros _. apply Ht. by rewrite Ho.
  - unfold on_success. by destruct (state cb) eqn:Hst.
  - split; simpl; [lia|].
    destruct (Z.leb_spec (failure_threshold cb) (failure_count cb + 1)).
    + intros _. split; [lia|by eexists].
    + intros Hne. destruct (Ht Hne). lia.
  - split; simpl; [lia|done].
Qed.

Lemma run_sound evs cb : sound cb → sound (run cb evs).
Proof.
  revert cb. induction evs as [|ev evs IH]; intros cb Hs; simpl; [done|].
  apply IH. by apply step_sound.
Qed.

Lemma call_as_events {A} cfg cb (func : Op A) w :
  CIRCUIT_BREAKER_ENABLED cfg = true →
  (call cfg cb func w).1.2 = run cb (events_of_call cb func w).
Proof.
  intros He. unfold call, events_of_call. rewrite He. simpl.
  destruct (enter cb (clock w)) as [e|cb1] eqn:Hg; simpl; [by rewrite Hg|].
  destruct (func w) as [[a|e] w']; simpl; by rewrite Hg.
Qed.

Lemma events_of_call_no_reset {A} cb (func : Op A) w :
  forallb (fun ev => negb (is_reset ev)) (events_of_call cb func w) = true.
Proof.
  unfold events_of_call. destruct (enter cb (clock w)); [done|].
  by destruct (func w) as [[?|?] ?].
Qed.

Lemma call_disabled {A} cfg cb (func : Op A) w :
  CIRCUIT_BREAKER_ENABLED cfg = false →
  call cfg cb func w = ((func w).1, cb, (func w).2).
Proof. intros He. unfold call. rewrite He. simpl. by destruct (func w). Qed.

Lemma call_sound {A} cfg cb (func : Op A) w :
  sound cb → sound (call cfg cb func w).1.2.
Proof.
  intros Hs. destruct (CIRCUIT_BREAKER_ENABLED cfg) eqn:He.
  - rewrite call_as_events by done. by apply run_sound.
  - by rewrite call_disabled.
Qed.

(** A call rejected on entry: the operation is not run, whatever it is. *)
Lemma call_rejected {A} cfg cb (func : Op A) w t :
  CIRCUIT_BREAKER_ENABLED cfg = true →
  state cb = OPEN → last_failure_time cb = Some t →
  clock w - t < timeout cb →
  call cfg cb func w = (Raise (CircuitOpen (name cb)), cb, w).
Proof.
  intros He Ho Ht Hlt. unfold call. rewrite He. simpl.
  rewrite (enter_open _ _ t) by done.
  destruct (Z.leb_spec (timeout cb) (clock w - t)); [lia|done].
Qed.

Lemma call_seq_rejected {A} cfg cb (later : list (Op A * World)) t :
  CIRCUIT_BREAKER_ENABLED cfg = true →
  state cb = OPEN → last_failure_time cb = Some t →
  Forall (fun fw => clock fw.2 - t < timeout cb) later →
  call_seq cfg cb later =
    (map (fun fw => (Raise (CircuitOpen (name cb)), fw.2)) later, cb).
Proof.
  intros He Ho Ht. induction 1 as [|[func w] later Hlt _ IH]; simpl; [done|].
  rewrite (call_rejected cfg cb func w t) by done. by rewrite IH.
Qed.

(** One failing call, from a closed breaker or from a tripped one. *)
Lemma failing_call {A} cfg cb (func : Op A) w :
  CIRCUIT_BREAKER_ENABLED cfg = true →
  failed (call cfg cb func w).1.1 = true →
  let cb' := (call cfg cb func w).1.2 in
  failure_threshold cb' = failure_threshold cb ∧
  ((state cb = CLOSED →
      failure_count cb' = failure_count cb + 1 ∧
      (if failure_threshold cb <=? failure_count cb + 1
       then state cb' = OPEN else state cb' = CLOSED) ∧
      is_Some (last_failure_time cb')) ∧
   (state cb = OPEN → failure_threshold cb ≤ failure_count cb →
      is_Some (last_failure_time cb) →
      state cb' = OPEN ∧ failure_threshold cb ≤ failure_count cb' ∧
      is_Some (last_failure_time cb'))).
Proof.
  intros He. unfold call. rewrite He. simpl.
  destruct (enter cb (clock w)) as [e|cb1] eqn:Hg; simpl.
  - intros _. split; [done|]. split; [|done].
    intros Hc. rewrite enter_not_open in Hg; [done|by rewrite Hc].
  - destruct (func w) as [[a|e] w']; simpl; [done|intros _].
    apply enter_inr in Hg as [->|[Ho ->]]; simpl.
    + split; [done|]. split.
      * intros Hc. split; [done|]. split; [|by eexists].
        destruct (failure_threshold cb <=? failure_count cb + 1); [done|by rewrite Hc].
      * intros Hc Hth _.
        destruct (Z.leb_spec (failure_threshold cb) (failure_count cb + 1)); [|lia].
        split; [done|]. split; [lia|by eexists].
    + split; [done|]. split; [by rewrite Ho|].
      intros _ Hth _.
      destruct (Z.leb_spec (failure_threshold cb) (failure_count cb + 1)); [|lia].
      split; [done|]. split; [lia|by eexists].
Qed.

(** A run of failing calls on a tripped breaker leaves it tripped; on a
    closed one, the breaker is tripped as soon as the count gets to the
    threshold, and until then every failure is counted. *)
Lemma failing_calls {A} cfg (calls : list (Op A * World)) cb :
  CIRCUIT_BREAKER_ENABLED cfg = true →
  Forall (fun rw => failed rw.1 = true) (call_seq cfg cb calls).1 →
  let cb' := (call_seq cfg cb calls).2 in
  (state cb = OPEN → failure_threshold cb ≤ failure_count cb →
   is_Some (last_failure_time cb) →
   state cb' = OPEN ∧ is_Some (last_failure_time cb')) ∧
  (state cb = CLOSED → calls ≠ [] →
   (state cb' = OPEN ∧ is_Some (last_failure_time cb')) ∨
   (state cb' = CLOSED ∧
    failure_count cb + Z.of_nat (length calls) < failure_threshold cb)).
Proof.
  intros He. revert cb.
  induction calls as [|[func w] calls IH]; intros cb; simpl; [done|].
  destruct (call cfg cb func w) as [[r cb1] w1] eqn:Hcall.
  destruct (call_seq cfg cb1 calls) as [rs cb2] eqn:Hseq. simpl.
  intros Hall. apply Forall_cons in Hall as [Hr Hrs]. simpl in Hr.
  pose proof (failing_call cfg cb func w He) as Hone.
  rewrite Hcall in Hone. simpl in Hone.
  destruct (Hone Hr) as (Hth & Hclosed & Hopen).
  specialize (IH cb1). rewrite Hseq in IH. simpl in IH.
  destruct (IH Hrs) as [IHopen IHclosed].
  split.
  - intros Ho Hge Hl. destruct (Hopen Ho Hge Hl) as (Ho1 & Hge1 & Hl1).
    apply IHopen; [done|lia|done].
  - intros Hc _. destruct (Hclosed Hc) as (Hfc & Hst & Hl).
    destruct (Z.leb_spec (failure_threshold cb) (failure_count cb + 1)).
    + left. apply IHopen; [done|lia|done].
    + destruct calls as [|c calls].
      * simpl in Hseq. simplify_eq. right. split; [done|]. simpl. lia.
      * destruct IHclosed as [?|[? Hlt]]; [done|done|by left|].
        right. split; [done|]. revert Hlt. simpl length. lia.
Qed.

(** C1. With the breaker enabled, a closed breaker (threshold positive, count
    not negative) that sees N failing calls in a row, N at least the
    threshold, ends OPEN with a recorded failure time [t]; and every later
    call that starts while [now - t < timeout] raises [CircuitOpen], leaves
    the breaker as it is and does not run its operation: the world comes
    back untouched, whatever the operation is. *)
Theorem trips_open_then_fails_fast {A} cfg cb (calls : list (Op A * World)) :
  CIRCUIT_BREAKER_ENABLED cfg = true →
  state cb = CLOSED →
  1 ≤ failure_threshold cb →
  0 ≤ failure_count cb →
  failure_threshold cb ≤ Z.of_nat (length calls) →
  Forall (fun rw => failed rw.1 = true) (call_seq cfg cb calls).1 →
  state (call_seq cfg cb calls).2 = OPEN ∧
  ∃ t, last_failure_time (call_seq cfg cb calls).2 = Some t ∧
    ∀ later : list (Op A * World),
      Forall (fun fw => clock fw.2 - t < timeout (call_seq cfg cb calls).2) later →
      call_seq cfg (call_seq cfg cb calls).2 later =
        (map (fun fw => (Raise (CircuitOpen (name (call_seq cfg cb calls).2)), fw.2)) later,
         (call_seq cfg cb calls).2).
Proof.
  intros He Hc Hth Hfc Hlen Hall.
  destruct (failing_calls cfg calls cb He Hall) as [_ Hclosed].
  assert (calls ≠ []) as Hne by (intros ->; simpl in Hlen; lia).
  destruct (Hclosed Hc Hne) as [[Ho [t Ht]]|[_ Hlt]]; [|lia].
  split; [done|]. exists t. split; [done|].
  intros later Hlater. by apply (call_seq_rejected cfg _ later t).
Qed.

Lemma trips_open_then_fails_fast_witness :
  state (call_seq settings Sample.breaker Sample.two_failures).2 = OPEN ∧
  call_seq settings (call_seq settings Sample.breaker Sample.two_failures).2
    [(Sample.answering, Sample.at_time 1030)] =
    ([(Raise (CircuitOpen "tmdb-api"), Sample.at_time 1030)],
     (call_seq settings Sample.breaker Sample.two_failures).2).
Proof.
  destruct (trips_open_then_fails_fast settings Sample.breaker Sample.two_failures)
    as [Ho [t [Ht Hlater]]].
  - reflexivity.
  - reflexivity.
  - vm_compute. discriminate.
  - vm_compute. discriminate.
  - vm_compute. discriminate.
  - repeat constructor.
  - split; [exact Ho|].
    vm_compute in Ht. injection Ht as <-.
    apply (Hlater [(Sample.answering, Sample.at_time 1030)]).
    repeat constructor.
Defined.

(** C2. With the breaker enabled, take any breaker built by [__init__] and
    driven by breaker steps that is OPEN with last failure at [t]. A call
    that starts once [now - t >= timeout] is let through in HALF_OPEN and
    awaits the operation (its outcome and its world are the call's). If the
    operation returns, the breaker ends CLOSED with a count of 0; if it
    raises, the breaker ends OPEN with one more failure counted and the
    failure time set to the clock read after the operation. *)
Theorem half_open_probe {A} cfg nm th tmo evs (func : Op A) w t :
  CIRCUIT_BREAKER_ENABLED cfg = true →
  state (run (init cfg nm th tmo) evs) = OPEN →
  last_failure_time (run (init cfg nm th tmo) evs) = Some t →
  timeout (run (init cfg nm th tmo) evs) ≤ clock w - t →
  enter (run (init cfg nm th tmo) evs) (clock w)
    = inr (with_state HALF_OPEN (run (init cfg nm th tmo) evs)) ∧
  (call cfg (run (init cfg nm th tmo) evs) func w).1.1 = (func w).1 ∧
  (call cfg (run (init cfg nm th tmo) evs) func w).2 = (func w).2 ∧
  match (func w).1 with
  | Ok _ =>
      state (call cfg (run (init cfg nm th tmo) evs) func w).1.2 = CLOSED ∧
      failure_count (call cfg (run (init cfg nm th tmo) evs) func w).1.2 = 0
  | Raise _ =>
      state (call cfg (run (init cfg nm th tmo) evs) func w).1.2 = OPEN ∧
      failure_count (call cfg (run (init cfg nm th tmo) evs) func w).1.2
        = failure_count (run (init cfg nm th tmo) evs) + 1 ∧
      last_failure_time (call cfg (run (init cfg nm th tmo) evs) func w).1.2
        = Some (clock (func w).2)
  end.
Proof.
  set (cb := run (init cfg nm th tmo) evs).
  intros He Ho Ht Hto.
  assert (sound cb) as [_ Hs] by apply run_sound, init_sound.
  destruct Hs as [Hth _]; [by rewrite Ho|].
  assert (enter cb (clock w) = inr (with_state HALF_OPEN cb)) as Hg.
  { rewrite (enter_open _ _ t) by done.
    destruct (Z.leb_spec (timeout cb) (clock w - t)); [done|lia]. }
  split; [done|]. unfold call. rewrite He, Hg. simpl.
  destruct (func w) as [[a|e] w']; simpl; [done|].
  destruct (Z.leb_spec (failure_threshold cb) (failure_count cb + 1)); [done|lia].
Qed.

Lemma half_open_probe_witness :
  state (call settings (run Sample.breaker [Raised 1001; Raised 1006])
           Sample.answering (Sample.at_time 1066)).1.2 = CLOSED ∧
  state (call settings (run Sample.breaker [Raised 1001; Raised 1006])
           Sample.failing (Sample.at_time 1066)).1.2 = OPEN ∧
  last_failure_time (call settings (run Sample.breaker [Raised 1001; Raised 1006])
           Sample.failing (Sample.at_time 1066)).1.2 = Some 1067.
Proof.
  pose proof (half_open_probe settings "tmdb-api" (Some 2) None
                [Raised 1001; Raised 1006] Sample.answering (Sample.at_time 1066) 1006
                eq_refl eq_refl eq_refl) as Hok.
  pose proof (half_open_probe settings "tmdb-api" (Some 2) None
                [Raised 1001; Raised 1006] Sample.failing (Sample.at_time 1066) 1006
                eq_refl eq_refl eq_refl) as Hko.
  split; [apply Hok; vm_compute; discriminate|].
  destruct Hko as (_ & _ & _ & Ho & _ & Ht); [vm_compute; discriminate|].
  split; [exact Ho|exact Ht].
Defined.

(** C8. In state CLOSED a call whose operation returns gives the breaker
    back as it was, count and failure time included, whatever the
    configuration. And a breaker step that takes a positive count to 0 is
    either [reset()] or the return of the operation in HALF_OPEN, which
    closes the breaker. *)
Theorem closed_success_keeps_breaker {A} cfg cb (func : Op A) w a w' :
  state cb = CLOSED →
  func w = (Ok a, w') →
  call cfg cb func w = (Ok a, cb, w') ∧
  ∀ cb0 ev,
    0 < failure_count cb0 →
    failure_count (step cb0 ev) = 0 →
    ev = Reset ∨
    (ev = Returned ∧ state cb0 = HALF_OPEN ∧ state (step cb0 ev) = CLOSED).
Proof.
  intros Hc Hf. split.
  - unfold call. rewrite enter_not_open by (by rewrite Hc). rewrite Hf.
    unfold on_success. rewrite Hc. by destruct (negb _).
  - intros cb0 ev Hpos. destruct ev as [now| |now|]; simpl.
    + destruct (enter cb0 now) as [e|cb1] eqn:Hg; [lia|].
      apply enter_inr in Hg as [->|[_ ->]]; simpl; lia.
    + unfold on_success. destruct (state cb0) eqn:Hst; simpl; try lia.
      intros _. by right.
    + lia.
    + by left.
Qed.

Lemma closed_success_keeps_breaker_witness :
  call settings (run Sample.breaker [Raised 1001]) Sample.answering (Sample.at_time 1010)
  = (Ok Sample.fight_club, run Sample.breaker [Raised 1001], Sample.at_time 1011).
Proof.
  apply (closed_success_keeps_breaker settings (run Sample.breaker [Raised 1001])
           Sample.answering (Sample.at_time 1010) Sample.fight_club (Sample.at_time 1011));
    reflexivity.
Defined.

(** C10. Start from [__init__] (state CLOSED, count 0) with a threshold of at
    least 1 and let the breaker evolve by the steps of calls, overlapping
    or not, without [reset()]. Whenever the state is OPEN or HALF_OPEN the
    count has reached the threshold; hence a failure in HALF_OPEN opens the
    breaker again. The same holds after any sequence of whole calls. *)
Theorem tripped_has_reached_threshold cfg nm th tmo evs :
  1 ≤ failure_threshold (init cfg nm th tmo) →
  forallb (fun ev => negb (is_reset ev)) evs = true →
  state (init cfg nm th tmo) = CLOSED ∧
  failure_count (init cfg nm th tmo) = 0 ∧
  (state (run (init cfg nm th tmo) evs) = OPEN ∨
   state (run (init cfg nm th tmo) evs) = HALF_OPEN →
   failure_threshold (run (init cfg nm th tmo) evs)
     ≤ failure_count (run (init cfg nm th tmo) evs)) ∧
  (∀ now, state (run (init cfg nm th tmo) evs) = HALF_OPEN →
          state (on_failure (run (init cfg nm th tmo) evs) now) = OPEN) ∧
  (∀ A (calls : list (Op A * World)),
     state (call_seq cfg (init cfg nm th tmo) calls).2 ≠ CLOSED →
     failure_threshold (call_seq cfg (init cfg nm th tmo) calls).2
       ≤ failure_count (call_seq cfg (init cfg nm th tmo) calls).2).
Proof.
  intros _ _. split; [done|]. split; [done|].
  assert (sound (run (init cfg nm th tmo) evs)) as [_ Hs]
    by apply run_sound, init_sound.
  split; [|split].
  - intros Hst. apply Hs. destruct Hst as [-> | ->]; done.
  - intros now Hh. destruct Hs as [Hth _]; [by rewrite Hh|].
    simpl. destruct (Z.leb_spec (failure_threshold (run (init cfg nm th tmo) evs))
                       (failure_count (run (init cfg nm th tmo) evs) + 1)); [done|lia].
  - intros A calls. generalize (init_sound cfg nm th tmo).
    generalize (init cfg nm th tmo). clear.
    induction calls as [|[func w] calls IH]; intros cb Hsound; simpl.
    + intros Hne. by apply Hsound.
    + pose proof (call_sound cfg cb func w Hsound) as H1.
      destruct (call cfg cb func w) as [[r cb1] w1]. simpl in H1.
      specialize (IH cb1 H1).
      destruct (call_seq cfg cb1 calls) as [rs cb2]. by simpl in *.
Qed.

Lemma tripped_has_reached_threshold_witness :
  state (run Sample.breaker [Enter 1000; Raised 1001; Raised 1006; Enter 1070]) = HALF_OPEN ∧
  failure_threshold (run Sample.breaker [Enter 1000; Raised 1001; Raised 1006; Enter 1070])
    ≤ failure_count (run Sample.breaker [Enter 1000; Raised 1001; Raised 1006; Enter 1070]).
Proof.
  split; [reflexivity|].
  apply (tripped_has_reached_threshold settings "tmdb-api" (Some 2) None
           [Enter 1000; Raised 1001; Raised 1006; Enter 1070]).
  - vm_compute. discriminate.
  - reflexivity.
  - right. reflexivity.
Defined.

End BreakerFacts.

(** * Properties of the response cache *)

Module CacheFacts.
Import Cache.

Section WithJson.
Context `{Json}.

Lemma get_world self key w : (get self key w).2 = w.
Proof.
  unfold get, redis_get. destruct (negb _ || negb _); [done|].
  destruct (redis_up w); [|done].
  destruct (redis_db w !! key) as [[payload exp]|]; [|done].
  destruct (clock w <? exp); [|done]. simpl.
  destruct (negb _); [|done]. by destruct (json_loads payload).
Qed.

Lemma get_unset self key w :
  redis_db w !! key = None → (get self key w).1 = PNone.
Proof.
  intros Hk. unfold get, redis_get. destruct (negb _ || negb _); [done|].
  destruct (redis_up w); [|done]. by rewrite Hk.
Qed.

Lemma get_expired self key w payload expires_at :
  redis_db w !! key = Some (payload, expires_at) →
  expires_at ≤ clock w →
  (get self key w).1 = PNone.
Proof.
  intros Hk Hexp. unfold get, redis_get. destruct (negb _ || negb _); [done|].
  destruct (redis_up w); [|done]. rewrite Hk.
  destruct (Z.ltb_spec (clock w) expires_at); [lia|done].
Qed.

(** A visible entry whose payload decodes is what [get] returns. *)
Lemma get_visible self key w payload expires_at v :
  enabled self = true → redis_client self = true → redis_up w = true →
  redis_db w !! key = Some (payload, expires_at) →
  clock w < expires_at →
  payload ≠ "" →
  json_loads payload = Some v →
  get self key w = (v, w).
Proof.
  intros He Hc Hup Hk Hexp Hne Hl. unfold get, redis_get.
  rewrite He, Hc, Hup, Hk. simpl.
  destruct (Z.ltb_spec (clock w) expires_at); [|lia].
  destruct (String.eqb_spec payload ""); [done|]. simpl. by rewrite Hl.
Qed.

Lemma set_stores cfg self key value ttl w :
  enabled self = true → redis_client self = true → redis_up w = true →
  0 < py_or ttl (CACHE_TTL cfg) →
  set cfg self key value ttl w =
    {| clock := clock w; redis_up := redis_up w;
       redis_db := <[key := (json_dumps value, clock w + py_or ttl (CACHE_TTL cfg))]> (redis_db w);
       wire := wire w |}.
Proof.
  intros He Hc Hup Hpos. unfold set, redis_setex. rewrite He, Hc, Hup. simpl.
  destruct (Z.leb_spec (py_or ttl (CACHE_TTL cfg)) 0); [lia|done].
Qed.

Lemma get_after_set cfg self key value ttl w now :
  enabled self = true → redis_client self = true → redis_up w = true →
  json_loads "" = None →
  json_loads (json_dumps value) = Some value →
  clock w ≤ now < clock w + py_or ttl (CACHE_TTL cfg) →
  get self key (with_clock now (set cfg self key value ttl w))
  = (value, with_clock now (set cfg self key value ttl w)).
Proof.
  intros He Hc Hup Hempty Hrt Hnow.
  rewrite set_stores by (done || lia).
  eapply get_visible; try done; simpl.
  - apply lookup_insert_eq.
  - lia.
  - intros Heq. rewrite Heq in Hrt. congruence.
Qed.

(** A cache that is switched off, or was never connected, answers [None]
    and ignores [set] and [delete]. *)
Lemma disabled_cache cfg self key value ttl w :
  enabled self = false ∨ redis_client self = false →
  get self key w = (PNone, w) ∧
  set cfg self key value ttl w = w ∧
  delete self key w = w.
Proof.
  unfold get, set, delete.
  intros [-> | ->]; simpl; rewrite ?orb_true_r; done.
Qed.

End WithJson.

(** C5. [get] returns [None] for a key the store does not bind and for a
    key whose entry has expired. With the cache enabled and connected and
    the store answering, [set(key, value, ttl)] followed by [get(key)] at an
    instant inside the window that starts at the [set] and lasts the
    time-to-live in force ([ttl], or [CACHE_TTL] when [ttl] is omitted)
    returns [value], for every value that [json] takes to a string and
    back. *)
Theorem cache_round_trip `{Json} cfg self key value ttl w now :
  enabled self = true → redis_client self = true → redis_up w = true →
  json_loads "" = None →
  json_loads (json_dumps value) = Some value →
  clock w ≤ now < clock w + py_or ttl (CACHE_TTL cfg) →
  (∀ self' w', redis_db w' !! key = None → (get self' key w').1 = PNone) ∧
  (∀ self' w' payload expires_at,
     redis_db w' !! key = Some (payload, expires_at) →
     expires_at ≤ clock w' →
     (get self' key w').1 = PNone) ∧
  (get self key (with_clock now (set cfg self key value ttl w))).1 = value.
Proof.
  intros He Hc Hup Hempty Hrt Hnow. split; [|split].
  - intros. by apply get_unset.
  - intros. by eapply get_expired.
  - by rewrite (get_after_set cfg self key value ttl w now).
Qed.

Lemma cache_round_trip_witness :
  (@get Sample.scalar_json Sample.cache_on "movie:550:full"
     (with_clock 1299
        (@set Sample.scalar_json settings Sample.cache_on "movie:550:full"
              (PInt 5) None (Sample.at_time 1000)))).1 = PInt 5.
Proof.
  apply (@cache_round_trip Sample.scalar_json settings Sample.cache_on
           "movie:550:full" (PInt 5) None (Sample.at_time 1000) 1299);
    try reflexivity.
  vm_compute. split; [discriminate|reflexivity].
Defined.

End CacheFacts.

(** * Properties of the dependency client *)

Module ClientFacts.
Import Client.

Section WithJson.
Context `{Json}.

(** A truthy value handed back by the cache ends the request at once. *)
Lemma make_request_hit cfg tmdb cache self endpoint params key w v :
  key ≠ "" →
  Cache.get cache key w = (v, w) →
  truthy v = true →
  _make_request cfg tmdb cache self "GET" endpoint params (Some key) w
  = (Ok v, self, w).
Proof.
  intros Hkey Hget Hv. unfold _make_request, cacheable. simpl.
  destruct (String.eqb_spec key ""); [done|]. simpl.
  by rewrite Hget, Hv.
Qed.

End WithJson.

(** A cached value that is truthy is served. For a GET request with a
    non-empty cache key, if the cache is on and the store holds for that
    key an unexpired entry whose payload decodes to a truthy value,
    [_make_request] returns that value, the client (hence the breaker:
    state, count and failure time) is the same object as before and so is
    the world: nothing went on the wire and the operation handed to the
    breaker never ran. *)
Theorem cache_hit_skips_breaker `{Json} cfg tmdb cache self endpoint params key w
    payload expires_at v :
  key ≠ "" →
  Cache.enabled cache = true → Cache.redis_client cache = true →
  redis_up w = true →
  redis_db w !! key = Some (payload, expires_at) →
  clock w < expires_at →
  payload ≠ "" →
  json_loads payload = Some v →
  truthy v = true →
  _make_request cfg tmdb cache self "GET" endpoint params (Some key) w
  = (Ok v, self, w).
Proof.
  intros Hkey He Hc Hup Hk Hexp Hne Hl Hv.
  apply make_request_hit; [done| |done].
  by apply (CacheFacts.get_visible cache key w payload expires_at v).
Qed.

Lemma cache_hit_skips_breaker_witness :
  @_make_request Sample.scalar_json settings Sample.catalogue_down Sample.cache_on
    (init settings) "GET" "/genre/movie/list" None (Some "genres:movies")
    {| clock := 1000; redis_up := true;
       redis_db := {["genres:movies" := ("28", 2000)]}; wire := [] |}
  = (Ok (PInt 28), init settings,
     {| clock := 1000; redis_up := true;
        redis_db := {["genres:movies" := ("28", 2000)]}; wire := [] |}).
Proof.
  apply (@cache_hit_skips_breaker Sample.scalar_json settings Sample.catalogue_down
           Sample.cache_on (init settings) "/genre/movie/list" None "genres:movies"
           _ "28" 2000 (PInt 28)); try reflexivity; discriminate.
Defined.

(** C6 fails on the code: a cached value that is falsy is fetched again.
    The store holds an unexpired entry for the key and the cache manager
    returns its value, the empty object, as a hit; [if cached:] discards
    it and the request goes through the breaker to the catalogue, which is
    down: one request is on the wire and the breaker has counted a
    failure. The client writes such entries itself: the empty object a
    catalogue answers is stored under the key, and the next request within
    the time-to-live is sent to the catalogue again. *)
Theorem empty_cached_value_is_refetched :
  redis_db Sample.genres_cached_empty !! "genres:movies" = Some ("{}", 2000) ∧
  clock Sample.genres_cached_empty < 2000 ∧
  @Cache.get Sample.scalar_json Sample.cache_on "genres:movies" Sample.genres_cached_empty
    = (PDict [], Sample.genres_cached_empty) ∧
  (let '(r, self, w) :=
     @_make_request Sample.scalar_json settings Sample.catalogue_down Sample.cache_on
       (init settings) "GET" "/genre/movie/list" None (Some "genres:movies")
       Sample.genres_cached_empty in
   r = Raise (DependencyError "503") ∧
   wire w = [{| req_method := "GET";
                req_url := "https://api.themoviedb.org/3/genre/movie/list";
                req_params := None |}] ∧
   Breaker.failure_count (circuit_breaker self) = 1 ∧
   Breaker.last_failure_time (circuit_breaker self) = Some 1001) ∧
  (let '(r1, self1, w1) :=
     @_make_request Sample.scalar_json settings Sample.catalogue_empty Sample.cache_on
       (init settings) "GET" "/genre/movie/list" None (Some "genres:movies")
       (Sample.at_time 1000) in
   let '(r2, _, w2) :=
     @_make_request Sample.scalar_json settings Sample.catalogue_empty Sample.cache_on
       self1 "GET" "/genre/movie/list" None (Some "genres:movies") w1 in
   r1 = Ok (PDict []) ∧
   redis_db w1 !! "genres:movies" = Some ("{}", 1301) ∧
   clock w1 = 1001 ∧
   length (wire w1) = 1%nat ∧
   r2 = Ok (PDict []) ∧
   length (wire w2) = 2%nat).
Proof. vm_compute. repeat split; reflexivity. Qed.

(** The plans the client tests expect. *)
Example popular_plan :
  get_popular_movies 1 None =
    {| method := "GET"; endpoint := "/movie/popular";
       params := Some [("page", PInt 1)];
       cache_key := Some "popular:movies:page1:regionNone" |}.
Proof. reflexivity. Qed.

Example trending_plan :
  get_trending_movies "day" =
    {| method := "GET"; endpoint := "/trending/movie/day";
       params := None;
       cache_key := Some "trending:movies:day" |}.
Proof. reflexivity. Qed.

Example default_details_plan :
  get_movie_details 550 None =
    {| method := "GET"; endpoint := "/movie/550";
       params := Some [("append_to_response", PStr "credits,reviews,similar,videos,images")];
       cache_key := Some "movie:550:full" |}.
Proof. reflexivity. Qed.

(** The sibling wrappers do put what varies into the key. *)
Example reviews_keys_differ :
  cache_key (get_movie_reviews 550 1) = Some "movie:550:reviews:page1" ∧
  cache_key (get_movie_reviews 550 2) = Some "movie:550:reviews:page2" ∧
  cache_key (get_popular_movies 2 (Some "US")) = Some "popular:movies:page2:regionUS".
Proof. repeat split; reflexivity. Qed.

(** What the shared key does. With cache and breaker on, the breaker closed
    and nothing cached yet, a detail request that the catalogue answers with
    [r1] stores [r1]; a second detail request for the same movie within the
    time-to-live gets [r1] back from the cache, whatever sub-resources it
    asks for, and never reaches the catalogue. *)
Lemma details_served_from_other_include_set `{Json} cfg tmdb cache self
    movie_id include1 include2 w r1 finished now :
  CIRCUIT_BREAKER_ENABLED cfg = true →
  Breaker.state (circuit_breaker self) = Breaker.CLOSED →
  Cache.enabled cache = true → Cache.redis_client cache = true →
  redis_up w = true →
  redis_db w !! ("movie:" +:+ pretty movie_id +:+ ":full") = None →
  tmdb {| req_method := "GET";
          req_url := base_url self +:+ "/movie/" +:+ pretty movie_id;
          req_params := params (get_movie_details movie_id include1) |} (clock w)
    = (Ok r1, finished) →
  truthy r1 = true →
  json_loads "" = None →
  json_loads (json_dumps r1) = Some r1 →
  finished ≤ now < finished + CACHE_TTL cfg →
  ∃ w1,
    perform cfg tmdb cache self (get_movie_details movie_id include1) w
      = (Ok r1, self, w1) ∧
    length (wire w1) = S (length (wire w)) ∧
    perform cfg tmdb cache self (get_movie_details movie_id include2) (with_clock now w1)
      = (Ok r1, self, with_clock now w1).
Proof.
  intros Hcb Hst He Hc Hup Hmiss Htmdb Hr1 Hempty Hrt Hnow.
  assert (∀ include,
            perform cfg tmdb cache self (get_movie_details movie_id include)
            = _make_request cfg tmdb cache self "GET" ("/movie/" +:+ pretty movie_id)
                (params (get_movie_details movie_id include))
                (Some ("movie:" +:+ pretty movie_id +:+ ":full"))) as Hperform by done.
  rewrite !Hperform.
  set (key := "movie:" +:+ pretty movie_id +:+ ":full") in *.
  assert (key ≠ "") as Hkey by done.
  assert (cacheable "GET" (Some key) = true) as Hcacheable by done.
  set (w2 := {| clock := finished; redis_up := redis_up w; redis_db := redis_db w;
                wire := {| req_method := "GET";
                           req_url := base_url self +:+ "/movie/" +:+ pretty movie_id;
                           req_params := params (get_movie_details movie_id include1) |}
                        :: wire w |}).
  exists (Cache.set cfg cache key r1 None w2).
  split; [|split].
  - unfold _make_request. rewrite Hcacheable. cbn [default from_option id andb].
    pose proof (CacheFacts.get_unset cache key w Hmiss) as Hg1.
    pose proof (CacheFacts.get_world cache key w) as Hg2.
    destruct (Cache.get cache key w) as [v w']. simpl in Hg1, Hg2. subst v w'.
    cbn [truthy]. unfold Breaker.call. rewrite Hcb. cbn [negb].
    rewrite BreakerFacts.enter_not_open by (by rewrite Hst).
    unfold _request. rewrite Htmdb.
    unfold Breaker.on_success. rewrite Hst.
    by destruct self as [url cb].
  - rewrite CacheFacts.set_stores; [done|done|done|done|simpl; lia].
  - apply make_request_hit; [done| |done].
    apply (CacheFacts.get_after_set cfg cache key r1 None w2 now); try done.
Qed.

(** C7 fails on the code: the cache key of [get_movie_details] leaves the
    include set out. Two detail requests for one movie always share their
    key, while the parameters sent to the catalogue differ with the
    sub-resources asked for. *)
Theorem details_key_ignores_include_set :
  (∀ movie_id include1 include2,
     cache_key (get_movie_details movie_id include1)
     = cache_key (get_movie_details movie_id include2)) ∧
  cache_key (get_movie_details 550 (Some ["credits"]))
    = cache_key (get_movie_details 550 (Some ["videos"])) ∧
  cache_key (get_movie_details 550 (Some ["credits"])) = Some "movie:550:full" ∧
  params (get_movie_details 550 (Some ["credits"]))
    = Some [("append_to_response", PStr "credits")] ∧
  params (get_movie_details 550 (Some ["videos"]))
    = Some [("append_to_response", PStr "videos")] ∧
  params (get_movie_details 550 (Some ["credits"]))
    ≠ params (get_movie_details 550 (Some ["videos"])).
Proof. repeat split; try reflexivity. vm_compute. discriminate. Qed.

End ClientFacts.

(** * Facts about the dict model *)

Module PyDictFacts.
Import PyDict.

Lemma dict_get_find k d : dict_get k d = default PNone (dict_find k d).
Proof.
  induction d as [|[k' v] d IH]; [done|]. simpl. by destruct (String.eqb k' k).
Qed.

Lemma contains_getitem k st : contains k st = true ↔ is_Some (getitem k st).
Proof.
  unfold contains. rewrite bool_decide_eq_true.
  induction st as [|[k' v] st IH]; simpl.
  - split; [by intros ?%elem_of_nil|by intros [? ?]].
  - rewrite elem_of_cons. destruct (decide (k' = k)) as [->|Hne].
    + split; [by eauto|by left].
    + rewrite <- IH. split; [by intros [?|?]|by right].
Qed.

Lemma absent_getitem k st : contains k st = false ↔ getitem k st = None.
Proof.
  rewrite <- not_true_iff_false, contains_getitem, <- eq_None_not_Some. done.
Qed.

Lemma contains_app k st k' v :
  contains k (st ++ [(k', v)]) = contains k st || bool_decide (k' = k).
Proof.
  unfold contains. apply eq_true_iff_eq.
  rewrite orb_true_iff, !bool_decide_eq_true, fmap_app, elem_of_app.
  simpl. rewrite list_elem_of_singleton. split; (intros [?|?]; [by left|by right]).
Qed.

Lemma setitem_new k v st :
  contains k st = false → setitem k v st = st ++ [(k, v)].
Proof.
  unfold contains. rewrite bool_decide_eq_false.
  induction st as [|[k' v'] st IH]; simpl; [done|]. intros Hnotin.
  rewrite not_elem_of_cons in Hnotin. destruct Hnotin as [Hne Hnotin].
  destruct (decide (k' = k)); [done|]. by rewrite IH.
Qed.

Lemma getitem_app k st k' v :
  getitem k (st ++ [(k', v)]) =
    match getitem k st with
    | Some found => Some found
    | None => if decide (k' = k) then Some v else None
    end.
Proof.
  induction st as [|[k'' v''] st IH]; simpl; [done|].
  by destruct (decide (k'' = k)).
Qed.

Lemma pop_absent k st : contains k st = false → pop k st = st.
Proof.
  unfold contains. rewrite bool_decide_eq_false.
  induction st as [|[k' v'] st IH]; simpl; [done|]. intros Hnotin.
  rewrite not_elem_of_cons in Hnotin. destruct Hnotin as [Hne Hnotin].
  destruct (decide (k' = k)); [done|]. by rewrite IH.
Qed.

Lemma pop_app_new k v st :
  contains k st = false → pop k (st ++ [(k, v)]) = st.
Proof.
  unfold contains. rewrite bool_decide_eq_false.
  induction st as [|[k' v'] st IH]; simpl.
  - intros _. by destruct (decide (k = k)).
  - intros Hnotin. rewrite not_elem_of_cons in Hnotin.
    destruct Hnotin as [Hne Hnotin].
    destruct (decide (k' = k)); [done|]. by rewrite IH.
Qed.

Lemma getitem_pop_same k st : NoDup st.*1 → getitem k (pop k st) = None.
Proof.
  induction st as [|[k' v'] st IH]; simpl; [done|].
  rewrite NoDup_cons. intros [Hnotin Hnodup].
  destruct (decide (k' = k)) as [->|Hne].
  - apply absent_getitem. unfold contains. by rewrite bool_decide_eq_false.
  - simpl. destruct (decide (k' = k)); [done|]. by apply IH.
Qed.

Lemma getitem_pop_other k k' st : k ≠ k' → getitem k' (pop k st) = getitem k' st.
Proof.
  intros Hne. induction st as [|[k'' v''] st IH]; simpl; [done|].
  destruct (decide (k'' = k)) as [->|Hne'].
  - by destruct (decide (k = k')).
  - simpl. by destruct (decide (k'' = k')).
Qed.

Lemma length_pop k st : contains k st = true → S (length (pop k st)) = length st.
Proof.
  unfold contains. rewrite bool_decide_eq_true.
  induction st as [|[k' v'] st IH]; simpl; [by intros ?%elem_of_nil|].
  rewrite elem_of_cons. intros Hin.
  destruct (decide (k' = k)) as [->|Hne]; [done|].
  simpl. rewrite IH; [done|]. by destruct Hin.
Qed.

Lemma pop_sublist k st : sublist (pop k st) st.
Proof.
  induction st as [|[k' v'] st IH]; simpl; [done|].
  destruct (decide (k' = k)); [by apply sublist_cons|by apply sublist_skip].
Qed.

Lemma getitem_elem k st v : getitem k st = Some v → (k, v) ∈ st.
Proof.
  induction st as [|[k' v'] st IH]; simpl; [done|].
  destruct (decide (k' = k)) as [->|Hne].
  - intros [= ->]. by left.
  - intros Hget. right. by apply IH.
Qed.

Lemma getitem_setitem_same k v st : getitem k (setitem k v st) = Some v.
Proof.
  induction st as [|[k' v'] st IH]; simpl.
  - by destruct (decide (k = k)).
  - destruct (decide (k' = k)) as [->|Hne]; simpl.
    + by destruct (decide (k = k)).
    + by destruct (decide (k' = k)).
Qed.

Lemma getitem_setitem_other k k' v st :
  k' ≠ k → getitem k' (setitem k v st) = getitem k' st.
Proof.
  intros Hne. induction st as [|[k'' v''] st IH]; simpl.
  - by destruct (decide (k = k')).
  - destruct (decide (k'' = k)) as [->|Hne']; simpl.
    + by destruct (decide (k = k')).
    + by destruct (decide (k'' = k')).
Qed.

Lemma keys_setitem k v st :
  (setitem k v st).*1 = if contains k st then st.*1 else st.*1 ++ [k].
Proof.
  destruct (contains k st) eqn:Hin.
  - unfold contains in Hin. apply bool_decide_eq_true in Hin.
    induction st as [|[k' v'] st IH]; simpl; [by apply elem_of_nil in Hin|].
    destruct (decide (k' = k)) as [->|Hne]; [done|]. simpl. f_equal.
    apply IH. simpl in Hin. apply elem_of_cons in Hin as [?|?]; [by subst|done].
  - rewrite setitem_new by done. by rewrite fmap_app.
Qed.

Lemma length_setitem k v st : (length (setitem k v st) ≤ S (length st))%nat.
Proof.
  rewrite <- (length_fmap fst (setitem k v st)), keys_setitem.
  destruct (contains k st); rewrite ?length_app, length_fmap; simpl; lia.
Qed.

Lemma NoDup_setitem k v st : NoDup st.*1 → NoDup (setitem k v st).*1.
Proof.
  intros Hnodup. rewrite keys_setitem. destruct (contains k st) eqn:Hin; [done|].
  apply NoDup_app. split; [done|]. split; [|apply NoDup_singleton].
  intros k' Hk' ->%list_elem_of_singleton.
  unfold contains in Hin. by apply bool_decide_eq_false in Hin.
Qed.

End PyDictFacts.

(** * Facts about the float model *)

Module PyFloatFacts.
Import PyFloat.

Lemma round_exact m b : 0 < b → round_half_even (m * b) b = m.
Proof.
  intros Hb. unfold round_half_even.
  rewrite Z.div_mul, Z.mod_mul by lia. cbv zeta. rewrite Z.mul_0_r.
  destruct (Z.ltb_spec 0 b); [done|lia].
Qed.

(** [2 ^ exponent a d <= a / d] *)
Lemma exponent_lower a d :
  0 < a → 0 < d →
  let e := exponent a d in
  if 0 <=? e then d * 2 ^ e <= a else d <= a * 2 ^ (- e).
Proof.
  intros Ha Hd. unfold exponent, scaled.
  pose proof (Z.log2_spec a Ha) as [Hla _].
  pose proof (Z.log2_spec d Hd) as [_ Hld].
  pose proof (Z.log2_nonneg a) as Hla0. pose proof (Z.log2_nonneg d) as Hld0.
  set (la := Z.log2 a) in *. set (ld := Z.log2 d) in *.
  replace (Z.succ ld) with (ld + 1) in Hld by lia.
  rewrite Z.pow_add_r in Hld by lia. change (2 ^ 1) with 2 in Hld.
  destruct (Z.leb_spec 0 (la - ld)) as [He0|He0].
  - destruct (Z.ltb_spec a (d * 2 ^ (la - ld))) as [Hlt|Hge].
    + destruct (Z.leb_spec 0 (la - ld - 1)) as [He1|He1].
      * assert (2 ^ la = 2 ^ ld * 2 ^ (la - ld - 1) * 2) as Hpow.
        { rewrite <- Z.pow_add_r by lia. replace 2 with (2 ^ 1) at 3 by done.
          rewrite <- Z.pow_add_r by lia. f_equal. lia. }
        assert (0 < 2 ^ (la - ld - 1)) by (by apply Z.pow_pos_nonneg). nia.
      * assert (la - ld = 0) as Hz by lia. rewrite Hz in *.
        change (- (0 - 1)) with 1. change (2 ^ 1) with 2.
        assert (la = ld) as -> by lia. lia.
    + destruct (Z.leb_spec 0 (la - ld)); lia.
  - destruct (Z.ltb_spec (a * 2 ^ (- (la - ld))) d) as [Hlt|Hge].
    + destruct (Z.leb_spec 0 (la - ld - 1)); [lia|].
      replace (- (la - ld - 1)) with ((ld - la) + 1) by lia.
      rewrite Z.pow_add_r by lia. change (2 ^ 1) with 2.
      assert (2 ^ ld = 2 ^ la * 2 ^ (ld - la)) as Hpow
        by (rewrite <- Z.pow_add_r by lia; f_equal; lia).
      assert (0 < 2 ^ (ld - la)) by (apply Z.pow_pos_nonneg; lia). nia.
    + destruct (Z.leb_spec 0 (la - ld)); lia.
Qed.

Lemma sgn_mul_abs m : Z.sgn m * Z.abs m = m.
Proof. by destruct m. Qed.

Lemma pow2_lt_inv a b : 0 <= b → 2 ^ a < 2 ^ b → a < b.
Proof. intros Hb Hlt. apply (Z.pow_lt_mono_r_iff 2); [lia|lia|done]. Qed.

(** A quotient that is a multiple of [2 ^ -j] with less than 54 bits is
    its own nearest float. *)
Lemma nearest_exact n d m j :
  0 <= j <= 1074 → Z.abs m < 2 ^ 53 → n * 2 ^ j = m * Z.pos d →
  nearest n d = Some (Qred (Qmake m (Z.to_pos (2 ^ j)))).
Proof.
  intros Hj Hm Hnm. unfold nearest.
  assert (0 < 2 ^ j) as Hpj by (apply Z.pow_pos_nonneg; lia).
  destruct (Z.eqb_spec n 0) as [->|Hn].
  - assert (m = 0) as -> by nia. by f_equal.
  - assert (Z.abs n * 2 ^ j = Z.abs m * Z.pos d) as Habs.
    { rewrite <- (Z.abs_eq (2 ^ j)) at 1 by lia. rewrite <- Z.abs_mul, Hnm.
      rewrite Z.abs_mul. f_equal. }
    assert (Z.sgn n = Z.sgn m) as Hsgn.
    { destruct (Z.sgn_spec n) as [[? ->]|[[? ->]|[? ->]]];
        destruct (Z.sgn_spec m) as [[? ->]|[[? ->]|[? ->]]]; try done; nia. }
    pose proof (exponent_lower (Z.abs n) (Z.pos d) ltac:(lia) ltac:(lia)) as Hlow.
    cbv zeta in Hlow.
    set (e := exponent (Z.abs n) (Z.pos d)) in *.
    assert (e - 52 <= - j) as He.
    { destruct (Z.leb_spec 0 e) as [He0|He0].
      - assert (2 ^ (e + j) < 2 ^ 53) as Hlt.
        { rewrite Z.pow_add_r by lia.
          assert (Z.pos d * (2 ^ e * 2 ^ j) <= Z.pos d * Z.abs m) as Hle.
          { rewrite (Z.mul_comm (Z.pos d) (Z.abs m)), <- Habs, Z.mul_assoc.
            apply Z.mul_le_mono_nonneg_r; lia. }
          apply Z.mul_le_mono_pos_l in Hle; lia. }
        apply pow2_lt_inv in Hlt; lia.
      - destruct (Z.le_gt_cases j 52); [lia|].
        assert (2 ^ j < 2 ^ (53 - e)) as Hlt.
        { replace (53 - e) with (53 + - e) by lia. rewrite Z.pow_add_r by lia.
          assert (0 < 2 ^ (- e)) as Hpe by (apply Z.pow_pos_nonneg; lia).
          assert (Z.pos d * 2 ^ j <= Z.pos d * (Z.abs m * 2 ^ (- e))) as Hle.
          { rewrite Z.mul_assoc, (Z.mul_comm (Z.pos d) (Z.abs m)), <- Habs.
            rewrite <- Z.mul_assoc, (Z.mul_comm (2 ^ j)), Z.mul_assoc.
            apply Z.mul_le_mono_nonneg_r; lia. }
          apply Z.mul_le_mono_pos_l in Hle; [|lia].
          apply Z.le_lt_trans with (1 := Hle).
          apply Z.mul_lt_mono_pos_r; lia. }
        apply pow2_lt_inv in Hlt; lia. }
    set (shift := Z.max (e - 52) (-1074)).
    assert (shift <= - j) as Hshift by (unfold shift; lia).
    unfold scaled. destruct (Z.leb_spec 0 shift) as [Hs|Hs].
    + assert (shift = 0) as -> by lia. assert (j = 0) as -> by lia.
      change (2 ^ 0) with 1 in *. rewrite !Z.mul_1_r in *.
      rewrite Habs, round_exact by lia.
      destruct (Z.leb_spec (2 ^ 1024) (Z.abs (Z.sgn n * Z.abs m))) as [Hbig|_].
      * assert (Z.abs (Z.sgn n * Z.abs m) = Z.abs m) as Heq
          by (destruct (Z.sgn_spec n) as [[? ->]|[[? ->]|[? ->]]]; lia).
        rewrite Heq in Hbig. assert (2 ^ 53 < 2 ^ 1024) by done. lia.
      * f_equal. apply Qred_complete. by rewrite Hsgn, sgn_mul_abs.
    + set (k := - shift - j).
      assert (Z.abs n * 2 ^ (- shift) = (Z.abs m * 2 ^ k) * Z.pos d) as Hscaled.
      { replace (- shift) with (j + k) by (unfold k; lia).
        rewrite Z.pow_add_r by (unfold k; lia). nia. }
      rewrite Hscaled, round_exact by lia.
      f_equal. apply Qred_complete. unfold Qeq. simpl.
      rewrite !Z2Pos.id by (apply Z.pow_pos_nonneg; lia).
      replace (- shift) with (j + k) by (unfold k; lia).
      rewrite Z.pow_add_r by (unfold k; lia).
      rewrite Hsgn, Z.mul_assoc, sgn_mul_abs. ring.
Qed.

End PyFloatFacts.

(** * Properties of the aggregator *)

Module RouterFacts.
Import PyDict PyDictFacts Router.

Lemma sample_models_keep_typed_values : @keeps_typed_values Sample.typed_models.
Proof. by repeat split. Qed.

Lemma contains_nil k : contains k [] = false.
Proof. done. Qed.

(** The integer ratings of a mapping, in the order of its entries. *)
Lemma py_sum_ints start ns :
  py_sum start (map PInt ns) = Ok (start + foldr Z.add 0 ns).
Proof.
  revert start. induction ns as [|n ns IH]; intros start; simpl.
  - f_equal. lia.
  - rewrite IH. f_equal. lia.
Qed.

Lemma favorite_ratings_typed favorites :
  typed_ratings favorites →
  favorite_ratings favorites =
    map PInt (omap (fun entry => int_rating (dict_get "rating" entry.2)) favorites).
Proof.
  unfold favorite_ratings, values.
  induction 1 as [|[k entry] favorites Hentry _ IH]; [done|].
  rewrite fmap_cons. cbn [map List.filter snd]. simpl in Hentry. rewrite IH.
  destruct Hentry as [He|[n He]]; rewrite He; simpl; by rewrite He.
Qed.

Lemma favorite_ratings_none favorites :
  Forall (fun entry => dict_get "rating" entry.2 = PNone) favorites →
  favorite_ratings favorites = [].
Proof.
  unfold favorite_ratings, values.
  induction 1 as [|[k entry] favorites Hentry _ IH]; [done|].
  rewrite fmap_cons. cbn [map List.filter snd]. simpl in Hentry.
  by rewrite Hentry.
Qed.

Lemma py_sum_refuses start ratings :
  Exists (fun r => is_number r = false) ratings →
  ∃ msg, py_sum start ratings = Raise (TypeError msg).
Proof.
  revert start. induction ratings as [|r ratings IH]; intros start Hex.
  - by apply Exists_nil in Hex.
  - apply Exists_cons in Hex as [Hr|Hex].
    + destruct r; try done; by eexists.
    + destruct r; try (by eexists); simpl; by apply IH.
Qed.

(** A rating that is neither [None] nor a number ends the average in a
    [TypeError]. *)
Lemma avg_refuses favorites :
  Exists (fun entry : hkey * pydict =>
            is_None (dict_get "rating" entry.2) = false ∧
            is_number (dict_get "rating" entry.2) = false) favorites →
  ∃ msg, compute_avg_rating favorites = Raise (TypeError msg).
Proof.
  intros Hex.
  assert (Exists (fun r => is_number r = false) (favorite_ratings favorites)) as Hbad.
  { apply Exists_exists in Hex as ([k entry] & Hin & Hnone & Hnumber).
    apply Exists_exists. exists (dict_get "rating" entry). split; [|done].
    unfold favorite_ratings, values. apply list_elem_of_In, filter_In. split.
    - apply list_elem_of_In. apply list_elem_of_fmap. exists entry. split; [done|].
      apply list_elem_of_fmap. by exists (k, entry).
    - simpl in Hnone. by rewrite Hnone. }
  unfold compute_avg_rating.
  destruct (favorite_ratings favorites) as [|r rest]; [by apply Exists_nil in Hbad|].
  destruct (py_sum_refuses 0 (r :: rest) Hbad) as [msg ->]. by eexists.
Qed.

Lemma avg_of_ints favorites :
  typed_ratings favorites →
  compute_avg_rating favorites =
    match omap (fun entry => int_rating (dict_get "rating" entry.2)) favorites with
    | [] => Ok None
    | n :: rest =>
        match PyFloat.nearest (foldr Z.add 0 (n :: rest))
                              (Pos.of_succ_nat (length rest)) with
        | Some avg => Ok (Some avg)
        | None => Raise (OverflowError "integer division result too large for a float")
        end
    end.
Proof.
  intros Htyped. unfold compute_avg_rating.
  rewrite (favorite_ratings_typed favorites Htyped).
  destruct (omap _ favorites) as [|n rest]; [done|].
  pose proof (py_sum_ints 0 (n :: rest)) as Hsum. rewrite Z.add_0_l in Hsum.
  cbn [map] in Hsum |- *. rewrite Hsum, length_map. unfold PyFloat.truediv.
  by destruct (PyFloat.nearest _ _).
Qed.

Section WithModels.
Context `{Models}.

(** What [_enrich_movie] has done when it returns. *)
Lemma enrich_inv m favorites watchlist e :
  _enrich_movie m favorites watchlist = Ok e →
  ∃ id, as_scalar (dict_get "id" m) = Some id ∧
        enrichable m = true ∧
        movie e = m ∧
        is_favorite e = contains (key id) favorites ∧
        is_in_watchlist e = contains (key id) watchlist ∧
        Optional_int (dict_get "rating" (default [] (getitem (key id) favorites)))
          = Some (user_rating e).
Proof.
  unfold _enrich_movie, enrichable.
  destruct (as_scalar (dict_get "id" m)) as [id|] eqn:Hid; [|done].
  destruct (first_duplicate _ m) eqn:Hdup; [done|].
  destruct (accepts "EnrichedMovie" m) eqn:Hacc; [|done].
  destruct (Optional_int _) as [rating|] eqn:Hr; [|done].
  intros [= <-]. exists id. simpl.
  by repeat split.
Qed.

Lemma typed_rating_lookup favorites k :
  typed_ratings favorites →
  dict_get "rating" (default [] (getitem k favorites)) = PNone ∨
  ∃ n, dict_get "rating" (default [] (getitem k favorites)) = PInt n.
Proof.
  intros Htyped. destruct (getitem k favorites) as [entry|] eqn:Hget; [|by left].
  apply getitem_elem in Hget. unfold typed_ratings in Htyped.
  rewrite Forall_forall in Htyped. apply (Htyped (k, entry) Hget).
Qed.

(** An enrichable item is enriched, whatever the mappings, as long as the
    ratings are integers. *)
Lemma enrich_ok m favorites watchlist :
  keeps_typed_values → enrichable m = true → typed_ratings favorites →
  ∃ id, as_scalar (dict_get "id" m) = Some id ∧
    _enrich_movie m favorites watchlist =
      Ok {| movie := m;
            is_favorite := contains (key id) favorites;
            is_in_watchlist := contains (key id) watchlist;
            user_rating :=
              int_rating (dict_get "rating" (default [] (getitem (key id) favorites))) |}.
Proof.
  intros (Hint & Hnone & _) Hm Htyped. unfold enrichable in Hm.
  apply andb_true_iff in Hm as [Hm Hacc]. apply andb_true_iff in Hm as [Hid Hdup].
  apply bool_decide_eq_true in Hid as [id Hid]. apply bool_decide_eq_true in Hdup.
  exists id. split; [done|]. unfold _enrich_movie. rewrite Hid, Hdup, Hacc.
  destruct (typed_rating_lookup favorites (key id) Htyped) as [->|[n ->]].
  - by rewrite Hnone.
  - by rewrite Hint.
Qed.

Lemma enrich_all_inv items favorites watchlist enriched :
  enrich_all items favorites watchlist = Ok enriched →
  Forall2 (fun m e => _enrich_movie m favorites watchlist = Ok e) items enriched.
Proof.
  revert enriched. induction items as [|m items IH]; intros enriched; simpl.
  - intros [= <-]. constructor.
  - destruct (_enrich_movie m favorites watchlist) as [e|] eqn:He; [|done].
    destruct (enrich_all items favorites watchlist) as [others|]; [|done].
    intros [= <-]. constructor; [done|by apply IH].
Qed.

Lemma enrich_all_items items favorites watchlist enriched :
  enrich_all items favorites watchlist = Ok enriched →
  map movie enriched = items.
Proof.
  intros Hall%enrich_all_inv. induction Hall as [|m e items enriched He _ IH]; [done|].
  simpl. rewrite IH. apply enrich_inv in He as (_ & _ & _ & -> & _). done.
Qed.

Lemma enrich_all_ok items favorites watchlist :
  keeps_typed_values →
  Forall (fun m => enrichable m = true) items → typed_ratings favorites →
  ∃ enriched, enrich_all items favorites watchlist = Ok enriched.
Proof.
  intros Hlaw Hitems Htyped. induction Hitems as [|m items Hm _ [others IH]].
  - by exists [].
  - destruct (enrich_ok m favorites watchlist Hlaw Hm Htyped) as (id & _ & He).
    simpl. rewrite He, IH. by eexists.
Qed.

(** Without favourites nothing is a favourite or rated; without a
    watchlist nothing is in it. *)
Lemma enriched_without_favorites items watchlist enriched :
  keeps_typed_values →
  enrich_all items [] watchlist = Ok enriched →
  Forall (fun e => is_favorite e = false ∧ user_rating e = None) enriched.
Proof.
  intros (_ & Hnone & _) Hall%enrich_all_inv.
  induction Hall as [|m e items enriched He _ IH]; constructor; [|done].
  apply enrich_inv in He as (id & _ & _ & _ & -> & _ & Hrating).
  split; [done|]. simpl in Hrating. rewrite Hnone in Hrating. by simplify_eq.
Qed.


Lemma typed_ratings_nil : typed_ratings [].
Proof. constructor. Qed.


(** C4. Two items with ids 550 and 155 that the model accepts, enriched
    with favourites {550: {rating: 5}} and watchlist {155: {}}: the first is
    a favourite rated 5 and not in the watchlist, the second is no
    favourite, has no rating and is in the watchlist. For every item and
    all mappings: whenever [_enrich_movie] returns, the item is carried
    over, it is a favourite (in the watchlist) exactly when its id is bound
    in the favourites (watchlist) mapping, and its rating is what the
    model makes of the ["rating"] of the entry bound to its id, of [None]
    when there is no such entry or the entry has no rating. It does return
    for every item the model accepts when the ratings are integers, and
    then the rating is that integer, and absent where the lookup finds
    none. *)
Theorem enrich_looks_up_id (m550 m155 : pydict) :
  keeps_typed_values →
  dict_get "id" m550 = PInt 550 →
  dict_get "id" m155 = PInt 155 →
  enrichable m550 = true →
  enrichable m155 = true →
  enrich_all [m550; m155] Sample.favorites Sample.watchlist
  = Ok [ {| movie := m550; is_favorite := true; is_in_watchlist := false;
            user_rating := Some 5 |};
         {| movie := m155; is_favorite := false; is_in_watchlist := true;
            user_rating := None |} ] ∧
  (∀ m favorites watchlist e,
     _enrich_movie m favorites watchlist = Ok e →
     ∃ id, as_scalar (dict_get "id" m) = Some id ∧
       movie e = m ∧
       (is_favorite e = true ↔ is_Some (getitem (key id) favorites)) ∧
       (is_in_watchlist e = true ↔ is_Some (getitem (key id) watchlist)) ∧
       Some (user_rating e) =
         Optional_int match getitem (key id) favorites with
                      | Some favorite => dict_get "rating" favorite
                      | None => PNone
                      end) ∧
  (∀ m favorites watchlist,
     enrichable m = true → typed_ratings favorites →
     ∃ id e, as_scalar (dict_get "id" m) = Some id ∧
       _enrich_movie m favorites watchlist = Ok e ∧
       user_rating e =
         match getitem (key id) favorites with
         | Some favorite => int_rating (dict_get "rating" favorite)
         | None => None
         end).
Proof.
  intros Hlaw H550 H155 Hm550 Hm155. split; [|split].
  - assert (typed_ratings Sample.favorites) as Htyped
      by (constructor; [right; by exists 5|constructor]).
    destruct (enrich_ok m550 Sample.favorites Sample.watchlist Hlaw Hm550 Htyped)
      as (id1 & Hid1 & He1).
    destruct (enrich_ok m155 Sample.favorites Sample.watchlist Hlaw Hm155 Htyped)
      as (id2 & Hid2 & He2).
    rewrite H550 in Hid1. rewrite H155 in Hid2. simpl in Hid1, Hid2. simplify_eq.
    cbn [enrich_all]. rewrite He1, He2. reflexivity.
  - intros m favorites watchlist e He.
    apply enrich_inv in He as (id & Hid & _ & Hm & Hfav & Hwl & Hrating).
    exists id. split; [done|]. split; [done|].
    rewrite Hfav, Hwl, !contains_getitem. do 2 (split; [done|]).
    rewrite <- Hrating. by destruct (getitem (key id) favorites).
  - intros m favorites watchlist Hm Htyped.
    destruct (enrich_ok m favorites watchlist Hlaw Hm Htyped) as (id & Hid & He).
    eexists id, _. split; [done|]. split; [exact He|].
    simpl. by destruct (getitem (key id) favorites).
Qed.

(** The endpoints, slot by slot. *)
Lemma feed_cases page pop fav wl w :
  let rp := (pop page w).1 in
  let favorites := or_empty (fav (pop page w).2).1 in
  let watchlist := or_empty (wl (fav (pop page w).2).2).1 in
  (get_personalized_feed page pop fav wl w).2 = (wl (fav (pop page w).2).2).2 ∧
  (get_personalized_feed page pop fav wl w).1 =
    match rp with
    | Raise _ => Raise (HTTPException 500 "Failed to fetch movies from TMDB")
    | Ok p =>
        match enrich_all (default [] (results p)) favorites watchlist with
        | Raise e => Raise (internal_error e)
        | Ok enriched =>
            Ok {| movies := enriched;
                  feed_total_pages := default 1 (total_pages p);
                  current_page := page;
                  feed_total_results := default 0 (total_results p);
                  favorites_count := length favorites;
                  watchlist_count := length watchlist |}
        end
    end.
Proof.
  unfold get_personalized_feed, gather3.
  destruct (pop page w) as [rp w1]; simpl.
  destruct (fav w1) as [rf w2]; simpl.
  destruct (wl w2) as [rw w3]; simpl.
  destruct rp as [p|e]; [|done].
  by destruct (enrich_all _ _ _).
Qed.


Lemma details_cases movie_id get_details fav wl w :
  let primary :=
    get_details movie_id ["credits"; "reviews"; "similar"; "recommendations"]%string w in
  let favorites := or_empty (fav primary.2).1 in
  let watchlist := or_empty (wl (fav primary.2).2).1 in
  let favorite := default [] (getitem (HInt movie_id) favorites) in
  let listed := default [] (getitem (HInt movie_id) watchlist) in
  (get_enriched_movie_details movie_id get_details fav wl w).2
    = (wl (fav primary.2).2).2 ∧
  (get_enriched_movie_details movie_id get_details fav wl w).1 =
    match primary.1 with
    | Raise _ => Raise (HTTPException 500 "Failed to fetch movie details from TMDB")
    | Ok d =>
        match new_UserMovieData (contains (HInt movie_id) favorites)
                (contains (HInt movie_id) watchlist)
                (dict_get "rating" favorite) (dict_get "added_date" favorite)
                (dict_get "added_date" listed) with
        | Raise e => Raise (internal_error e)
        | Ok user_data =>
            let credits := default {| cast := None; crew := None |} (credits d) in
            match new_EnrichedMovieDetails (details d) user_data
                    (take 10 (default [] (cast credits)))
                    (take 10 (default [] (crew credits)))
                    (default 0 (r ← reviews d; total_results r))
                    (take 6 (default [] (s ← similar d; results s))) with
            | Raise e => Raise (internal_error e)
            | Ok enriched => Ok enriched
            end
        end
    end.
Proof.
  unfold get_enriched_movie_details, gather3.
  destruct (get_details movie_id _ w) as [rp w1]; simpl.
  destruct (fav w1) as [rf w2]; simpl.
  destruct (wl w2) as [rw w3]; simpl.
  destruct rp as [d|e]; [|done].
  destruct (new_UserMovieData _ _ _ _ _); [|done].
  by destruct (new_EnrichedMovieDetails _ _ _ _ _ _).
Qed.

Lemma dashboard_cases pop trend fav wl w :
  let rp := (pop 1 w).1 in
  let rt := (trend "day" (pop 1 w).2).1 in
  let favorites := or_empty (fav (trend "day" (pop 1 w).2).2).1 in
  let watchlist := or_empty (wl (fav (trend "day" (pop 1 w).2).2).2).1 in
  (get_complete_dashboard pop trend fav wl w).2
    = (wl (fav (trend "day" (pop 1 w).2).2).2).2 ∧
  (get_complete_dashboard pop trend fav wl w).1 =
    match enrich_all (first_twelve rp) favorites watchlist with
    | Raise e => Raise (internal_error e)
    | Ok enriched_popular =>
        match enrich_all (first_twelve rt) favorites watchlist with
        | Raise e => Raise (internal_error e)
        | Ok enriched_trending =>
            match compute_avg_rating favorites with
            | Raise e => Raise (internal_error e)
            | Ok avg =>
                Ok {| popular_movies := enriched_popular;
                      trending_movies := enriched_trending;
                      recommended_for_you := [];
                      continue_watching := [];
                      stats := {| total_favorites := length favorites;
                                  total_watchlist := length watchlist;
                                  movies_watched := length favorites;
                                  avg_rating := avg;
                                  favorite_genres := [] |};
                      dashboard_page := 1;
                      dashboard_total_pages := 1 |}
            end
        end
    end.
Proof.
  unfold get_complete_dashboard, gather4.
  destruct (pop 1 w) as [rp w1]; simpl.
  destruct (trend "day" w1) as [rt w2]; simpl.
  destruct (fav w2) as [rf w3]; simpl.
  destruct (wl w3) as [rw w4]; simpl.
  destruct (enrich_all (first_twelve rp) _ _); [|done].
  destruct (enrich_all (first_twelve rt) _ _); [|done].
  by destruct (compute_avg_rating _).
Qed.

(** The user data of the details, for typed entries. *)
Lemma user_data_ok is_fav is_listed favorite listed :
  keeps_typed_values → typed_favorite favorite → typed_date listed →
  new_UserMovieData is_fav is_listed (dict_get "rating" favorite)
    (dict_get "added_date" favorite) (dict_get "added_date" listed)
  = Ok {| ud_is_favorite := is_fav;
          ud_is_in_watchlist := is_listed;
          ud_user_rating := int_rating (dict_get "rating" favorite);
          added_to_favorites_date := str_value (dict_get "added_date" favorite);
          added_to_watchlist_date := str_value (dict_get "added_date" listed) |}.
Proof.
  intros (Hint & Hnone & Hstr & Hnone') [Hrating Hdate] Hlisted.
  unfold new_UserMovieData.
  assert (Optional_str (dict_get "added_date" favorite)
          = Some (str_value (dict_get "added_date" favorite))) as ->
    by (destruct Hdate as [->|[s ->]]; [exact Hnone'|apply Hstr]).
  assert (Optional_str (dict_get "added_date" listed)
          = Some (str_value (dict_get "added_date" listed))) as ->
    by (destruct Hlisted as [->|[s ->]]; [exact Hnone'|apply Hstr]).
  destruct Hrating as [->|(n & -> & Hn)].
  - by rewrite Hnone.
  - rewrite Hint. simpl.
    by rewrite (proj2 (Z.leb_le 1 n)), (proj2 (Z.leb_le n 5)) by lia.
Qed.

Lemma typed_favorite_nil : typed_favorite [].
Proof. split; by left. Qed.

Lemma typed_date_nil : typed_date [].
Proof. by left. Qed.

Lemma details_ok d user_data :
  detailable d = true →
  let credits := default {| cast := None; crew := None |} (credits d) in
  new_EnrichedMovieDetails (details d) user_data
    (take 10 (default [] (cast credits))) (take 10 (default [] (crew credits)))
    (default 0 (r ← reviews d; total_results r))
    (take 6 (default [] (s ← similar d; results s)))
  = Ok {| md_details := details d;
          user_data := user_data;
          md_cast := take 10 (default [] (cast credits));
          md_crew := take 10 (default [] (crew credits));
          reviews_count := default 0 (r ← reviews d; total_results r);
          similar_movies := take 6 (default [] (s ← similar d; results s)) |}.
Proof.
  unfold detailable. intros [Hdup Hacc]%andb_true_iff.
  apply bool_decide_eq_true in Hdup. simpl.
  unfold new_EnrichedMovieDetails. by rewrite Hdup, Hacc.
Qed.


(** The complete dashboard on typed data. *)
Lemma dashboard_ok pop trend fav wl w avg :
  let rp := (pop 1 w).1 in
  let rt := (trend "day" (pop 1 w).2).1 in
  let favorites := or_empty (fav (trend "day" (pop 1 w).2).2).1 in
  let watchlist := or_empty (wl (fav (trend "day" (pop 1 w).2).2).2).1 in
  keeps_typed_values →
  Forall (fun m => enrichable m = true) (first_twelve rp) →
  Forall (fun m => enrichable m = true) (first_twelve rt) →
  typed_ratings favorites →
  compute_avg_rating favorites = Ok avg →
  ∃ feed,
    (get_complete_dashboard pop trend fav wl w).1 = Ok feed ∧
    enrich_all (first_twelve rp) favorites watchlist = Ok (popular_movies feed) ∧
    enrich_all (first_twelve rt) favorites watchlist = Ok (trending_movies feed) ∧
    total_favorites (stats feed) = length favorites ∧
    total_watchlist (stats feed) = length watchlist ∧
    avg_rating (stats feed) = avg.
Proof.
  intros rp rt favorites watchlist Hlaw Hp Ht Htyped Havg.
  destruct (dashboard_cases pop trend fav wl w) as [_ ->].
  fold rp rt favorites watchlist.
  destruct (enrich_all_ok _ favorites watchlist Hlaw Hp Htyped) as [ep ->].
  destruct (enrich_all_ok _ favorites watchlist Hlaw Ht Htyped) as [et ->].
  rewrite Havg. by eexists.
Qed.

Lemma dashboard_inv pop trend fav wl w feed :
  let rp := (pop 1 w).1 in
  let rt := (trend "day" (pop 1 w).2).1 in
  let favorites := or_empty (fav (trend "day" (pop 1 w).2).2).1 in
  let watchlist := or_empty (wl (fav (trend "day" (pop 1 w).2).2).2).1 in
  (get_complete_dashboard pop trend fav wl w).1 = Ok feed →
  enrich_all (first_twelve rp) favorites watchlist = Ok (popular_movies feed) ∧
  enrich_all (first_twelve rt) favorites watchlist = Ok (trending_movies feed) ∧
  compute_avg_rating favorites = Ok (avg_rating (stats feed)) ∧
  total_favorites (stats feed) = length favorites ∧
  total_watchlist (stats feed) = length watchlist.
Proof.
  intros rp rt favorites watchlist.
  destruct (dashboard_cases pop trend fav wl w) as [_ ->].
  fold rp rt favorites watchlist.
  destruct (enrich_all (first_twelve rp) _ _); [|done].
  destruct (enrich_all (first_twelve rt) _ _); [|done].
  destruct (compute_avg_rating _); [|done].
  by intros [= <-].
Qed.


(** C9, as the code has it. Over favourites none of which has a rating
    the average is [None]: no zero, no exception. Over the two favourites
    rated 5 and 4 it is 9/2. With integer ratings, the ratings kept are the
    ratings [ns] of the entries that have one, in the order of the entries,
    and the average is [None] when there is none and otherwise the float
    nearest to their sum divided by their number, [OverflowError] when that
    is no float. It is the mean itself whenever the mean is a multiple of a
    power of 1/2 with less than 54 bits. A rating that is neither [None]
    nor a number ends the sum in a [TypeError], and whenever the average
    raises the dashboard answers 500. The average is the figure in the
    statistics whenever the dashboard answers, and it does answer on items
    the model accepts. *)
Theorem avg_rating_is_rounded_mean (favorites : store) :
  let ns : list Z :=
    omap (fun entry : hkey * pydict => int_rating (dict_get "rating" entry.2)) favorites in
  compute_avg_rating [] = Ok None ∧
  (Forall (fun entry => dict_get "rating" entry.2 = PNone) favorites →
   compute_avg_rating favorites = Ok None) ∧
  compute_avg_rating Sample.two_favorites = Ok (Some (9 # 2)) ∧
  (typed_ratings favorites →
   favorite_ratings favorites = map PInt ns ∧
   compute_avg_rating favorites =
     match ns with
     | [] => Ok None
     | n :: rest =>
         match PyFloat.nearest (foldr Z.add 0 (n :: rest))
                               (Pos.of_succ_nat (length rest)) with
         | Some avg => Ok (Some avg)
         | None => Raise (OverflowError "integer division result too large for a float")
         end
     end ∧
   ∀ m j,
     ns ≠ [] → 0 <= j <= 1074 → Z.abs m < 2 ^ 53 →
     foldr Z.add 0 ns * 2 ^ j = m * Z.of_nat (length ns) →
     ∃ avg, compute_avg_rating favorites = Ok (Some avg) ∧
            Qeq avg (Qmake (foldr Z.add 0 ns) (Pos.of_nat (length ns)))) ∧
  (Exists (fun entry : hkey * pydict =>
             is_None (dict_get "rating" entry.2) = false ∧
             is_number (dict_get "rating" entry.2) = false) favorites →
   ∃ msg, compute_avg_rating favorites = Raise (TypeError msg)) ∧
  (∀ e, compute_avg_rating favorites = Raise e →
   ∀ pop trend wl w,
     ∃ detail,
       (get_complete_dashboard pop trend (fun w => (Ok favorites, w)) wl w).1
       = Raise (HTTPException 500 detail)) ∧
  (∀ pop trend wl w feed,
     (get_complete_dashboard pop trend (fun w => (Ok favorites, w)) wl w).1 = Ok feed →
     compute_avg_rating favorites = Ok (avg_rating (stats feed))) ∧
  (keeps_typed_values →
   typed_ratings favorites →
   ∀ pop trend wl w avg,
     Forall (fun m => enrichable m = true) (first_twelve (pop 1 w).1) →
     Forall (fun m => enrichable m = true) (first_twelve (trend "day" (pop 1 w).2).1) →
     compute_avg_rating favorites = Ok avg →
     ∃ feed,
       (get_complete_dashboard pop trend (fun w => (Ok favorites, w)) wl w).1 = Ok feed ∧
       avg_rating (stats feed) = avg).
Proof.
  intros ns. split; [done|]. split; [|split; [done|]].
  { intros Hnone. unfold compute_avg_rating. by rewrite favorite_ratings_none. }
  split; [|split; [by apply avg_refuses|split; [|split]]].
  - intros Htyped. split; [by apply favorite_ratings_typed|].
    split; [by apply avg_of_ints|].
    intros m j Hns Hj Hm Hmean. rewrite (avg_of_ints favorites Htyped). fold ns.
    destruct ns as [|n rest]; [done|].
    assert (Z.pos (Pos.of_succ_nat (length rest)) = Z.of_nat (length (n :: rest))) as Hlen
      by (simpl; lia).
    rewrite <- Hlen in Hmean.
    rewrite (PyFloatFacts.nearest_exact _ _ m j Hj Hm Hmean).
    eexists. split; [done|]. rewrite Qred_correct. unfold Qeq. simpl.
    rewrite Z2Pos.id by (apply Z.pow_pos_nonneg; lia).
    rewrite <- Pos.of_nat_succ. simpl in Hmean. lia.
  - intros e Havg pop trend wl w.
    destruct (dashboard_cases pop trend (fun w => (Ok favorites, w)) wl w) as [_ Hr].
    simpl in Hr. rewrite Hr, Havg.
    destruct (enrich_all _ _ _); [|by eexists].
    destruct (enrich_all _ _ _); by eexists.
  - intros pop trend wl w feed Hfeed.
    by apply dashboard_inv in Hfeed as (_ & _ & Havg & _).
  - intros Hlaw Htyped pop trend wl w avg Hp Ht Havg.
    destruct (dashboard_ok pop trend (fun w => (Ok favorites, w)) wl w avg)
      as (feed & Hfeed & _ & _ & _ & _ & Ha); try done.
    by exists feed.
Qed.

End WithModels.

Lemma enrich_looks_up_id_witness :
  @enrich_all Sample.typed_models [Sample.fight_club_item; Sample.dark_knight_item]
    Sample.favorites Sample.watchlist
  = Ok [ {| movie := Sample.fight_club_item; is_favorite := true;
            is_in_watchlist := false; user_rating := Some 5 |};
         {| movie := Sample.dark_knight_item; is_favorite := false;
            is_in_watchlist := true; user_rating := None |} ].
Proof.
  apply (@enrich_looks_up_id Sample.typed_models Sample.fight_club_item
           Sample.dark_knight_item sample_models_keep_typed_values);
    reflexivity.
Defined.

Lemma avg_rating_is_rounded_mean_witness :
  compute_avg_rating Sample.two_favorites = Ok (Some (9 # 2)).
Proof.
  destruct (@avg_rating_is_rounded_mean Sample.typed_models Sample.two_favorites)
    as (_ & _ & Havg & _).
  exact Havg.
Defined.

(** C9 as stated fails. Over the ratings 1, 1 and 2 the statistic is the
    float nearest to 4/3, which is not 4/3. Over a rating of 10^400 the
    division raises [OverflowError], and over a rating that is a string,
    so with no numeric rating at all, the sum raises [TypeError]: the
    statistic is not absent, and the dashboard answers 500. *)
Lemma mean_is_rounded :
  favorite_ratings Sample.three_favorites = [PInt 1; PInt 1; PInt 2] ∧
  compute_avg_rating Sample.three_favorites
    = Ok (Some (6004799503160661 # 4503599627370496)) ∧
  ¬ (6004799503160661 # 4503599627370496 == 4 # 3)%Q ∧
  compute_avg_rating [(HInt 550, [("rating", PInt (10 ^ 400))])]
    = Raise (OverflowError "integer division result too large for a float") ∧
  compute_avg_rating [(HInt 999, [("rating", PStr "five")])]
    = Raise (TypeError "unsupported operand type(s) for +: 'int' and 'str'") ∧
  (@get_complete_dashboard Sample.typed_models Sample.popular_ok Sample.trending_ok
     (Sample.context_ok [(HInt 999, [("rating", PStr "five")])])
     (Sample.context_ok Sample.watchlist) (Sample.at_time 1000)).1
    = Raise (HTTPException 500 "unsupported operand type(s) for +: 'int' and 'str'").
Proof.
  split; [done|]. split; [by vm_compute|]. split; [by vm_compute|].
  split; [by vm_compute|]. split; by vm_compute.
Qed.

(** A rating that is no number, next to one that is. *)
Example text_rating_is_refused :
  compute_avg_rating [(HInt 550, [("rating", PInt 5)]); (HInt 155, [("rating", PStr "4")])]
  = Raise (TypeError "unsupported operand type(s) for +: 'int' and 'str'").
Proof. by vm_compute. Qed.



(** The dashboard tests, run on the model. *)
Example feed_handles_user_service_error :
  (@get_personalized_feed Sample.typed_models 1 Sample.popular_ok Sample.context_down
     Sample.context_down (Sample.at_time 1000)).1
  = Ok {| movies :=
            [ {| movie := Sample.fight_club_item; is_favorite := false;
                 is_in_watchlist := false; user_rating := None |};
              {| movie := Sample.dark_knight_item; is_favorite := false;
                 is_in_watchlist := false; user_rating := None |} ];
          feed_total_pages := 100; current_page := 1; feed_total_results := 2000;
          favorites_count := 0; watchlist_count := 0 |}.
Proof. by vm_compute. Qed.

Example feed_handles_tmdb_error :
  (@get_personalized_feed Sample.typed_models 1 Sample.popular_down
     (Sample.context_ok Sample.favorites) (Sample.context_ok Sample.watchlist)
     (Sample.at_time 1000)).1
  = Raise (HTTPException 500 "Failed to fetch movies from TMDB").
Proof. reflexivity. Qed.

Example fetch_indexes_by_movie_id :
  (_fetch_user_favorites
     (fun w => (Ok {| favorites :=
                        Some [[("movie_id", PInt 550); ("rating", PInt 5)]] |}, w))
     (Sample.at_time 1000)).1
  = Ok [(HInt 550, [("movie_id", PInt 550); ("rating", PInt 5)])].
Proof. reflexivity. Qed.

(** An item without a title is refused by the model, and the feed answers
    500 though the catalogue answered. *)
Example feed_refuses_untitled_item :
  ∃ detail,
    (@get_personalized_feed Sample.typed_models 1
       (fun _ w => (Ok {| results := Some [[("id", PInt 550)]];
                          total_pages := Some 1; total_results := Some 1 |}, w))
       (Sample.context_ok Sample.favorites) (Sample.context_ok Sample.watchlist)
       (Sample.at_time 1000)).1
    = Raise (HTTPException 500 detail).
Proof. eexists. by vm_compute. Qed.

End RouterFacts.

(** * More on the circuit breaker *)

Module BreakerMore.
Import Breaker BreakerFacts.

Lemma call_seq_app {A} cfg cb (calls1 calls2 : list (Op A * World)) :
  call_seq cfg cb (calls1 ++ calls2) =
    ((call_seq cfg cb calls1).1 ++ (call_seq cfg (call_seq cfg cb calls1).2 calls2).1,
     (call_seq cfg (call_seq cfg cb calls1).2 calls2).2).
Proof.
  revert cb. induction calls1 as [|[func w] calls1 IH]; intros cb; simpl.
  - by destruct (call_seq cfg cb calls2).
  - destruct (call cfg cb func w) as [[r cb1] w1]. rewrite IH.
    destruct (call_seq cfg cb1 calls1) as [rs cb2]. simpl.
    by destruct (call_seq cfg cb2 calls2).
Qed.

Lemma failures_cons {A} (func : Op A) w calls :
  failures ((func, w) :: calls) =
    if failed (func w).1 then S (failures calls) else failures calls.
Proof. unfold failures. simpl. by destruct (failed (func w).1). Qed.

Lemma last_failure_cons {A} (func : Op A) w calls before :
  last_failure ((func, w) :: calls) before =
    last_failure calls
      (if failed (func w).1 then Some (clock (func w).2) else before).
Proof. done. Qed.

(** X1. With the breaker enabled, a closed breaker whose count plus the
    number of raising operations stays below the threshold runs every
    operation of a sequence of calls and hands back its outcome, ends
    CLOSED, has counted one failure per raising operation (returns in
    between do not reset the count) and remembers the clock read after the
    last failure. *)
Theorem counts_failures_below_threshold {A} cfg cb (calls : list (Op A * World)) :
  CIRCUIT_BREAKER_ENABLED cfg = true →
  state cb = CLOSED →
  failure_count cb + Z.of_nat (failures calls) < failure_threshold cb →
  call_seq cfg cb calls =
    (op_outcomes calls,
     {| name := name cb;
        failure_threshold := failure_threshold cb;
        timeout := timeout cb;
        failure_count := failure_count cb + Z.of_nat (failures calls);
        last_failure_time := last_failure calls (last_failure_time cb);
        state := CLOSED |}).
Proof.
  intros He. revert cb.
  induction calls as [|[func w] calls IH]; intros cb Hc Hlt.
  - simpl. change (Z.of_nat (failures [])) with 0. rewrite Z.add_0_r.
    destruct cb; simpl in *; by subst.
  - rewrite failures_cons in Hlt. rewrite failures_cons, last_failure_cons.
    cbn [call_seq op_outcomes map fst snd].
    unfold call. rewrite He. cbn [negb].
    rewrite enter_not_open by (by rewrite Hc).
    destruct (func w) as [[a|e] w'] eqn:Hf; cbn [failed fst snd] in *.
    + unfold on_success. rewrite Hc. by rewrite (IH cb Hc Hlt).
    + assert ((failure_threshold cb <=? failure_count cb + 1) = false) as Hleb
        by (apply Z.leb_gt; lia).
      rewrite (IH (on_failure cb (clock w'))); simpl.
      * by replace (failure_count cb + 1 + Z.of_nat (failures calls))
          with (failure_count cb + Z.of_nat (S (failures calls))) by lia.
      * by rewrite Hleb.
      * lia.
Qed.

Lemma counts_failures_below_threshold_witness :
  call_seq settings (init settings "tmdb-api" None None)
    [(Sample.failing, Sample.at_time 1000);
     (Sample.answering, Sample.at_time 1005);
     (Sample.failing, Sample.at_time 1010)]
  = ([(Raise (DependencyError "503"), Sample.at_time 1001);
      (Ok Sample.fight_club, Sample.at_time 1006);
      (Raise (DependencyError "503"), Sample.at_time 1011)],
     {| name := "tmdb-api"; failure_threshold := 5; timeout := 60;
        failure_count := 2; last_failure_time := Some 1011; state := CLOSED |}).
Proof.
  apply (counts_failures_below_threshold settings (init settings "tmdb-api" None None)
           [(Sample.failing, Sample.at_time 1000);
            (Sample.answering, Sample.at_time 1005);
            (Sample.failing, Sample.at_time 1010)]);
    reflexivity.
Defined.

(** X2. A breaker built by [__init__] and driven by breaker steps rejects a
    call in exactly one situation: the breaker is enabled, OPEN, and the
    timeout since the last failure has not elapsed; then it raises
    [CircuitOpen] and neither the breaker nor the world changes. In every
    other situation the operation is run and the call hands back its
    outcome and its world. The breaker raises nothing else of its own, and
    a call never changes its name, threshold or timeout. *)
Theorem rejects_exactly_when_open {A} cfg0 nm th tmo evs cfg (func : Op A) w :
  let cb := run (init cfg0 nm th tmo) evs in
  (∃ t, CIRCUIT_BREAKER_ENABLED cfg = true ∧ state cb = OPEN ∧
        last_failure_time cb = Some t ∧ clock w - t < timeout cb ∧
        call cfg cb func w = (Raise (CircuitOpen (name cb)), cb, w)) ∨
  (¬ (CIRCUIT_BREAKER_ENABLED cfg = true ∧ state cb = OPEN ∧
      ∃ t, last_failure_time cb = Some t ∧ clock w - t < timeout cb) ∧
   (call cfg cb func w).1.1 = (func w).1 ∧
   (call cfg cb func w).2 = (func w).2 ∧
   name (call cfg cb func w).1.2 = name cb ∧
   failure_threshold (call cfg cb func w).1.2 = failure_threshold cb ∧
   timeout (call cfg cb func w).1.2 = timeout cb).
Proof.
  intros cb.
  assert (sound cb) as [_ Hs] by apply run_sound, init_sound.
  destruct (CIRCUIT_BREAKER_ENABLED cfg) eqn:He.
  2:{ right. rewrite call_disabled by done. split; [|done].
      by intros [? _]. }
  destruct (decide (state cb = OPEN)) as [Ho|Hno].
  - destruct Hs as [_ [t Ht]]; [by rewrite Ho|].
    destruct (Z.leb_spec (timeout cb) (clock w - t)) as [Hge|Hlt].
    + right. split.
      { intros (_ & _ & t' & Ht' & Hlt). simplify_eq. lia. }
      unfold call. rewrite He. simpl. rewrite (enter_open _ _ t) by done.
      destruct (Z.leb_spec (timeout cb) (clock w - t)); [|lia].
      by destruct (func w) as [[a|e] w'].
    + left. exists t. repeat (split; [done|]).
      by apply (call_rejected cfg cb func w t).
  - right. split; [by intros (_ & ? & _)|].
    unfold call. rewrite He. simpl. rewrite enter_not_open by done.
    destruct (func w) as [[a|e] w']; simpl; [|done].
    unfold on_success. by destruct (state cb).
Qed.

(** X3. Recovery. From an OPEN breaker with last failure at [t], any number
    of calls made inside the timeout are rejected without postponing
    anything: the first call made at [t + timeout] or later is let through,
    and when its operation returns the breaker is CLOSED with a count of 0.
    The failure time is kept ([reset] alone clears it). *)
Theorem rejections_do_not_postpone_recovery {A} cfg cb
    (early : list (Op A * World)) (func : Op A) w t a w' :
  CIRCUIT_BREAKER_ENABLED cfg = true →
  state cb = OPEN →
  last_failure_time cb = Some t →
  Forall (fun fw => clock fw.2 - t < timeout cb) early →
  timeout cb ≤ clock w - t →
  func w = (Ok a, w') →
  call_seq cfg cb (early ++ [(func, w)]) =
    (map (fun fw => (Raise (CircuitOpen (name cb)), fw.2)) early ++ [(Ok a, w')],
     {| name := name cb;
        failure_threshold := failure_threshold cb;
        timeout := timeout cb;
        failure_count := 0;
        last_failure_time := Some t;
        state := CLOSED |}).
Proof.
  intros He Ho Ht Hearly Hlate Hf.
  rewrite call_seq_app, (call_seq_rejected cfg cb early t) by done. simpl.
  unfold call. rewrite He. simpl. rewrite (enter_open _ _ t) by done.
  destruct (Z.leb_spec (timeout cb) (clock w - t)); [|lia].
  rewrite Hf. simpl. unfold on_success, with_state. simpl. by rewrite Ht.
Qed.

Lemma rejections_do_not_postpone_recovery_witness :
  call_seq settings (run Sample.breaker [Raised 1001; Raised 1006])
    ([(Sample.answering, Sample.at_time 1010); (Sample.answering, Sample.at_time 1065)]
     ++ [(Sample.answering, Sample.at_time 1066)])
  = ([(Raise (CircuitOpen "tmdb-api"), Sample.at_time 1010);
      (Raise (CircuitOpen "tmdb-api"), Sample.at_time 1065)]
     ++ [(Ok Sample.fight_club, Sample.at_time 1067)],
     {| name := "tmdb-api"; failure_threshold := 2; timeout := 60;
        failure_count := 0; last_failure_time := Some 1006; state := CLOSED |}).
Proof.
  apply (rejections_do_not_postpone_recovery settings
           (run Sample.breaker [Raised 1001; Raised 1006])
           [(Sample.answering, Sample.at_time 1010); (Sample.answering, Sample.at_time 1065)]
           Sample.answering (Sample.at_time 1066) 1006 Sample.fight_club
           (Sample.at_time 1067)); try reflexivity.
  repeat constructor.
Defined.

End BreakerMore.

(** * More on the response cache *)

Module CacheMore.
Import Cache CacheFacts.

Section WithJson.
Context `{Json}.

Lemma set_keeps_rest cfg self key value ttl w :
  clock (set cfg self key value ttl w) = clock w ∧
  redis_up (set cfg self key value ttl w) = redis_up w ∧
  wire (set cfg self key value ttl w) = wire w ∧
  ∀ key', key' ≠ key →
    redis_db (set cfg self key value ttl w) !! key' = redis_db w !! key'.
Proof.
  unfold set, redis_setex. destruct (negb _ || negb _); [done|].
  destruct (redis_up w) eqn:Hup; [|done].
  destruct (_ <=? 0); simpl; [done|].
  do 3 (split; [done|]). intros key' Hne. by apply lookup_insert_ne.
Qed.

Lemma delete_keeps_rest self key w :
  clock (delete self key w) = clock w ∧
  redis_up (delete self key w) = redis_up w ∧
  wire (delete self key w) = wire w ∧
  ∀ key', key' ≠ key →
    redis_db (delete self key w) !! key' = redis_db w !! key'.
Proof.
  unfold delete, redis_delete. destruct (negb _ || negb _); [done|].
  destruct (redis_up w) eqn:Hup; [|done]. simpl.
  do 3 (split; [done|]). intros key' Hne. by apply lookup_delete_ne.
Qed.

(** What [get] answers depends on the manager, the clock, the state of the
    server and the entry under the key, and on nothing else. *)
Lemma get_depends_on_entry self key w1 w2 :
  clock w1 = clock w2 → redis_up w1 = redis_up w2 →
  redis_db w1 !! key = redis_db w2 !! key →
  (get self key w1).1 = (get self key w2).1.
Proof.
  intros Hc Hup Hk. unfold get, redis_get.
  destruct (negb _ || negb _); [done|]. rewrite Hup, Hk, Hc.
  destruct (redis_up w2); [|done].
  destruct (redis_db w2 !! key) as [[payload exp]|]; [|done].
  destruct (clock w2 <? exp); [|done]. simpl.
  destruct (negb _); [|done]. by destruct (json_loads payload).
Qed.

End WithJson.

(** X4. [connect] leaves the cache enabled exactly when it was enabled and
    the ping reached Redis, and then the manager holds a client. When the
    ping fails (or the cache was configured off) the manager is off for
    good: in every later world, Redis back up or not, [get] answers [None]
    and [set] and [delete] do nothing. *)
Theorem failed_connect_switches_cache_off `{Json} cfg self w :
  enabled (connect self w) = (enabled self && redis_up w) ∧
  (enabled (connect self w) = true → redis_client (connect self w) = true) ∧
  (enabled self && redis_up w = false →
   ∀ key value ttl w',
     get (connect self w) key w' = (PNone, w') ∧
     set cfg (connect self w) key value ttl w' = w' ∧
     delete (connect self w) key w' = w').
Proof.
  assert (enabled (connect self w) = (enabled self && redis_up w)) as Hen.
  { unfold connect. destruct (enabled self) eqn:He; simpl; [|done].
    by destruct (redis_up w). }
  split; [done|]. split.
  - unfold connect. destruct (enabled self) eqn:He; simpl; [|congruence].
    by destruct (redis_up w).
  - intros Hoff key value ttl w'. apply disabled_cache. left. by rewrite Hen.
Qed.

(** X5. With the cache on and Redis up, an entry written by [set] with a
    positive time-to-live is gone for [get] from the instant set time +
    time-to-live on; and a second [set] on the same key replaces it: inside
    the second window [get] returns the second value, whatever the first
    window was. *)
Theorem entries_expire_and_are_overwritten `{Json} cfg self key value ttl w :
  enabled self = true → redis_client self = true → redis_up w = true →
  0 < py_or ttl (CACHE_TTL cfg) →
  (∀ now, clock w + py_or ttl (CACHE_TTL cfg) ≤ now →
     (get self key (with_clock now (set cfg self key value ttl w))).1 = PNone) ∧
  (∀ value2 ttl2 t2 now,
     json_loads "" = None →
     json_loads (json_dumps value2) = Some value2 →
     t2 ≤ now < t2 + py_or ttl2 (CACHE_TTL cfg) →
     (get self key
        (with_clock now
           (set cfg self key value2 ttl2
              (with_clock t2 (set cfg self key value ttl w))))).1 = value2).
Proof.
  intros He Hc Hup Hpos. split.
  - intros now Hnow. rewrite set_stores by done.
    eapply get_expired; simpl; [apply lookup_insert_eq|lia].
  - intros value2 ttl2 t2 now Hempty Hrt Hwin.
    rewrite (get_after_set cfg self key value2 ttl2
               (with_clock t2 (set cfg self key value ttl w)) now); try done.
    simpl. by rewrite set_stores.
Qed.

Lemma entries_expire_and_are_overwritten_witness :
  (@get Sample.scalar_json Sample.cache_on "genres:movies"
     (with_clock 1300
        (@set Sample.scalar_json settings Sample.cache_on "genres:movies"
              (PInt 5) None (Sample.at_time 1000)))).1 = PNone.
Proof.
  apply (@entries_expire_and_are_overwritten Sample.scalar_json settings Sample.cache_on
           "genres:movies" (PInt 5) None (Sample.at_time 1000));
    reflexivity.
Defined.

(** X6. A [delete(key)] that reaches Redis (cache enabled and connected,
    Redis up) removes the entry: [get(key)] answers [None] in every later
    world in which the key has not been written again, whatever the clock
    reads, whether Redis is up, and whatever happened to other keys. A
    [delete] that does not reach Redis is swallowed and changes nothing, so
    the entry is still in the store when Redis is back. Keys do not
    interfere: neither [set] nor [delete] on one key changes what [get]
    answers for another key. *)
Theorem delete_removes_and_keys_are_independent `{Json} cfg self key value ttl w :
  (enabled self = true ∧ redis_client self = true ∧ redis_up w = true →
   redis_db (delete self key w) !! key = None ∧
   ∀ w', redis_db w' !! key = redis_db (delete self key w) !! key →
         (get self key w').1 = PNone) ∧
  (enabled self = false ∨ redis_client self = false ∨ redis_up w = false →
   delete self key w = w) ∧
  ∀ key', key' ≠ key →
    (get self key' (set cfg self key value ttl w)).1 = (get self key' w).1 ∧
    (get self key' (delete self key w)).1 = (get self key' w).1.
Proof.
  split; [|split].
  - intros (Hon & Hclient & Hup).
    assert (redis_db (delete self key w) !! key = None) as Hgone.
    { unfold delete, redis_delete. rewrite Hon, Hclient, Hup. simpl.
      apply lookup_delete_eq. }
    split; [done|]. intros w' Hsame. apply get_unset. by rewrite Hsame.
  - unfold delete, redis_delete.
    intros [->|[->|Hdown]]; [done|by rewrite orb_true_r|].
    rewrite Hdown. by destruct (negb _ || negb _).
  - intros key' Hne. split.
    + destruct (set_keeps_rest cfg self key value ttl w) as (Hc & Hup & _ & Hdb).
      apply get_depends_on_entry; auto.
    + destruct (delete_keeps_rest self key w) as (Hc & Hup & _ & Hdb).
      apply get_depends_on_entry; auto.
Qed.

(** X7. The cache absorbs every failure of its store. With Redis down,
    [get] answers [None] and [set] and [delete] leave the world as it is;
    a [set] whose time-to-live in force is not positive stores nothing, so
    what was readable before still is; a payload that [json.loads] rejects
    reads as [None]; and [get] never changes anything. *)
Theorem store_failures_are_absorbed `{Json} cfg self key value ttl w :
  (get self key w).2 = w ∧
  (redis_up w = false →
     get self key w = (PNone, w) ∧
     set cfg self key value ttl w = w ∧
     delete self key w = w) ∧
  (py_or ttl (CACHE_TTL cfg) ≤ 0 → set cfg self key value ttl w = w) ∧
  (∀ payload expires_at,
     redis_db w !! key = Some (payload, expires_at) →
     json_loads payload = None →
     (get self key w).1 = PNone).
Proof.
  split; [apply get_world|]. split; [|split].
  - intros Hdown. unfold get, set, delete, redis_get, redis_setex, redis_delete.
    rewrite Hdown. by destruct (negb _ || negb _).
  - intros Httl. unfold set, redis_setex.
    destruct (negb _ || negb _); [done|]. destruct (redis_up w); [|done].
    by destruct (Z.leb_spec (py_or ttl (CACHE_TTL cfg)) 0); [|lia].
  - intros payload expires_at Hk Hbad. unfold get, redis_get.
    destruct (negb _ || negb _); [done|]. destruct (redis_up w); [|done].
    rewrite Hk. destruct (clock w <? expires_at); [|done]. simpl.
    destruct (negb _); [|done]. by rewrite Hbad.
Qed.

End CacheMore.

(** * More on the dependency client *)

Module ClientMore.
Import Client ClientFacts.

(** ** Cache keys *)

Lemma colon_free_app a b :
  colon_free (a +:+ b) = colon_free a && colon_free b.
Proof.
  induction a as [|c a IH]; simpl; [done|].
  rewrite IH. by destruct (negb _).
Qed.

Lemma pretty_N_char_colon_free x : Ascii.eqb (pretty_N_char x) ":"%char = false.
Proof. unfold pretty_N_char. by repeat case_match. Qed.

Lemma pretty_N_go_colon_free x s :
  colon_free s = true → colon_free (pretty_N_go x s) = true.
Proof.
  revert s. induction (N.lt_wf_0 x) as [x _ IH]; intros s Hs.
  assert (x = 0 ∨ 0 < x)%N as [->|Hpos] by lia.
  - by rewrite pretty_N_go_0.
  - rewrite pretty_N_go_step by done. apply IH.
    + by apply N.div_lt.
    + simpl. by rewrite pretty_N_char_colon_free, Hs.
Qed.

Lemma pretty_N_colon_free (x : N) : colon_free (pretty x) = true.
Proof.
  unfold pretty, pretty_N. case_decide; [done|].
  by apply pretty_N_go_colon_free.
Qed.

Lemma pretty_Z_colon_free (z : Z) : colon_free (pretty z) = true.
Proof.
  destruct z as [|p|p]; [done| |].
  - apply (pretty_N_colon_free (N.pos p)).
  - change (colon_free ("-" +:+ pretty (N.pos p)) = true).
    rewrite colon_free_app. by rewrite pretty_N_colon_free.
Qed.

(** A string is cut in one way only at its first colon. *)
Lemma split_at_colon a a' r r' :
  colon_free a = true → colon_free a' = true →
  a +:+ String ":" r = a' +:+ String ":" r' →
  a = a' ∧ r = r'.
Proof.
  revert a'. induction a as [|c a IH]; intros [|c' a'] Ha Ha' Heq;
    simpl in *; simplify_eq.
  - done.
  - apply andb_prop in Ha as [_ Ha]. apply andb_prop in Ha' as [_ Ha'].
    match goal with
    | Heq : _ +:+ _ = _ +:+ _ |- _ => by destruct (IH a' Ha Ha' Heq) as [-> ->]
    end.
Qed.

Lemma colon_free_no_colon a a' r :
  colon_free a = true → a ≠ a' +:+ String ":" r.
Proof.
  intros Ha ->. rewrite colon_free_app in Ha. simpl in Ha.
  by destruct (colon_free a').
Qed.

(** Peel equal literal prefixes off an equation between two keys, and cut
    at the colon that follows a printed number. *)
Ltac cut_keys :=
  repeat match goal with
  | H : Some _ = Some _ |- _ => injection H as H
  | H : String _ _ = String _ _ |- _ => first [discriminate H | injection H as H]
  | H : String _ _ = EmptyString |- _ => discriminate H
  | H : EmptyString = String _ _ |- _ => discriminate H
  | H : pretty _ +:+ String ":" _ = pretty _ +:+ String ":" _ |- _ =>
      apply split_at_colon in H as [? ?]; [|apply pretty_Z_colon_free..]
  | H : pretty _ = pretty _ +:+ String ":" _ |- _ =>
      exfalso; revert H; apply colon_free_no_colon, pretty_Z_colon_free
  | H : pretty _ +:+ String ":" _ = pretty _ |- _ =>
      exfalso; symmetry in H; revert H;
      apply colon_free_no_colon, pretty_Z_colon_free
  | H : @pretty Z _ _ = @pretty Z _ _ |- _ => apply (inj pretty) in H
  | H : context [EmptyString +:+ ?x] |- _ => change (EmptyString +:+ x) with x in H
  | H : context [String ?c ?r +:+ ?x] |- _ =>
      change (String c r +:+ x) with (String c (r +:+ x)) in H
  end; subst.

Lemma paged_params page region1 region2 :
  str_opt region1 = str_opt region2 →
  ("page", PInt page) :: region_params region1
    = ("page", PInt page) :: region_params region2 ∨
  (region_params region1 = [] ∧ region_params region2 = [("region", PStr "None")]) ∨
  (region_params region1 = [("region", PStr "None")] ∧ region_params region2 = []).
Proof.
  destruct region1 as [r1|], region2 as [r2|]; simpl; intros Heq; subst.
  - by left.
  - right. right. done.
  - right. left. done.
  - by left.
Qed.

(** X8. Cache keys across the client (the list, trending, details,
    credits, reviews, recommendations, similar, genres and person calls;
    the searches carry no key). Two cached calls that derive the same
    key go to the same endpoint, and they send the same parameters except
    in two cases: two detail requests for one movie (the include set is
    not in the key), and a list request without region against the same
    page with the region spelled "None". *)
Theorem same_key_same_request (c1 c2 : CachedCall) :
  cache_key (plan_of c1) = cache_key (plan_of c2) →
  method (plan_of c1) = method (plan_of c2) ∧
  endpoint (plan_of c1) = endpoint (plan_of c2) ∧
  (params (plan_of c1) = params (plan_of c2) ∨
   (∃ movie_id include1 include2,
      c1 = Details movie_id include1 ∧ c2 = Details movie_id include2) ∨
   (∃ page,
      (params (plan_of c1) = Some [("page", PInt page)] ∧
       params (plan_of c2) = Some [("page", PInt page); ("region", PStr "None")]) ∨
      (params (plan_of c1) = Some [("page", PInt page); ("region", PStr "None")] ∧
       params (plan_of c2) = Some [("page", PInt page)]))).
Proof.
  intros Hkey. split; [by destruct c1, c2|].
  destruct c1, c2; cbn [plan_of cache_key] in Hkey; unfold get_popular_movies,
    get_trending_movies, get_now_playing, get_upcoming_movies, get_top_rated,
    get_movie_details, get_movie_credits, get_movie_reviews,
    get_movie_recommendations, get_similar_movies, get_genres,
    get_person_details, get_person_movie_credits in *;
    cbn [cache_key endpoint params plan_of] in *;
    cut_keys; try done.
  all: try (split; [done|]).
  all: try (by left).
  all: try (right; left; by eauto).
  all: unfold get_popular_movies, get_now_playing, get_upcoming_movies,
         get_top_rated; cbn [params].
  all: match goal with
       | H : str_opt _ = str_opt _ |- _ =>
           destruct (paged_params page0 _ _ H) as [Heq|[[H1 H2]|[H1 H2]]]
       end.
  all: first [ left; by rewrite Heq
             | right; right; exists page0; left; by rewrite H1, H2
             | right; right; exists page0; right; by rewrite H1, H2 ].
Qed.

Lemma same_key_same_request_witness :
  cache_key (plan_of (Popular 1 None)) = Some "popular:movies:page1:regionNone" ∧
  cache_key (plan_of (Popular 1 (Some "None"))) = Some "popular:movies:page1:regionNone" ∧
  endpoint (plan_of (Popular 1 None)) = endpoint (plan_of (Popular 1 (Some "None"))) ∧
  ∃ page,
    params (plan_of (Popular 1 None)) = Some [("page", PInt page)] ∧
    params (plan_of (Popular 1 (Some "None"))) =
      Some [("page", PInt page); ("region", PStr "None")].
Proof.
  do 2 (split; [reflexivity|]).
  destruct (same_key_same_request (Popular 1 None) (Popular 1 (Some "None")) eq_refl)
    as (_ & Hendpoint & [Hparams|[(movie_id & i1 & i2 & Hc & _)|(page & [Hpage|[Hpage _]])]]);
    [discriminate Hparams|discriminate Hc| |discriminate Hpage].
  split; [exact Hendpoint|]. exists page. exact Hpage.
Defined.

(** ** Requests *)

Section WithJson.
Context `{Json}.

(** Without a usable cached value the request is the call through the
    breaker, followed by the write to the cache when the call returned. *)
Lemma make_request_miss cfg tmdb cache self method endpoint params cache_key w :
  cacheable method cache_key
    && truthy (Cache.get cache (default "" cache_key) w).1 = false →
  _make_request cfg tmdb cache self method endpoint params cache_key w =
    let '(r, cb, w2) :=
      Breaker.call cfg (circuit_breaker self)
        (_request tmdb self method endpoint params) w in
    match r with
    | Raise e => (Raise e, with_breaker cb self, w2)
    | Ok result =>
        (Ok result, with_breaker cb self,
         if cacheable method cache_key
         then Cache.set cfg cache (default "" cache_key) result None w2 else w2)
    end.
Proof.
  intros Hmiss. unfold _make_request.
  destruct (cacheable method cache_key) eqn:Hc.
  - pose proof (CacheFacts.get_world cache (default "" cache_key) w) as Hw.
    destruct (Cache.get cache (default "" cache_key) w) as [v w0].
    simpl in Hw, Hmiss. subst w0. by rewrite Hmiss.
  - done.
Qed.

Lemma request_world tmdb self method endpoint params w :
  (_request tmdb self method endpoint params w).2 =
    {| clock := (tmdb {| req_method := method;
                         req_url := base_url self +:+ endpoint;
                         req_params := params |} (clock w)).2;
       redis_up := redis_up w;
       redis_db := redis_db w;
       wire := {| req_method := method;
                  req_url := base_url self +:+ endpoint;
                  req_params := params |} :: wire w |} ∧
  (_request tmdb self method endpoint params w).1 =
    (tmdb {| req_method := method;
             req_url := base_url self +:+ endpoint;
             req_params := params |} (clock w)).1.
Proof. unfold _request. by destruct (tmdb _ _). Qed.

(** The call through the breaker either leaves the world alone or is the
    one run of [_request]. *)
Lemma call_request_world cfg cb tmdb self method endpoint params w :
  (Breaker.call cfg cb (_request tmdb self method endpoint params) w).2 = w ∨
  (Breaker.call cfg cb (_request tmdb self method endpoint params) w).2 =
    (_request tmdb self method endpoint params w).2.
Proof.
  unfold Breaker.call. destruct (negb _).
  - right. by destruct (_request _ _ _ _ _ _).
  - destruct (Breaker.enter cb (clock w)); [by left|].
    right. by destruct (_request _ _ _ _ _ _) as [[?|?] ?].
Qed.

End WithJson.

(** X9. One request, one attempt. Whatever happens, [_make_request] puts at
    most one request on the wire, the one for its own method, URL
    (base URL followed by the endpoint) and parameters; it never marks
    Redis up or down, and in Redis it touches no key but its own cache
    key. A request that is not a GET, or has no cache key, leaves Redis
    exactly as it was. *)
Theorem at_most_one_request `{Json} cfg tmdb cache self method endpoint params
    cache_key w :
  (wire (_make_request cfg tmdb cache self method endpoint params cache_key w).2
     = wire w ∨
   wire (_make_request cfg tmdb cache self method endpoint params cache_key w).2
     = {| req_method := method;
          req_url := base_url self +:+ endpoint;
          req_params := params |} :: wire w) ∧
  base_url (_make_request cfg tmdb cache self method endpoint params cache_key w).1.2
    = base_url self ∧
  redis_up (_make_request cfg tmdb cache self method endpoint params cache_key w).2
    = redis_up w ∧
  (∀ key, key ≠ default "" cache_key →
     redis_db (_make_request cfg tmdb cache self method endpoint params cache_key w).2
       !! key = redis_db w !! key) ∧
  (cacheable method cache_key = false →
     redis_db (_make_request cfg tmdb cache self method endpoint params cache_key w).2
       = redis_db w).
Proof.
  destruct (cacheable method cache_key
            && truthy (Cache.get cache (default "" cache_key) w).1) eqn:Hhit.
  - apply andb_prop in Hhit as [Hc Hv].
    unfold _make_request. rewrite Hc.
    pose proof (CacheFacts.get_world cache (default "" cache_key) w) as Hw.
    destruct (Cache.get cache (default "" cache_key) w) as [v w0].
    simpl in Hw, Hv. subst w0. rewrite Hv. simpl.
    split; [by left|]. do 3 (split; [done|]). congruence.
  - rewrite make_request_miss by done.
    pose proof (call_request_world cfg (circuit_breaker self) tmdb self
                  method endpoint params w) as Hcall.
    destruct (request_world tmdb self method endpoint params w) as [Hrw _].
    destruct (Breaker.call cfg (circuit_breaker self)
                (_request tmdb self method endpoint params) w) as [[r cb] w2].
    simpl in Hcall.
    assert (wire w2 = wire w ∨
            wire w2 = {| req_method := method;
                         req_url := base_url self +:+ endpoint;
                         req_params := params |} :: wire w) as Hwire.
    { destruct Hcall as [->| ->]; [by left|]. right. by rewrite Hrw. }
    assert (redis_up w2 = redis_up w ∧ redis_db w2 = redis_db w) as [Hup Hdb].
    { destruct Hcall as [->| ->]; [done|]. by rewrite Hrw. }
    destruct r as [result|e]; simpl; [|by rewrite Hdb].
    destruct (cacheable method cache_key) eqn:Hc.
    + destruct (CacheMore.set_keeps_rest cfg cache (default "" cache_key) result
                  None w2) as (_ & Hup' & Hwire' & Hdb').
      rewrite Hup', Hwire'. split; [done|]. split; [done|]. split; [done|].
      split; [|done]. intros key Hne. by rewrite Hdb', Hdb.
    + by rewrite Hdb.
Qed.

(** X10. While the circuit is open the client fails fast. With the breaker
    enabled, OPEN and inside its timeout, a request that finds no usable
    cached value raises [CircuitOpen]: nothing goes on the wire, Redis and the
    client stay as they are. *)
Theorem open_circuit_fails_fast `{Json} cfg tmdb cache self method endpoint params
    cache_key w t :
  CIRCUIT_BREAKER_ENABLED cfg = true →
  Breaker.state (circuit_breaker self) = Breaker.OPEN →
  Breaker.last_failure_time (circuit_breaker self) = Some t →
  clock w - t < Breaker.timeout (circuit_breaker self) →
  cacheable method cache_key
    && truthy (Cache.get cache (default "" cache_key) w).1 = false →
  _make_request cfg tmdb cache self method endpoint params cache_key w
  = (Raise (CircuitOpen (Breaker.name (circuit_breaker self))), self, w).
Proof.
  intros He Ho Ht Hwin Hmiss. rewrite make_request_miss by done.
  rewrite (BreakerFacts.call_rejected cfg _ _ w t) by done.
  by destruct self.
Qed.

Lemma open_circuit_fails_fast_witness :
  @_make_request Sample.scalar_json settings Sample.catalogue_down Sample.cache_on
    {| base_url := "https://api.themoviedb.org/3";
       circuit_breaker := Breaker.run Sample.breaker
                            [Breaker.Raised 1001; Breaker.Raised 1006] |}
    "GET" "/genre/movie/list" None (Some "genres:movies") (Sample.at_time 1030)
  = (Raise (CircuitOpen "tmdb-api"),
     {| base_url := "https://api.themoviedb.org/3";
        circuit_breaker := Breaker.run Sample.breaker
                             [Breaker.Raised 1001; Breaker.Raised 1006] |},
     Sample.at_time 1030).
Proof.
  apply (@open_circuit_fails_fast Sample.scalar_json settings Sample.catalogue_down
           Sample.cache_on
           {| base_url := "https://api.themoviedb.org/3";
              circuit_breaker := Breaker.run Sample.breaker
                                   [Breaker.Raised 1001; Breaker.Raised 1006] |}
           "GET" "/genre/movie/list" None (Some "genres:movies")
           (Sample.at_time 1030) 1006); reflexivity.
Defined.

(** X11. A failure of the catalogue is counted and not cached. With the
    breaker enabled and CLOSED and no usable cached value, a request whose
    catalogue call raises hands on that very exception, adds one failure
    to the breaker (with the time the call ended) and leaves Redis as it
    was. *)
Theorem failure_is_counted_not_cached `{Json} cfg tmdb cache self method endpoint
    params cache_key w e finished :
  CIRCUIT_BREAKER_ENABLED cfg = true →
  Breaker.state (circuit_breaker self) = Breaker.CLOSED →
  cacheable method cache_key
    && truthy (Cache.get cache (default "" cache_key) w).1 = false →
  tmdb {| req_method := method;
          req_url := base_url self +:+ endpoint;
          req_params := params |} (clock w) = (Raise e, finished) →
  _make_request cfg tmdb cache self method endpoint params cache_key w
  = (Raise e,
     with_breaker (Breaker.on_failure (circuit_breaker self) finished) self,
     {| clock := finished; redis_up := redis_up w; redis_db := redis_db w;
        wire := {| req_method := method;
                   req_url := base_url self +:+ endpoint;
                   req_params := params |} :: wire w |}).
Proof.
  intros He Hc Hmiss Htmdb. rewrite make_request_miss by done.
  unfold Breaker.call. rewrite He. simpl.
  rewrite BreakerFacts.enter_not_open by (by rewrite Hc).
  unfold _request. by rewrite Htmdb.
Qed.

Lemma failure_is_counted_not_cached_witness :
  @_make_request Sample.scalar_json settings Sample.catalogue_down Sample.cache_on
    (init settings) "GET" "/genre/movie/list" None (Some "genres:movies")
    (Sample.at_time 1000)
  = (Raise (DependencyError "503"),
     with_breaker (Breaker.on_failure (circuit_breaker (init settings)) 1001)
                  (init settings),
     {| clock := 1001; redis_up := true; redis_db := ∅;
        wire := [{| req_method := "GET";
                    req_url := "https://api.themoviedb.org/3/genre/movie/list";
                    req_params := None |}] |}).
Proof.
  apply (@failure_is_counted_not_cached Sample.scalar_json settings
           Sample.catalogue_down Sample.cache_on (init settings) "GET"
           "/genre/movie/list" None (Some "genres:movies") (Sample.at_time 1000)
           (DependencyError "503") 1001); reflexivity.
Defined.

(** A closed breaker hands a returning operation through and stays as it
    is, enabled or not. *)
Lemma closed_call_returns {A} cfg cb (func : Op A) w a w' :
  Breaker.state cb = Breaker.CLOSED →
  func w = (Ok a, w') →
  Breaker.call cfg cb func w = (Ok a, cb, w').
Proof.
  intros Hc Hf. unfold Breaker.call.
  rewrite BreakerFacts.enter_not_open by (by rewrite Hc). rewrite Hf.
  unfold Breaker.on_success. rewrite Hc. by destruct (negb _).
Qed.

(** X12. The cache saves the second call. With the cache on, Redis up and
    the breaker CLOSED, a GET request with a cache key that finds no usable
    cached value and is answered by the catalogue with a truthy [r]
    returns [r], has put exactly its own request on the wire and has stored
    [r]; the same request made again within [CACHE_TTL] of the answer
    returns [r] without a second request on the wire. *)
Theorem repeated_request_is_served_from_cache `{Json} cfg tmdb cache self endpoint
    params key w r finished now :
  key ≠ "" →
  Breaker.state (circuit_breaker self) = Breaker.CLOSED →
  Cache.enabled cache = true → Cache.redis_client cache = true →
  redis_up w = true →
  truthy (Cache.get cache key w).1 = false →
  tmdb {| req_method := "GET";
          req_url := base_url self +:+ endpoint;
          req_params := params |} (clock w) = (Ok r, finished) →
  truthy r = true →
  json_loads "" = None →
  json_loads (json_dumps r) = Some r →
  finished ≤ now < finished + CACHE_TTL cfg →
  ∃ w1,
    _make_request cfg tmdb cache self "GET" endpoint params (Some key) w
      = (Ok r, self, w1) ∧
    wire w1 = {| req_method := "GET";
                 req_url := base_url self +:+ endpoint;
                 req_params := params |} :: wire w ∧
    _make_request cfg tmdb cache self "GET" endpoint params (Some key)
      (with_clock now w1) = (Ok r, self, with_clock now w1).
Proof.
  intros Hkey Hst He Hc Hup Hmiss Htmdb Hr Hempty Hrt Hnow.
  assert (cacheable "GET" (Some key) = true) as Hcacheable.
  { unfold cacheable. simpl. by destruct (String.eqb_spec key ""). }
  set (rq := {| req_method := "GET"; req_url := base_url self +:+ endpoint;
                req_params := params |}) in *.
  set (w2 := {| clock := finished; redis_up := redis_up w; redis_db := redis_db w;
                wire := rq :: wire w |}).
  assert (_request tmdb self "GET" endpoint params w = (Ok r, w2)) as Hreq.
  { unfold _request. fold rq. by rewrite Htmdb. }
  exists (Cache.set cfg cache key r None w2). split; [|split].
  - rewrite make_request_miss by (simpl; by rewrite Hmiss, andb_false_r).
    rewrite (closed_call_returns cfg _ _ w r w2) by done.
    rewrite Hcacheable. simpl. by destruct self.
  - rewrite CacheFacts.set_stores; [done|done|done|done|simpl; lia].
  - apply make_request_hit; [done| |done].
    by apply (CacheFacts.get_after_set cfg cache key r None w2 now).
Qed.

Lemma repeated_request_is_served_from_cache_witness :
  ∃ w1,
    @_make_request Sample.scalar_json settings (fun _ sent => (Ok (PInt 28), sent + 1))
      Sample.cache_on (init settings) "GET" "/genre/movie/list" None
      (Some "genres:movies") (Sample.at_time 1000) = (Ok (PInt 28), init settings, w1) ∧
    length (wire w1) = 1%nat ∧
    @_make_request Sample.scalar_json settings (fun _ sent => (Ok (PInt 28), sent + 1))
      Sample.cache_on (init settings) "GET" "/genre/movie/list" None
      (Some "genres:movies") (with_clock 1200 w1)
      = (Ok (PInt 28), init settings, with_clock 1200 w1).
Proof.
  destruct (@repeated_request_is_served_from_cache Sample.scalar_json settings
              (fun _ sent => (Ok (PInt 28), sent + 1)) Sample.cache_on (init settings)
              "/genre/movie/list" None "genres:movies" (Sample.at_time 1000)
              (PInt 28) 1001 1200) as (w1 & H1 & H2 & H3);
    try reflexivity; try discriminate.
  - vm_compute. split; [discriminate|reflexivity].
  - exists w1. split; [exact H1|]. split; [by rewrite H2|exact H3].
Defined.

(** X13. With the cache off (disabled, or never connected) nothing is saved:
    the same request made twice on a closed breaker goes to the catalogue
    twice, each answer is handed back, and Redis is not touched. *)
Theorem cache_off_repeats_the_call `{Json} cfg tmdb cache self method endpoint params
    cache_key w r1 finished1 now r2 finished2 :
  Cache.enabled cache = false ∨ Cache.redis_client cache = false →
  Breaker.state (circuit_breaker self) = Breaker.CLOSED →
  tmdb {| req_method := method;
          req_url := base_url self +:+ endpoint;
          req_params := params |} (clock w) = (Ok r1, finished1) →
  tmdb {| req_method := method;
          req_url := base_url self +:+ endpoint;
          req_params := params |} now = (Ok r2, finished2) →
  ∃ w1 w2,
    _make_request cfg tmdb cache self method endpoint params cache_key w
      = (Ok r1, self, w1) ∧
    _make_request cfg tmdb cache self method endpoint params cache_key
      (with_clock now w1) = (Ok r2, self, w2) ∧
    wire w2 = {| req_method := method;
                 req_url := base_url self +:+ endpoint;
                 req_params := params |}
              :: {| req_method := method;
                    req_url := base_url self +:+ endpoint;
                    req_params := params |} :: wire w ∧
    redis_db w2 = redis_db w.
Proof.
  intros Hoff Hst Ht1 Ht2.
  set (rq := {| req_method := method; req_url := base_url self +:+ endpoint;
                req_params := params |}) in *.
  assert (∀ w0 r fin, tmdb rq (clock w0) = (Ok r, fin) →
            _make_request cfg tmdb cache self method endpoint params cache_key w0
            = (Ok r, self,
               {| clock := fin; redis_up := redis_up w0; redis_db := redis_db w0;
                  wire := rq :: wire w0 |})) as Hstep.
  { intros w0 r fin Ht.
    destruct (CacheFacts.disabled_cache cfg cache (default "" cache_key) r None w0 Hoff)
      as (Hget & _ & _).
    rewrite make_request_miss by (by rewrite Hget, andb_false_r).
    rewrite (closed_call_returns cfg _ _ w0 r
               {| clock := fin; redis_up := redis_up w0; redis_db := redis_db w0;
                  wire := rq :: wire w0 |}); [|done|].
    - destruct (CacheFacts.disabled_cache cfg cache (default "" cache_key) r None
                  {| clock := fin; redis_up := redis_up w0; redis_db := redis_db w0;
                     wire := rq :: wire w0 |} Hoff) as (_ & -> & _).
      destruct self. simpl. by destruct (cacheable method cache_key).
    - unfold _request. fold rq. by rewrite Ht. }
  eexists _, _. split; [by apply Hstep|]. split; [by apply Hstep|]. done.
Qed.

Lemma cache_off_repeats_the_call_witness :
  ∃ w1 w2,
    @_make_request Sample.scalar_json settings (fun _ sent => (Ok (PInt 28), sent + 1))
      (Cache.init settings) (init settings) "GET" "/genre/movie/list" None
      (Some "genres:movies") (Sample.at_time 1000) = (Ok (PInt 28), init settings, w1) ∧
    @_make_request Sample.scalar_json settings (fun _ sent => (Ok (PInt 28), sent + 1))
      (Cache.init settings) (init settings) "GET" "/genre/movie/list" None
      (Some "genres:movies") (with_clock 1200 w1) = (Ok (PInt 28), init settings, w2) ∧
    length (wire w2) = 2%nat.
Proof.
  destruct (@cache_off_repeats_the_call Sample.scalar_json settings
              (fun _ sent => (Ok (PInt 28), sent + 1)) (Cache.init settings)
              (init settings) "GET" "/genre/movie/list" None (Some "genres:movies")
              (Sample.at_time 1000) (PInt 28) 1001 1200 (PInt 28) 1201)
    as (w1 & w2 & H1 & H2 & H3 & _); try reflexivity.
  - by left.
  - exists w1, w2. split; [exact H1|]. split; [exact H2|]. by rewrite H3.
Defined.

End ClientMore.

(** * More on the aggregator *)

Module RouterMore.
Import PyDict PyDictFacts Router RouterFacts.

Lemma index_fold_None items : foldl index_step None items = None.
Proof. by induction items. Qed.

Lemma index_fold_bad items acc :
  Exists (fun item => has_movie_id item = false) items →
  foldl index_step (Some acc) items = None.
Proof.
  revert acc. induction items as [|item items IH]; intros acc Hex.
  - by apply Exists_nil in Hex.
  - simpl. unfold has_movie_id in Hex.
    apply Exists_cons in Hex as [Hbad|Hex].
    + destruct (dict_find "movie_id" item) as [movie_id|]; [|apply index_fold_None].
      destruct (as_scalar movie_id); [|apply index_fold_None].
      apply bool_decide_eq_false in Hbad. by destruct Hbad.
    + destruct (dict_find "movie_id" item) as [movie_id|]; [|apply index_fold_None].
      destruct (as_scalar movie_id); [|apply index_fold_None]. by apply IH.
Qed.

Lemma index_fold_good items acc :
  Forall (fun item => has_movie_id item = true) items →
  ∃ m, foldl index_step (Some acc) items = Some m ∧
       (length m ≤ length acc + length items)%nat ∧
       (NoDup acc.*1 → NoDup m.*1) ∧
       ∀ k, getitem k m =
            match last (List.filter (goes_under k) items) with
            | Some item => Some item
            | None => getitem k acc
            end.
Proof.
  revert acc. induction items as [|item items IH]; intros acc Hall.
  - exists acc. split; [done|]. split; [simpl; lia|]. by split.
  - apply Forall_cons in Hall as [Hitem Hall]. simpl.
    unfold has_movie_id in Hitem.
    destruct (dict_find "movie_id" item) as [movie_id|] eqn:Hfind; [|done].
    destruct (as_scalar movie_id) as [id|] eqn:Hid;
      [|apply bool_decide_eq_true in Hitem; by destruct Hitem].
    destruct (IH (setitem (key id) item acc) Hall) as (m & Hm & Hsize & Hnodup & Hlook).
    exists m. split; [done|]. split; [|split].
    + pose proof (length_setitem (key id) item acc). lia.
    + intros Hacc. by apply Hnodup, NoDup_setitem.
    + intros k. rewrite Hlook.
      assert (goes_under k item = bool_decide (key id = k)) as Hunder.
      { unfold goes_under. rewrite Hfind, Hid. simpl.
        apply eq_true_iff_eq. rewrite !bool_decide_eq_true. split; congruence. }
      rewrite Hunder. destruct (decide (key id = k)) as [<-|Hne].
      * rewrite bool_decide_eq_true_2 by done.
        rewrite last_cons, getitem_setitem_same.
        by destruct (last (List.filter (goes_under (key id)) items)).
      * rewrite bool_decide_eq_false_2 by done.
        by rewrite getitem_setitem_other.
Qed.

Lemma fetch_gives_up_on_bad_entry service w items w' :
  service w = (Ok {| favorites := Some items |}, w') →
  Exists (fun item => has_movie_id item = false) items →
  _fetch_user_favorites service w = (Ok [], w').
Proof.
  intros Hs Hbad. unfold _fetch_user_favorites, index_by_movie_id. rewrite Hs. simpl.
  by rewrite index_fold_bad.
Qed.

(** The fetchers of the router swallow every failure of the user service:
    they return the empty mapping and never raise. *)
Lemma fetch_user_favorites_never_raises service w :
  failed (_fetch_user_favorites service w).1 = false ∧
  (failed (service w).1 = true → (_fetch_user_favorites service w).1 = Ok []) ∧
  (_fetch_user_favorites service w).2 = (service w).2.
Proof.
  unfold _fetch_user_favorites. by destruct (service w) as [[items|e] w'].
Qed.

Lemma fetch_user_watchlist_never_raises service w :
  failed (_fetch_user_watchlist service w).1 = false ∧
  (failed (service w).1 = true → (_fetch_user_watchlist service w).1 = Ok []) ∧
  (_fetch_user_watchlist service w).2 = (service w).2.
Proof.
  unfold _fetch_user_watchlist. by destruct (service w) as [[items|e] w'].
Qed.

(** X14. The index of favourites is all or nothing. If one entry of the
    list has no ["movie_id"], or one that is a list or a dict,
    [_fetch_user_favorites] answers the empty mapping, as it does when the
    service raises. Otherwise the mapping binds each key once, to the last
    entry of the list that goes under it (ids are compared as Python
    compares them: a string or [None] is a key, and [True] is the key 1),
    binds nothing else, and has at most as many entries as the list. *)
Theorem fetch_indexes_all_or_nothing service w items w' :
  service w = (Ok {| favorites := Some items |}, w') →
  (Exists (fun item => has_movie_id item = false) items →
   _fetch_user_favorites service w = (Ok [], w')) ∧
  (Forall (fun item => has_movie_id item = true) items →
   ∃ m, _fetch_user_favorites service w = (Ok m, w') ∧
        (length m ≤ length items)%nat ∧
        NoDup m.*1 ∧
        ∀ k, getitem k m = last (List.filter (goes_under k) items)).
Proof.
  intros Hs. split; [by apply fetch_gives_up_on_bad_entry|].
  intros Hgood.
  destruct (index_fold_good items [] Hgood) as (m & Hm & Hsize & Hnodup & Hlook).
  exists m. split; [|split; [done|]].
  { unfold _fetch_user_favorites. rewrite Hs. cbn [favorites default]. unfold id.
    assert (index_by_movie_id items = Some m) as -> by exact Hm. done. }
  split; [apply Hnodup, NoDup_nil_2|].
  intros k. rewrite Hlook. by destruct (last (List.filter (goes_under k) items)).
Qed.

Lemma fetch_indexes_all_or_nothing_witness :
  ∃ m,
    _fetch_user_favorites
      (fun w => (Ok {| favorites :=
                         Some [[("movie_id", PInt 1); ("rating", PInt 3)];
                               [("movie_id", PStr "tt0137523")];
                               [("movie_id", PBool true); ("rating", PInt 5)]] |}, w))
      (Sample.at_time 1000)
    = (Ok m, Sample.at_time 1000) ∧
    getitem (HInt 1) m = Some [("movie_id", PBool true); ("rating", PInt 5)] ∧
    getitem (HStr "tt0137523") m = Some [("movie_id", PStr "tt0137523")].
Proof.
  destruct (fetch_indexes_all_or_nothing
              (fun w => (Ok {| favorites :=
                                 Some [[("movie_id", PInt 1); ("rating", PInt 3)];
                                       [("movie_id", PStr "tt0137523")];
                                       [("movie_id", PBool true); ("rating", PInt 5)]] |}, w))
              (Sample.at_time 1000) _ (Sample.at_time 1000) eq_refl)
    as [_ Hgood].
  destruct Hgood as (m & Hm & _ & _ & Hlook); [repeat constructor|].
  exists m. split; [exact Hm|]. by rewrite !Hlook.
Defined.

Section WithModels.
Context `{Models}.

(** X15. The feed over the router's own fetchers, on items the model
    accepts. When the favourites service raises, or one of its entries
    cannot be indexed (no ["movie_id"], or an unhashable one), the feed
    still answers with the catalogue's items, all of them and in the
    catalogue's order, and shows no favourites at all: the count is 0 and
    no movie is marked or rated. *)
Theorem feed_over_fetchers page pop favorites_service watchlist_service w p :
  keeps_typed_values →
  (pop page w).1 = Ok p →
  Forall (fun m => enrichable m = true) (default [] (results p)) →
  (failed (favorites_service (pop page w).2).1 = true ∨
   ∃ items,
     (favorites_service (pop page w).2).1 = Ok {| favorites := Some items |} ∧
     Exists (fun item => has_movie_id item = false) items) →
  ∃ feed,
    (get_personalized_feed page pop
       (_fetch_user_favorites favorites_service)
       (_fetch_user_watchlist watchlist_service) w).1 = Ok feed ∧
    map movie (movies feed) = default [] (results p) ∧
    current_page feed = page ∧
    favorites_count feed = 0%nat ∧
    Forall (fun e => is_favorite e = false ∧ user_rating e = None) (movies feed).
Proof.
  intros Hlaw Hp Hitems Hbad.
  destruct (feed_cases page pop (_fetch_user_favorites favorites_service)
              (_fetch_user_watchlist watchlist_service) w) as [_ Hr].
  rewrite Hr, Hp. clear Hr.
  assert ((_fetch_user_favorites favorites_service (pop page w).2).1 = Ok []) as ->.
  { destruct Hbad as [Hfail|(items & Hservice & Hex)].
    - by apply fetch_user_favorites_never_raises.
    - destruct (favorites_service (pop page w).2) as [r w'] eqn:Hs.
      simpl in Hservice. subst r.
      by rewrite (fetch_gives_up_on_bad_entry _ _ items w' Hs Hex). }
  cbn [or_empty].
  destruct (enrich_all_ok (default [] (results p)) []
              (or_empty (_fetch_user_watchlist watchlist_service
                 (_fetch_user_favorites favorites_service (pop page w).2).2).1)
              Hlaw Hitems typed_ratings_nil) as [enriched He].
  rewrite He. eexists. split; [done|]. simpl.
  split; [by apply enrich_all_items in He|]. do 2 (split; [done|]).
  by eapply enriched_without_favorites.
Qed.

(** X16. The enriched details, on details the model accepts and typed
    entries of the user. Cast and crew are the first 10 entries of the
    catalogue's lists and the similar movies the first 6, in the
    catalogue's order; without a ["credits"], ["similar"] or ["reviews"]
    object the lists are empty and the review count is 0. The user data say
    whether the id is bound in the favourites and in the watchlist, and
    carry the rating and the dates of the entries. But a favourite whose
    rating is an integer outside 1..5 makes the endpoint answer 500,
    whatever the catalogue answered. *)
Theorem details_cut_and_default movie_id get_details fav wl w d :
  let primary :=
    get_details movie_id ["credits"; "reviews"; "similar"; "recommendations"]%string w in
  let favorites := or_empty (fav primary.2).1 in
  let watchlist := or_empty (wl (fav primary.2).2).1 in
  let favorite := default [] (getitem (HInt movie_id) favorites) in
  let listed := default [] (getitem (HInt movie_id) watchlist) in
  keeps_typed_values →
  primary.1 = Ok d →
  (detailable d = true → typed_favorite favorite → typed_date listed →
   ∃ enriched,
     (get_enriched_movie_details movie_id get_details fav wl w).1 = Ok enriched ∧
     md_details enriched = details d ∧
     md_cast enriched = take 10 (default [] (c ← credits d; cast c)) ∧
     md_crew enriched = take 10 (default [] (c ← credits d; crew c)) ∧
     similar_movies enriched = take 6 (default [] (s ← similar d; results s)) ∧
     reviews_count enriched = default 0 (r ← reviews d; total_results r) ∧
     user_data enriched =
       {| ud_is_favorite := contains (HInt movie_id) favorites;
          ud_is_in_watchlist := contains (HInt movie_id) watchlist;
          ud_user_rating := int_rating (dict_get "rating" favorite);
          added_to_favorites_date := str_value (dict_get "added_date" favorite);
          added_to_watchlist_date := str_value (dict_get "added_date" listed) |}) ∧
  (∀ n, dict_get "rating" favorite = PInt n → ¬ 1 <= n <= 5 →
   ∃ detail,
     (get_enriched_movie_details movie_id get_details fav wl w).1
       = Raise (HTTPException 500 detail)).
Proof.
  intros primary favorites watchlist favorite listed Hlaw Hd.
  destruct (details_cases movie_id get_details fav wl w) as [_ Hr].
  fold primary favorites watchlist favorite listed in Hr. rewrite Hr, Hd. clear Hr.
  split.
  - intros Hdetails Hfavorite Hlisted.
    rewrite (user_data_ok _ _ _ _ Hlaw Hfavorite Hlisted). cbv zeta.
    pose proof (details_ok d) as Hok. cbv zeta in Hok. rewrite Hok by done.
    eexists. split; [done|]. simpl. by destruct (credits d).
  - intros n Hn Hrange. unfold new_UserMovieData. rewrite Hn.
    destruct Hlaw as (Hint & _). rewrite Hint.
    assert (one_to_five (Some n) = false) as Hout.
    { simpl. apply andb_false_iff.
      destruct (Z.leb_spec 1 n); [|by left]. destruct (Z.leb_spec n 5); [lia|by right]. }
    destruct (Optional_str _); [|by eexists].
    destruct (Optional_str _); [|by eexists].
    rewrite Hout. by eexists.
Qed.

(** X17. The complete dashboard, on items the model accepts and integer
    ratings. It shows the first 12 popular and the first 12 trending
    movies of the catalogue's lists, in the catalogue's order, and an
    empty list for a catalogue call that raised; the lists for
    recommendations and for what to continue are empty. *)
Theorem dashboard_lists_are_bounded pop trend fav wl w avg :
  let rp := (pop 1 w).1 in
  let rt := (trend "day" (pop 1 w).2).1 in
  let favorites := or_empty (fav (trend "day" (pop 1 w).2).2).1 in
  keeps_typed_values →
  Forall (fun m => enrichable m = true) (first_twelve rp) →
  Forall (fun m => enrichable m = true) (first_twelve rt) →
  typed_ratings favorites →
  compute_avg_rating favorites = Ok avg →
  ∃ feed,
    (get_complete_dashboard pop trend fav wl w).1 = Ok feed ∧
    map movie (popular_movies feed) =
      match rp with
      | Ok p => take 12 (default [] (results p))
      | Raise _ => []
      end ∧
    map movie (trending_movies feed) =
      match rt with
      | Ok p => take 12 (default [] (results p))
      | Raise _ => []
      end ∧
    (length (popular_movies feed) ≤ 12)%nat ∧
    (length (trending_movies feed) ≤ 12)%nat ∧
    recommended_for_you feed = [] ∧ continue_watching feed = [].
Proof.
  intros rp rt favorites Hlaw Hp Ht Htyped Havg.
  destruct (dashboard_cases pop trend fav wl w) as [_ Hr].
  fold rp rt favorites in Hr. rewrite Hr. clear Hr.
  set (watchlist := or_empty _).
  destruct (enrich_all_ok _ favorites watchlist Hlaw Hp Htyped) as [ep Hep].
  destruct (enrich_all_ok _ favorites watchlist Hlaw Ht Htyped) as [et Het].
  rewrite Hep, Het, Havg. eexists. split; [done|]. simpl.
  apply enrich_all_items in Hep, Het.
  assert (∀ r, (length (first_twelve r) ≤ 12)%nat) as Hlen.
  { intros [response|e]; simpl; [apply firstn_le_length|lia]. }
  split; [by rewrite Hep|]. split; [by rewrite Het|].
  split; [rewrite <- (length_map movie), Hep; apply Hlen|].
  split; [rewrite <- (length_map movie), Het; apply Hlen|done].
Qed.

End WithModels.

Lemma feed_over_fetchers_witness :
  ∃ feed,
    (@get_personalized_feed Sample.typed_models 1 Sample.popular_ok
       (_fetch_user_favorites (fun w => (Raise (DependencyError "down"), w)))
       (_fetch_user_watchlist (fun w => (Ok {| watchlist := None |}, w)))
       (Sample.at_time 1000)).1 = Ok feed ∧
    map movie (movies feed) = [Sample.fight_club_item; Sample.dark_knight_item] ∧
    favorites_count feed = 0%nat.
Proof.
  destruct (@feed_over_fetchers Sample.typed_models 1 Sample.popular_ok
              (fun w => (Raise (DependencyError "down"), w))
              (fun w => (Ok {| watchlist := None |}, w))
              (Sample.at_time 1000) Sample.popular_page
              sample_models_keep_typed_values eq_refl)
    as (feed & Hfeed & Hitems & _ & Hcount & _).
  - repeat constructor.
  - left. reflexivity.
  - exists feed. split; [exact Hfeed|]. split; [exact Hitems|exact Hcount].
Defined.

Lemma details_cut_and_default_witness :
  ∃ enriched,
    (@get_enriched_movie_details Sample.typed_models 550
       (fun _ _ w => (Ok {| details := Sample.fight_club_item; credits := None;
                            similar := None; reviews := None |}, w))
       (Sample.context_ok Sample.favorites) (Sample.context_ok Sample.watchlist)
       (Sample.at_time 1000)).1 = Ok enriched ∧
    md_cast enriched = [] ∧ reviews_count enriched = 0 ∧
    ud_is_favorite (user_data enriched) = true ∧
    ud_user_rating (user_data enriched) = Some 5.
Proof.
  destruct (@details_cut_and_default Sample.typed_models 550
       (fun _ _ w => (Ok {| details := Sample.fight_club_item; credits := None;
                            similar := None; reviews := None |}, w))
       (Sample.context_ok Sample.favorites) (Sample.context_ok Sample.watchlist)
       (Sample.at_time 1000) _ sample_models_keep_typed_values eq_refl)
    as [Hok _].
  destruct Hok as (enriched & He & _ & Hcast & _ & _ & Hreviews & Hdata).
  - reflexivity.
  - split; [right; exists 5; by split|by left].
  - by left.
  - exists enriched. split; [exact He|]. split; [exact Hcast|].
    split; [exact Hreviews|]. by rewrite Hdata.
Defined.

Lemma dashboard_lists_are_bounded_witness :
  ∃ feed,
    (@get_complete_dashboard Sample.typed_models Sample.popular_ok Sample.trending_ok
       (Sample.context_ok Sample.favorites) (Sample.context_ok Sample.watchlist)
       (Sample.at_time 1000)).1 = Ok feed ∧
    map movie (popular_movies feed) = [Sample.fight_club_item; Sample.dark_knight_item].
Proof.
  destruct (@dashboard_lists_are_bounded Sample.typed_models Sample.popular_ok
              Sample.trending_ok (Sample.context_ok Sample.favorites)
              (Sample.context_ok Sample.watchlist) (Sample.at_time 1000) (Some 5%Q)
              sample_models_keep_typed_values)
    as (feed & Hfeed & Hpopular & _).
  - repeat constructor.
  - repeat constructor.
  - constructor; [right; by exists 5|constructor].
  - by vm_compute.
  - exists feed. split; [exact Hfeed|exact Hpopular].
Defined.

(** A rating of 10 is shown by the feed and refused by the details. *)
Example details_refuse_rating_out_of_range :
  ∃ detail,
    (@get_enriched_movie_details Sample.typed_models 550
       (fun _ _ w => (Ok {| details := Sample.fight_club_item; credits := None;
                            similar := None; reviews := None |}, w))
       (Sample.context_ok [(HInt 550, [("rating", PInt 10)])])
       (Sample.context_ok []) (Sample.at_time 1000)).1
    = Raise (HTTPException 500 detail).
Proof. eexists. by vm_compute. Qed.

End RouterMore.

(** * Strings, the CORS validator and authentication *)

Module PyStrFacts.
Import PyStr.

Lemma startswith_app prefix s :
  startswith prefix s = true ↔ ∃ rest, s = prefix +:+ rest.
Proof.
  unfold startswith. revert s.
  induction prefix as [|c prefix IH]; intros s.
  - split; [|by destruct s]. intros _. by exists s.
  - destruct s as [|c' s]; simpl.
    + split; [done|]. by intros [rest ?].
    + destruct (ascii_dec c c') as [->|Hne].
      * rewrite IH. split; intros [rest Hrest]; exists rest.
        -- by rewrite Hrest.
        -- change (String c' s = String c' (prefix +:+ rest)) in Hrest.
           by simplify_eq.
      * split; [done|]. intros [rest Hrest].
        change (String c' s = String c (prefix +:+ rest)) in Hrest.
        by simplify_eq.
Qed.

Lemma split_nonempty sep s : split sep s ≠ [].
Proof.
  destruct s as [|c s]; simpl; [done|].
  destruct (Ascii.eqb c sep); [done|]. by destruct (split sep s).
Qed.

Lemma split_free sep s : free_of sep s = true → split sep s = [s].
Proof.
  induction s as [|c s IH]; simpl; [done|].
  destruct (Ascii.eqb c sep); simpl; [done|]. intros Hs. by rewrite IH.
Qed.

Lemma split_app_sep sep a rest :
  free_of sep a = true →
  split sep (a +:+ String sep rest) = a :: split sep rest.
Proof.
  induction a as [|c a IH]; simpl.
  - by rewrite Ascii.eqb_refl.
  - destruct (Ascii.eqb c sep); simpl; [done|]. intros Ha. by rewrite IH.
Qed.

Lemma split_pieces_free sep s :
  Forall (fun piece => free_of sep piece = true) (split sep s).
Proof.
  induction s as [|c s IH]; simpl; [by repeat constructor|].
  destruct (Ascii.eqb c sep) eqn:Hc; [by constructor|].
  destruct (split sep s) as [|piece pieces]; [by repeat constructor; simpl; rewrite Hc|].
  apply Forall_cons in IH as [Hpiece Hpieces].
  constructor; [|done]. simpl. by rewrite Hc.
Qed.

Lemma split_length sep s : length (split sep s) = S (occurrences sep s).
Proof.
  induction s as [|c s IH]; simpl; [done|].
  destruct (Ascii.eqb c sep); simpl; [by rewrite IH|].
  pose proof (split_nonempty sep s).
  destruct (split sep s); simpl in *; [done|lia].
Qed.

Lemma rstrip_fixed_cons c s :
  rstrip (String c s) = String c s → is_space c = true → rstrip s = s ∧ s ≠ "".
Proof.
  simpl. intros Hfix Hc. rewrite Hc in Hfix.
  destruct (rstrip s) as [|c' kept] eqn:Hr; [done|].
  by simplify_eq.
Qed.

Lemma rstrip_idemp s : rstrip (rstrip s) = rstrip s.
Proof.
  induction s as [|c s IH]; simpl; [done|].
  destruct (rstrip s) as [|c' kept] eqn:Hr.
  - destruct (is_space c) eqn:Hc; simpl; [done|]. by rewrite Hc.
  - simpl. simpl in IH.
    destruct (rstrip kept) as [|c'' kept'] eqn:Hk.
    + destruct (is_space c'); simplify_eq; done.
    + by simplify_eq.
Qed.

Lemma lstrip_idemp s : lstrip (lstrip s) = lstrip s.
Proof.
  induction s as [|c s IH]; simpl; [done|].
  destruct (is_space c) eqn:Hc; [done|]. simpl. by rewrite Hc.
Qed.

Lemma rstrip_lstrip s : rstrip s = s → rstrip (lstrip s) = lstrip s.
Proof.
  induction s as [|c s IH]; [done|]. intros Hfix.
  cbn [lstrip]. destruct (is_space c) eqn:Hc; [|done].
  apply IH. by apply (rstrip_fixed_cons c s).
Qed.

Lemma strip_idemp s : strip (strip s) = strip s.
Proof.
  unfold strip.
  rewrite (rstrip_lstrip (rstrip s)) by apply rstrip_idemp.
  apply lstrip_idemp.
Qed.

Lemma lstrip_free c s : free_of c s = true → free_of c (lstrip s) = true.
Proof.
  induction s as [|c' s IH]; simpl; [done|].
  destruct (is_space c'); [|done]. intros Hs. apply IH.
  by apply andb_prop in Hs as [_ ?].
Qed.

Lemma rstrip_free c s : free_of c s = true → free_of c (rstrip s) = true.
Proof.
  induction s as [|c' s IH]; simpl; [done|]. intros Hs.
  apply andb_prop in Hs as [Hc Hs]. specialize (IH Hs).
  destruct (rstrip s) as [|c'' kept].
  - destruct (is_space c'); simpl; [done|]. by rewrite Hc.
  - simpl in *. by rewrite Hc, IH.
Qed.

Lemma strip_free c s : free_of c s = true → free_of c (strip s) = true.
Proof. intros Hs. by apply lstrip_free, rstrip_free. Qed.

End PyStrFacts.

Module ConfigFacts.
Import PyStr PyStrFacts Config.

Lemma split_join origins :
  origins ≠ [] →
  Forall (fun o => free_of ","%char o = true) origins →
  split ","%char (Client.join_comma origins) = origins.
Proof.
  induction origins as [|o origins IH]; [done|]. intros _ Hall.
  apply Forall_cons in Hall as [Ho Hall].
  destruct origins as [|o' origins].
  - simpl. by apply split_free.
  - change (Client.join_comma (o :: o' :: origins))
      with (o +:+ String ","%char (Client.join_comma (o' :: origins))).
    rewrite split_app_sep by done. by rewrite IH.
Qed.

(** X18. [CORS_ORIGINS] given as a string is cut at its commas and every
    piece is stripped: there is one origin more than there are commas
    (the empty string gives one empty origin, not an empty list), and no
    origin has a comma or surrounding white space left. A list is taken as
    it is. Writing a non-empty list of origins, each free of commas and of
    surrounding white space, as one comma-separated string and parsing it
    gives the list back. *)
Theorem cors_origins_round_trip origins v given :
  (origins ≠ [] →
   Forall (fun o => free_of ","%char o = true ∧ strip o = o) origins →
   parse_cors_origins (CorsStr (Client.join_comma origins)) = origins) ∧
  parse_cors_origins (CorsList given) = given ∧
  parse_cors_origins (CorsStr "") = [""] ∧
  parse_cors_origins (CorsStr v) = map strip (split ","%char v) ∧
  length (parse_cors_origins (CorsStr v)) = S (occurrences ","%char v) ∧
  Forall (fun o => free_of ","%char o = true ∧ strip o = o)
         (parse_cors_origins (CorsStr v)).
Proof.
  split; [|split; [done|split; [done|split; [done|split]]]].
  - intros Hne Hall. simpl. rewrite split_join; [|done|].
    + clear Hne. induction Hall as [|o origins [_ Ho] _ IH]; simpl; [done|].
      by rewrite Ho, IH.
    + eapply Forall_impl; [exact Hall|]. by intros o [? _].
  - simpl. by rewrite length_map, split_length.
  - simpl. apply Forall_map.
    eapply Forall_impl; [apply (split_pieces_free ","%char v)|].
    intros piece Hfree. simpl. split; [by apply strip_free|apply strip_idemp].
Qed.

Lemma cors_origins_round_trip_witness :
  parse_cors_origins (CorsStr "http://localhost:3000,http://localhost:8080")
  = ["http://localhost:3000"; "http://localhost:8080"].
Proof.
  apply (cors_origins_round_trip ["http://localhost:3000"; "http://localhost:8080"] "" []).
  - discriminate.
  - repeat constructor.
Defined.

Example cors_origins_with_spaces :
  parse_cors_origins (CorsStr "http://a.example , http://b.example,")
  = ["http://a.example"; "http://b.example"; ""].
Proof. reflexivity. Qed.

End ConfigFacts.

Module AuthFacts.
Import PyStr PyStrFacts Auth.

Lemma bearer_header authorization :
  is_bearer authorization = true ↔
  ∃ rest, authorization = Some ("Bearer " +:+ rest).
Proof.
  unfold is_bearer. destruct authorization as [h|].
  - rewrite andb_true_iff, startswith_app. split.
    + intros [_ [rest ->]]. by exists rest.
    + intros [rest [= ->]]. split; [done|]. by exists rest.
  - split; [done|]. by intros [rest ?].
Qed.

(** After the prefix the token is the text up to the next space. *)
Lemma bearer_token rest :
  split " "%char ("Bearer " +:+ rest) !! 1%nat = Some (hd "" (split " "%char rest)).
Proof.
  change ("Bearer " +:+ rest) with ("Bearer" +:+ String " "%char rest).
  rewrite split_app_sep by done. simpl.
  pose proof (split_nonempty " "%char rest).
  by destruct (split " "%char rest).
Qed.

(** X19. [get_current_user] answers the anonymous identity "demo-user-123"
    for every header that is missing, empty or does not start with
    "Bearer "; the subscript on the split header never raises. For a
    header "Bearer " followed by [rest], the token is [rest] up to its
    first space: if it decodes to claims with a ["sub"] other than [None]
    that is the user, and in every other case the answer is 401. So a
    bearer header is never answered with [None] as the user, and with the
    anonymous identity only if some token's claims name it. *)
Theorem current_user_policy jwt_decode authorization :
  get_current_user jwt_decode authorization ≠ IndexError ∧
  (is_bearer authorization = false →
   get_current_user jwt_decode authorization = Granted (PStr "demo-user-123")) ∧
  (∀ rest, authorization = Some ("Bearer " +:+ rest) →
     get_current_user jwt_decode authorization =
       match jwt_decode (hd "" (split " "%char rest)) with
       | Some payload =>
           match dict_get "sub" payload with
           | PNone => Denied 401 "Invalid authentication credentials"
           | user_id => Granted user_id
           end
       | None => Denied 401 "Invalid authentication credentials"
       end) ∧
  (is_bearer authorization = true →
   get_current_user jwt_decode authorization ≠ Granted PNone ∧
   (get_current_user jwt_decode authorization ≠ Granted (PStr "demo-user-123") ∨
    ∃ token payload, jwt_decode token = Some payload ∧
                     dict_get "sub" payload = PStr "demo-user-123")).
Proof.
  assert (∀ rest, authorization = Some ("Bearer " +:+ rest) →
     get_current_user jwt_decode authorization =
       match jwt_decode (hd "" (split " "%char rest)) with
       | Some payload =>
           match dict_get "sub" payload with
           | PNone => Denied 401 "Invalid authentication credentials"
           | user_id => Granted user_id
           end
       | None => Denied 401 "Invalid authentication credentials"
       end) as Hbearer.
  { intros rest ->. unfold get_current_user.
    assert (is_bearer (Some ("Bearer " +:+ rest)) = true) as ->
      by (apply bearer_header; by exists rest).
    cbn [default from_option id]. by rewrite bearer_token. }
  split; [|split; [|split; [done|]]].
  - destruct (is_bearer authorization) eqn:Hb.
    + apply bearer_header in Hb as [rest Hrest]. rewrite (Hbearer rest Hrest).
      destruct (jwt_decode _) as [payload|]; [|done].
      by destruct (dict_get "sub" payload).
    + unfold get_current_user. by rewrite Hb.
  - intros Hb. unfold get_current_user. by rewrite Hb.
  - intros Hb. apply bearer_header in Hb as [rest Hrest].
    rewrite (Hbearer rest Hrest).
    destruct (jwt_decode (hd "" (split " "%char rest))) as [payload|] eqn:Hd;
      [|by split; [|left]].
    destruct (dict_get "sub" payload) as [| | |sub| |] eqn:Hsub;
      try by split; [|left].
    split; [done|]. destruct (decide (sub = "demo-user-123")) as [->|Hne].
    + right. by eauto.
    + left. by intros [= ?].
Qed.

(** X20. [AuthMiddleware.dispatch] lets a request through to the application
    in two cases only: its path starts with one of the public prefixes
    (then the header is not looked at), or its header is "Bearer "
    followed by a token that decodes, and then the application sees the
    claims and their ["sub"] in the request state. Every other request is
    answered 401 whatever the application is; the subscript on the split
    header never raises. Any path that merely begins like a public one,
    such as "/health" followed by anything, is public. *)
Theorem protected_routes_need_a_token {Response} jwt_decode request
    (call_next : Request → Response) :
  dispatch jwt_decode request call_next ≠ IndexError ∧
  (is_public (path request) = true →
   dispatch jwt_decode request call_next = Granted (call_next request)) ∧
  (is_public (path request) = false →
   ∀ response, dispatch jwt_decode request call_next = Granted response →
     ∃ rest payload,
       authorization request = Some ("Bearer " +:+ rest) ∧
       jwt_decode (hd "" (split " "%char rest)) = Some payload ∧
       response = call_next {| path := path request;
                               authorization := authorization request;
                               state_user_id := dict_get "sub" payload;
                               state_user := Some payload |}) ∧
  (is_public (path request) = false →
   is_bearer (authorization request) = false →
   dispatch jwt_decode request call_next
     = Denied 401 "Missing or invalid authorization header") ∧
  (is_public (path request) = false →
   ∀ rest, authorization request = Some ("Bearer " +:+ rest) →
     dispatch jwt_decode request call_next =
       match jwt_decode (hd "" (split " "%char rest)) with
       | Some payload =>
           Granted (call_next {| path := path request;
                                 authorization := authorization request;
                                 state_user_id := dict_get "sub" payload;
                                 state_user := Some payload |})
       | None => Denied 401 "Invalid authentication credentials"
       end) ∧
  (is_public (path request) = false →
   (∀ response, dispatch jwt_decode request call_next ≠ Granted response) →
   ∃ detail, dispatch jwt_decode request call_next = Denied 401 detail) ∧
  (∀ suffix,
     is_public ("/health" +:+ suffix) = true ∧ is_public ("/docs" +:+ suffix) = true ∧
     is_public ("/redoc" +:+ suffix) = true ∧
     is_public ("/openapi.json" +:+ suffix) = true).
Proof.
  assert (is_public (path request) = false →
          ∀ rest, authorization request = Some ("Bearer " +:+ rest) →
          dispatch jwt_decode request call_next =
            match jwt_decode (hd "" (split " "%char rest)) with
            | Some payload =>
                Granted (call_next {| path := path request;
                                      authorization := authorization request;
                                      state_user_id := dict_get "sub" payload;
                                      state_user := Some payload |})
            | None => Denied 401 "Invalid authentication credentials"
            end) as Hbearer.
  { intros Hpriv rest Hrest. unfold dispatch. rewrite Hpriv.
    assert (is_bearer (authorization request) = true) as ->
      by (apply bearer_header; by exists rest).
    rewrite Hrest. cbn [negb default from_option id]. by rewrite bearer_token. }
  split; [|split; [|split; [|split; [|split; [|split]]]]].
  - destruct (is_public (path request)) eqn:Hpub.
    + unfold dispatch. by rewrite Hpub.
    + destruct (is_bearer (authorization request)) eqn:Hb.
      * apply bearer_header in Hb as [rest Hrest].
        rewrite (Hbearer eq_refl rest Hrest). by destruct (jwt_decode _).
      * unfold dispatch. by rewrite Hpub, Hb.
  - intros Hpub. unfold dispatch. by rewrite Hpub.
  - intros Hpriv response Hgranted.
    destruct (is_bearer (authorization request)) eqn:Hb.
    + apply bearer_header in Hb as [rest Hrest].
      rewrite (Hbearer Hpriv rest Hrest) in Hgranted.
      destruct (jwt_decode _) as [payload|] eqn:Hd; [|done].
      exists rest, payload. by simplify_eq.
    + unfold dispatch in Hgranted. by rewrite Hpriv, Hb in Hgranted.
  - intros Hpriv Hb. unfold dispatch. by rewrite Hpriv, Hb.
  - done.
  - intros Hpriv Hrefused.
    destruct (is_bearer (authorization request)) eqn:Hb.
    + apply bearer_header in Hb as [rest Hrest].
      rewrite (Hbearer Hpriv rest Hrest) in Hrefused |- *.
      destruct (jwt_decode _); [by edestruct Hrefused|by eauto].
    + unfold dispatch. rewrite Hpriv, Hb. by eauto.
  - intros suffix.
    assert (∀ p, In p PUBLIC_PATHS → is_public (p +:+ suffix) = true) as Hp.
    { intros p Hin. apply existsb_exists. exists p. split; [done|].
      apply startswith_app. by exists suffix. }
    repeat split; apply Hp; simpl; tauto.
Qed.

End AuthFacts.

Module UserServiceFacts.
Import UserService PyDictFacts.

Lemma keyed_nil : keyed [].
Proof. split; [apply NoDup_nil_2|apply Forall_nil_2]. Qed.

Lemma keyed_pop k st : keyed st → keyed (pop k st).
Proof.
  intros [Hnodup Hall]. split.
  - eapply sublist_NoDup; [exact Hnodup|]. apply fmap_sublist, pop_sublist.
  - rewrite Forall_forall in Hall |- *. intros entry Hin. apply Hall.
    eapply elem_of_sublist; [exact Hin|apply pop_sublist].
Qed.

Lemma keyed_add k v st :
  keyed st → contains k st = false → filed (k, v) → keyed (setitem k v st).
Proof.
  intros [Hnodup Hall] Habsent Hkey. rewrite setitem_new by done. split.
  - rewrite fmap_app. apply NoDup_app. split; [done|]. split.
    + intros k' Hin ->%list_elem_of_singleton.
      unfold contains in Habsent. by rewrite bool_decide_eq_false in Habsent.
    + apply NoDup_singleton.
  - apply Forall_app. split; [done|]. by apply Forall_singleton.
Qed.

Lemma load_samples_ok :
  load_samples =
    ({| favorites_store := map (fun item => (HInt (match dict_get "movie_id" item with
                                                    | PInt n => n | _ => 0 end), item))
                               SAMPLE_FAVORITES;
        watchlist_store := map (fun item => (HInt (match dict_get "movie_id" item with
                                                    | PInt n => n | _ => 0 end), item))
                               SAMPLE_WATCHLIST |}, true).
Proof. reflexivity. Qed.

Lemma keyed_startup : keyed (favorites_store startup) ∧ keyed (watchlist_store startup).
Proof.
  unfold startup. rewrite load_samples_ok.
  split; (split; [by apply (bool_decide_unpack _); vm_compute|repeat constructor]).
Qed.

Lemma keyed_handle r s :
  keyed (favorites_store s) → keyed (watchlist_store s) →
  keyed (favorites_store (handle r s).2) ∧ keyed (watchlist_store (handle r s).2).
Proof.
  intros Hfav Hwl. destruct r; simpl; try done.
  - unfold add_favorite.
    destruct (truthy (dict_get "movie_id" payload)) eqn:Htruthy; [|done]. simpl.
    destruct (as_scalar (dict_get "movie_id" payload)) as [id|] eqn:Hid; [|done].
    destruct (contains (key id) (favorites_store s)) eqn:Hin; [done|].
    simpl. split; [|done]. apply keyed_add; [done|done|].
    split; cbn [snd fst dict_get String.eqb Ascii.eqb Bool.eqb]; [done|by rewrite Hid].
  - unfold delete_favorite.
    destruct (contains (HInt movie_id) (favorites_store s)); [|done]. simpl.
    destruct (getitem (HInt movie_id) (favorites_store s)); [|done].
    simpl. split; [by apply keyed_pop|done].
  - unfold get_favorite.
    destruct (contains (HInt movie_id) (favorites_store s)); [|done]. simpl.
    by destruct (getitem (HInt movie_id) (favorites_store s)).
  - unfold add_to_watchlist.
    destruct (truthy (dict_get "movie_id" payload)) eqn:Htruthy; [|done]. simpl.
    destruct (as_scalar (dict_get "movie_id" payload)) as [id|] eqn:Hid; [|done].
    destruct (contains (key id) (watchlist_store s)) eqn:Hin; [done|].
    simpl. split; [done|]. apply keyed_add; [done|done|].
    split; cbn [snd fst dict_get String.eqb Ascii.eqb Bool.eqb]; [done|by rewrite Hid].
  - unfold delete_from_watchlist.
    destruct (contains (HInt movie_id) (watchlist_store s)); [|done]. simpl.
    destruct (getitem (HInt movie_id) (watchlist_store s)); [|done].
    simpl. split; [done|by apply keyed_pop].
  - unfold get_watchlist_item.
    destruct (contains (HInt movie_id) (watchlist_store s)); [|done]. simpl.
    by destruct (getitem (HInt movie_id) (watchlist_store s)).
  - apply keyed_startup.
  - split; apply keyed_nil.
Qed.

Lemma keyed_serve requests s :
  keyed (favorites_store s) → keyed (watchlist_store s) →
  keyed (favorites_store (serve requests s)) ∧ keyed (watchlist_store (serve requests s)).
Proof.
  revert s. induction requests as [|r requests IH]; intros s Hfav Hwl; [done|].
  simpl. destruct (keyed_handle r s Hfav Hwl). by apply IH.
Qed.

(** Which ["movie_id"] an entry filed under an integer key can carry. *)
Lemma filed_under_int n item :
  filed (HInt n, item) →
  dict_get "movie_id" item = PInt n ∨ (n = 1 ∧ dict_get "movie_id" item = PBool true).
Proof.
  intros [Htruthy Hkey]. simpl in *.
  destruct (dict_get "movie_id" item) as [|[]| | | |]; simpl in *; simplify_eq; eauto.
Qed.

Lemma keyed_getitem k st v : keyed st → getitem k st = Some v → filed (k, v).
Proof.
  intros [_ Hall] Hget%getitem_elem. rewrite Forall_forall in Hall. by apply Hall.
Qed.

(** X21. Whatever requests the service has answered since start-up, each of
    its two dicts binds every key once and holds every entry under the key
    of the entry's own truthy ["movie_id"]. So [GET /favorites/{id}] and
    [GET /watchlist/{id}] never fail on the subscript: they answer 404, or
    an entry of the store whose ["movie_id"] is that id (for the id 1
    possibly [True], which is the same key). *)
Theorem stores_stay_keyed requests :
  let s := serve requests startup in
  keyed (favorites_store s) ∧ keyed (watchlist_store s) ∧
  (∀ n, match (get_favorite n s).1 with
        | Json favorite =>
            favorite ∈ values (favorites_store s) ∧
            (dict_get "movie_id" favorite = PInt n ∨
             n = 1 ∧ dict_get "movie_id" favorite = PBool true)
        | HTTPError status_code _ =>
            status_code = 404 ∧ contains (HInt n) (favorites_store s) = false
        | Unhandled _ => False
        end) ∧
  (∀ n, match (get_watchlist_item n s).1 with
        | Json item =>
            item ∈ values (watchlist_store s) ∧
            (dict_get "movie_id" item = PInt n ∨
             n = 1 ∧ dict_get "movie_id" item = PBool true)
        | HTTPError status_code _ =>
            status_code = 404 ∧ contains (HInt n) (watchlist_store s) = false
        | Unhandled _ => False
        end).
Proof.
  intros s.
  destruct (keyed_serve requests startup) as [Hfav Hwl]; [apply keyed_startup..|].
  fold s in Hfav, Hwl. do 2 (split; [done|]).
  assert (∀ st n, keyed st →
            match getitem (HInt n) st with
            | Some item =>
                contains (HInt n) st = true ∧ item ∈ values st ∧
                (dict_get "movie_id" item = PInt n ∨
                 n = 1 ∧ dict_get "movie_id" item = PBool true)
            | None => contains (HInt n) st = false
            end) as Hlookup.
  { intros st n Hkeyed. destruct (getitem (HInt n) st) as [item|] eqn:Hget.
    - split; [apply contains_getitem; by rewrite Hget|]. split.
      + apply getitem_elem in Hget. unfold values.
        apply list_elem_of_fmap. by exists (HInt n, item).
      + by apply filed_under_int, (keyed_getitem _ st).
    - by apply absent_getitem. }
  split; intros n.
  - unfold get_favorite. specialize (Hlookup (favorites_store s) n Hfav).
    destruct (getitem (HInt n) (favorites_store s)) as [item|].
    + destruct Hlookup as (-> & ? & ?). done.
    + by rewrite Hlookup.
  - unfold get_watchlist_item. specialize (Hlookup (watchlist_store s) n Hwl).
    destruct (getitem (HInt n) (watchlist_store s)) as [item|].
    + destruct Hlookup as (-> & ? & ?). done.
    + by rewrite Hlookup.
Qed.

(** What [in], the subscript and [pop] see after a new key was bound. *)
Lemma bound_last k v st :
  contains k st = false →
  contains k (setitem k v st) = true ∧
  getitem k (setitem k v st) = Some v ∧
  pop k (setitem k v st) = st ∧
  values (setitem k v st) = values st ++ [v] ∧
  (∀ k', k' ≠ k → contains k' (setitem k v st) = contains k' st ∧
                  getitem k' (setitem k v st) = getitem k' st).
Proof.
  intros Habsent. rewrite setitem_new by done.
  pose proof (proj1 (absent_getitem k st) Habsent) as Hnone.
  split; [|split; [|split; [|split]]].
  - rewrite contains_app, Habsent. simpl. by apply bool_decide_eq_true.
  - rewrite getitem_app, Hnone. by destruct (decide (k = k)).
  - by apply pop_app_new.
  - unfold values. by rewrite fmap_app.
  - intros k' Hne. split.
    + rewrite contains_app. rewrite (bool_decide_eq_false_2 (k = k')) by done.
      by rewrite orb_false_r.
    + rewrite getitem_app. destruct (getitem k' st); [done|].
      by destruct (decide (k = k')).
Qed.

(** X22. A favorite posted with a non-zero integer id that is not yet in the
    store is accepted: the entry carries the id, the payload's rating, the
    posting time and the payload's title (["Movie <id>"] when it has none);
    it is what [GET /favorites/{id}] then returns and the last element
    of [GET /favorites]; the other ids and the watchlist are as before.
    Posting the id again is refused with 409 whatever the new payload, and
    deleting the id gives back the entry and the stores as they were. *)
Theorem added_favorite_is_stored payload now s n :
  dict_get "movie_id" payload = PInt n →
  n ≠ 0 →
  contains (HInt n) (favorites_store s) = false →
  ∃ favorite s',
    add_favorite payload now s =
      (Json [("message", PStr "Movie added to favorites");
             ("favorite", PDict favorite)], s') ∧
    dict_get "movie_id" favorite = PInt n ∧
    dict_get "title" favorite =
      dict_get_or "title" payload (PStr ("Movie " +:+ pretty n)) ∧
    dict_get "rating" favorite = dict_get "rating" payload ∧
    dict_get "added_date" favorite = PStr now ∧
    get_favorite n s' = (Json favorite, s') ∧
    (get_favorites s').1 =
      Json [("favorites", PList (map PDict (values (favorites_store s) ++ [favorite])));
            ("total", PInt (len (favorites_store s) + 1))] ∧
    (∀ m, m ≠ n → (get_favorite m s').1 = (get_favorite m s).1) ∧
    watchlist_store s' = watchlist_store s ∧
    (∀ payload' now',
       dict_get "movie_id" payload' = PInt n →
       add_favorite payload' now' s' = (HTTPError 409 "Movie already in favorites", s')) ∧
    delete_favorite n s' =
      (Json [("message", PStr "Movie removed from favorites");
             ("removed", PDict favorite)], s).
Proof.
  intros Hid Hn Habsent. destruct s as [favs wl]. simpl in Habsent.
  assert (truthy (PInt n) = true) as Htruthy
    by (simpl; by apply negb_true_iff, Z.eqb_neq).
  unfold add_favorite. rewrite Hid, Htruthy. cbn [negb as_scalar key str favorites_store].
  rewrite Habsent. eexists _, _. split; [reflexivity|].
  set (favorite := [("movie_id", PInt n); _; _; _; _]).
  destruct (bound_last (HInt n) favorite favs Habsent)
    as (Hin & Hget & Hpop & Hvalues & Hothers).
  do 4 (split; [reflexivity|]).
  split; [|split; [|split; [|split; [|split]]]].
  - unfold get_favorite. cbn [favorites_store]. by rewrite Hin, Hget.
  - unfold get_favorites. cbn [favorites_store fst]. rewrite Hvalues.
    do 5 f_equal. unfold len. rewrite setitem_new, length_app by done. simpl. lia.
  - intros m Hm. unfold get_favorite. cbn [favorites_store].
    destruct (Hothers (HInt m)) as [-> ->]; [by intros [= ?]|].
    destruct (contains (HInt m) favs); [|done]. simpl.
    by destruct (getitem (HInt m) favs).
  - done.
  - intros payload' now' Hid'. unfold add_favorite.
    rewrite Hid', Htruthy. cbn [negb as_scalar key favorites_store]. by rewrite Hin.
  - unfold delete_favorite. cbn [favorites_store watchlist_store].
    by rewrite Hin, Hget, Hpop.
Qed.

Lemma added_favorite_is_stored_witness :
  ∃ favorite s',
    add_favorite [("movie_id", PInt 603); ("rating", PInt 4)] "2024-03-01T10:00:00" startup =
      (Json [("message", PStr "Movie added to favorites");
             ("favorite", PDict favorite)], s') ∧
    dict_get "title" favorite = PStr "Movie 603" ∧
    get_favorite 603 s' = (Json favorite, s').
Proof.
  destruct (added_favorite_is_stored [("movie_id", PInt 603); ("rating", PInt 4)]
              "2024-03-01T10:00:00" startup 603)
    as (favorite & s' & Hadd & _ & Htitle & _ & _ & Hget & _);
    [reflexivity|discriminate|reflexivity|].
  exists favorite, s'. split; [exact Hadd|]. split; [exact Htitle|exact Hget].
Defined.

(** X23. Both add endpoints test the id as Python does. The answer is 400
    [movie_id is required] exactly when the payload's id is missing or one
    of [None], [False], [0], the empty string, list or dict, so an id of 0
    cannot be stored. Any other list or dict is not refused: it fails
    on the membership test, unhandled, and nothing is stored. The
    id [True] is the key 1: the entry is stored as it came, titled
    ["Movie True"] when the payload has no title, it is what
    [GET /favorites/1] returns, and posting the id 1 afterwards is a
    conflict. *)
Theorem ids_are_tested_as_python_does payload now s :
  let falsy := [PNone; PBool false; PInt 0; PStr ""; PList []; PDict []] in
  let movie_id := dict_get "movie_id" payload in
  (dict_find "movie_id" payload = None → movie_id = PNone) ∧
  (add_favorite payload now s = (HTTPError 400 "movie_id is required", s) ↔
   movie_id ∈ falsy) ∧
  (add_to_watchlist payload now s = (HTTPError 400 "movie_id is required", s) ↔
   movie_id ∈ falsy) ∧
  (movie_id ∉ falsy → as_scalar movie_id = None →
   add_favorite payload now s = (Unhandled "TypeError", s) ∧
   add_to_watchlist payload now s = (Unhandled "TypeError", s)) ∧
  (movie_id = PBool true → contains (HInt 1) (favorites_store s) = false →
   ∃ favorite s',
     add_favorite payload now s =
       (Json [("message", PStr "Movie added to favorites");
              ("favorite", PDict favorite)], s') ∧
     dict_get "movie_id" favorite = PBool true ∧
     dict_get "title" favorite = dict_get_or "title" payload (PStr "Movie True") ∧
     get_favorite 1 s' = (Json favorite, s') ∧
     ∀ now', add_favorite [("movie_id", PInt 1)] now' s' =
               (HTTPError 409 "Movie already in favorites", s')).
Proof.
  intros falsy movie_id.
  assert (movie_id ∈ falsy ↔ truthy movie_id = false) as Hfalsy.
  { unfold falsy. rewrite !elem_of_cons, elem_of_nil. split.
    - intros [->|[->|[->|[->|[->|[->|[]]]]]]]; reflexivity.
    - destruct movie_id as [|[]|n|id|[|]|[|]]; simpl; try done; eauto 10.
      + intros ->%negb_false_iff%Z.eqb_eq. eauto 10.
      + destruct id; [eauto 10|done]. }
  split; [|split; [|split; [|split]]].
  - intros Hfind. unfold movie_id. by rewrite dict_get_find, Hfind.
  - rewrite Hfalsy. unfold add_favorite. fold movie_id.
    destruct (truthy movie_id); simpl; [|done]. split; [|done].
    destruct (as_scalar movie_id); [|done].
    by destruct (contains _ _).
  - rewrite Hfalsy. unfold add_to_watchlist. fold movie_id.
    destruct (truthy movie_id); simpl; [|done]. split; [|done].
    destruct (as_scalar movie_id); [|done].
    by destruct (contains _ _).
  - rewrite Hfalsy. intros Htruthy%not_false_is_true Hscalar.
    unfold add_favorite, add_to_watchlist. fold movie_id.
    by rewrite Htruthy, Hscalar.
  - intros Hid Habsent. destruct s as [favs wl]. simpl in Habsent.
    unfold add_favorite at 1. fold movie_id. rewrite Hid.
    cbn [truthy negb as_scalar key str favorites_store]. rewrite Habsent.
    eexists _, _. split; [reflexivity|].
    set (favorite := [("movie_id", PBool true); _; _; _; _]).
    destruct (bound_last (HInt 1) favorite favs Habsent) as (Hin & Hget & _).
    do 2 (split; [reflexivity|]). split.
    + unfold get_favorite. cbn [favorites_store]. by rewrite Hin, Hget.
    + intros now'. unfold add_favorite.
      cbn [dict_get String.eqb Ascii.eqb Bool.eqb truthy Z.eqb negb as_scalar key
           favorites_store].
      by rewrite Hin.
Qed.

(** What [in], the subscript and [pop] see after a bound key was popped:
    the entry is cut out of the list where it stood. *)
Lemma popped k st v :
  NoDup st.*1 → getitem k st = Some v →
  contains k st = true ∧
  contains k (pop k st) = false ∧
  (∃ before after, st = before ++ (k, v) :: after ∧ pop k st = before ++ after) ∧
  (∀ k', k' ≠ k → contains k' (pop k st) = contains k' st ∧
                  getitem k' (pop k st) = getitem k' st).
Proof.
  intros Hnodup Hget. split; [apply contains_getitem; by rewrite Hget|].
  split; [by apply absent_getitem, getitem_pop_same|]. split.
  - clear Hnodup. induction st as [|[k' v'] st IH]; simpl in *; [done|].
    destruct (decide (k' = k)) as [->|Hne].
    + injection Hget as ->. by exists [], st.
    + destruct (IH Hget) as (before & after & -> & ->).
      by exists ((k', v') :: before), after.
  - intros k' Hne.
    assert (getitem k' (pop k st) = getitem k' st) as Hsame
      by (by apply getitem_pop_other).
    split; [|done]. apply eq_true_iff_eq. by rewrite !contains_getitem, Hsame.
Qed.

(** X24. Deleting a favorite that is not stored is refused with 404 and
    changes nothing. Deleting a stored one answers with the entry that
    [GET /favorites/{id}] returned and cuts exactly that entry out of
    the listing, the others keeping their order; the total goes down by
    one, the id is then unknown to [GET] and to a second [DELETE], and the
    other ids and the watchlist are as before. *)
Theorem deleted_favorite_is_gone n s :
  NoDup (favorites_store s).*1 →
  (contains (HInt n) (favorites_store s) = false →
   delete_favorite n s = (HTTPError 404 "Movie not found in favorites", s)) ∧
  (∀ favorite, get_favorite n s = (Json favorite, s) →
   ∃ s' before after,
     delete_favorite n s =
       (Json [("message", PStr "Movie removed from favorites");
              ("removed", PDict favorite)], s') ∧
     values (favorites_store s) = before ++ favorite :: after ∧
     values (favorites_store s') = before ++ after ∧
     len (favorites_store s') = len (favorites_store s) - 1 ∧
     get_favorite n s' = (HTTPError 404 "Movie not found in favorites", s') ∧
     delete_favorite n s' = (HTTPError 404 "Movie not found in favorites", s') ∧
     (∀ m, m ≠ n → (get_favorite m s').1 = (get_favorite m s).1) ∧
     watchlist_store s' = watchlist_store s).
Proof.
  intros Hnodup. split.
  - intros Habsent. unfold delete_favorite. by rewrite Habsent.
  - intros favorite Hread. unfold get_favorite in Hread.
    destruct (contains (HInt n) (favorites_store s)) eqn:Hin; [|done].
    destruct (getitem (HInt n) (favorites_store s)) as [found|] eqn:Hget; [|done].
    simpl in Hread. injection Hread as ->.
    destruct (popped _ _ _ Hnodup Hget)
      as (_ & Hout & (before & after & Hsplit & Hpop) & Hothers).
    unfold delete_favorite at 1. rewrite Hin, Hget. simpl.
    eexists _, before.*2, after.*2. split; [reflexivity|].
    cbn [favorites_store watchlist_store].
    split; [unfold values; by rewrite Hsplit, fmap_app|].
    split; [unfold values; by rewrite Hpop, fmap_app|].
    split.
    { unfold len. rewrite Hpop, Hsplit, !length_app. simpl. lia. }
    split; [unfold get_favorite; cbn [favorites_store]; by rewrite Hout|].
    split; [unfold delete_favorite; cbn [favorites_store]; by rewrite Hout|].
    split; [|done].
    intros m Hm. unfold get_favorite. cbn [favorites_store].
    destruct (Hothers (HInt m)) as [-> ->]; [by intros [= ?]|].
    destruct (contains (HInt m) (favorites_store s)); [|done]. simpl.
    by destruct (getitem (HInt m) (favorites_store s)).
Qed.

Lemma deleted_favorite_is_gone_witness :
  ∃ s', delete_favorite 155 startup =
          (Json [("message", PStr "Movie removed from favorites");
                 ("removed", PDict [("movie_id", PInt 155);
                                    ("title", PStr "The Dark Knight");
                                    ("rating", PInt 5);
                                    ("added_date", PStr "2024-01-10")])], s') ∧
        get_favorite 155 s' = (HTTPError 404 "Movie not found in favorites", s').
Proof.
  destruct (deleted_favorite_is_gone 155 startup) as [_ Hdelete];
    [by apply (bool_decide_unpack _); vm_compute|].
  destruct (Hdelete [("movie_id", PInt 155); ("title", PStr "The Dark Knight");
                     ("rating", PInt 5); ("added_date", PStr "2024-01-10")] eq_refl)
    as (s' & before & after & Hs' & _ & _ & _ & Hget & _).
  exists s'. split; [exact Hs'|exact Hget].
Defined.

(** X25. The watchlist routes, for a non-zero integer id. If the id is
    stored, posting it is refused with 409, [GET /watchlist/{id}] returns
    its entry, and [DELETE] answers with that entry, after which the id is
    unknown and the total one less. If it is not stored, [GET] and
    [DELETE] answer 404 and posting stores an entry with the id, the
    payload's release date and the posting time (and no rating) as the
    last element of the listing; deleting it again gives the stores as they
    were. The favorites are never touched. *)
Theorem watchlist_round_trip payload now s n :
  dict_get "movie_id" payload = PInt n →
  n ≠ 0 →
  NoDup (watchlist_store s).*1 →
  if contains (HInt n) (watchlist_store s) then
    add_to_watchlist payload now s = (HTTPError 409 "Movie already in watchlist", s) ∧
    ∃ item s',
      get_watchlist_item n s = (Json item, s) ∧
      delete_from_watchlist n s =
        (Json [("message", PStr "Movie removed from watchlist");
               ("removed", PDict item)], s') ∧
      get_watchlist_item n s' = (HTTPError 404 "Movie not found in watchlist", s') ∧
      len (watchlist_store s') = len (watchlist_store s) - 1 ∧
      favorites_store s' = favorites_store s
  else
    get_watchlist_item n s = (HTTPError 404 "Movie not found in watchlist", s) ∧
    delete_from_watchlist n s = (HTTPError 404 "Movie not found in watchlist", s) ∧
    ∃ item s',
      add_to_watchlist payload now s =
        (Json [("message", PStr "Movie added to watchlist");
               ("watchlist_item", PDict item)], s') ∧
      dict_get "movie_id" item = PInt n ∧
      dict_get "release_date" item = dict_get "release_date" payload ∧
      dict_get "added_date" item = PStr now ∧
      dict_find "rating" item = None ∧
      get_watchlist_item n s' = (Json item, s') ∧
      (get_watchlist s').1 =
        Json [("watchlist", PList (map PDict (values (watchlist_store s) ++ [item])));
              ("total", PInt (len (watchlist_store s) + 1))] ∧
      delete_from_watchlist n s' =
        (Json [("message", PStr "Movie removed from watchlist");
               ("removed", PDict item)], s) ∧
      favorites_store s' = favorites_store s.
Proof.
  intros Hid Hn Hnodup. destruct s as [favs wl]. simpl in Hnodup.
  assert (truthy (PInt n) = true) as Htruthy
    by (simpl; by apply negb_true_iff, Z.eqb_neq).
  cbn [watchlist_store]. destruct (contains (HInt n) wl) eqn:Hin.
  - split.
    { unfold add_to_watchlist. rewrite Hid, Htruthy.
      cbn [negb as_scalar key watchlist_store]. by rewrite Hin. }
    destruct (proj1 (contains_getitem _ _) Hin) as [item Hget].
    destruct (popped _ _ _ Hnodup Hget)
      as (_ & Hout & (before & after & Hsplit & Hpop) & _).
    eexists item, _. split.
    { unfold get_watchlist_item. cbn [watchlist_store]. by rewrite Hin, Hget. }
    split.
    { unfold delete_from_watchlist. cbn [watchlist_store]. by rewrite Hin, Hget. }
    cbn [watchlist_store favorites_store]. split.
    { unfold get_watchlist_item. cbn [watchlist_store]. by rewrite Hout. }
    split; [|done].
    unfold len. rewrite Hpop, Hsplit, !length_app. simpl. lia.
  - split; [unfold get_watchlist_item; cbn [watchlist_store]; by rewrite Hin|].
    split; [unfold delete_from_watchlist; cbn [watchlist_store]; by rewrite Hin|].
    unfold add_to_watchlist. rewrite Hid, Htruthy.
    cbn [negb as_scalar key str watchlist_store]. rewrite Hin.
    eexists _, _. split; [reflexivity|].
    set (item := [("movie_id", PInt n); _; _; _; _]).
    destruct (bound_last (HInt n) item wl Hin) as (Hin' & Hget & Hpop & Hvalues & _).
    do 4 (split; [reflexivity|]).
    split; [|split; [|split; [|done]]].
    + unfold get_watchlist_item. cbn [watchlist_store]. by rewrite Hin', Hget.
    + unfold get_watchlist. cbn [watchlist_store fst]. rewrite Hvalues.
      do 5 f_equal. unfold len. rewrite setitem_new, length_app by done. simpl. lia.
    + unfold delete_from_watchlist. cbn [favorites_store watchlist_store].
      by rewrite Hin', Hget, Hpop.
Qed.

Lemma watchlist_round_trip_witness :
  add_to_watchlist [("movie_id", PInt 680)] "2024-03-01T10:00:00" startup
  = (HTTPError 409 "Movie already in watchlist", startup).
Proof.
  apply (watchlist_round_trip [("movie_id", PInt 680)] "2024-03-01T10:00:00" startup 680);
    [reflexivity|discriminate|by apply (bool_decide_unpack _); vm_compute].
Defined.

(** X26. What a request can touch. The five reading routes leave both
    stores as they are; the favorites routes leave the watchlist and the
    watchlist routes the favorites; a request that is not answered with a
    body (400, 404, 409 or an unhandled error) has changed nothing. A reset
    brings back the start-up data from any state and reports 3 favorites
    and 2 watchlist items; a clear empties both stores. *)
Theorem requests_touch_their_own_store r s :
  match (handle r s).1 with
  | Json _ => True
  | _ => (handle r s).2 = s
  end ∧
  match r with
  | HealthCheck | GetFavorites | GetFavorite _ | GetWatchlist | GetWatchlistItem _ =>
      (handle r s).2 = s
  | AddFavorite _ _ | DeleteFavorite _ =>
      watchlist_store (handle r s).2 = watchlist_store s
  | AddToWatchlist _ _ | DeleteFromWatchlist _ =>
      favorites_store (handle r s).2 = favorites_store s
  | ResetData =>
      handle r s = (Json [("message", PStr "Data reset successfully");
                          ("favorites_count", PInt 3);
                          ("watchlist_count", PInt 2)], startup)
  | ClearAllData =>
      (handle r s).2 = {| favorites_store := []; watchlist_store := [] |} ∧
      (get_favorites (handle r s).2).1 = Json [("favorites", PList []); ("total", PInt 0)] ∧
      (get_watchlist (handle r s).2).1 = Json [("watchlist", PList []); ("total", PInt 0)]
  end.
Proof.
  destruct r; simpl; try done.
  - unfold add_favorite. destruct (truthy _); simpl; [|done].
    destruct (as_scalar _); [|done]. by destruct (contains _ _).
  - unfold delete_favorite. destruct (contains _ _); simpl; [|done].
    by destruct (getitem _ _).
  - unfold get_favorite. destruct (contains _ _); simpl; [|done].
    by destruct (getitem _ _).
  - unfold add_to_watchlist. destruct (truthy _); simpl; [|done].
    destruct (as_scalar _); [|done]. by destruct (contains _ _).
  - unfold delete_from_watchlist. destruct (contains _ _); simpl; [|done].
    by destruct (getitem _ _).
  - unfold get_watchlist_item. destruct (contains _ _); simpl; [|done].
    by destruct (getitem _ _).
Qed.

(** The comprehension of the aggregator over the values of a store gives
    the store back. *)
Lemma index_of_store st acc :
  keyed st →
  (∀ k, k ∈ st.*1 → k ∉ acc.*1) →
  foldl Router.index_step (Some acc) (values st) = Some (acc ++ st).
Proof.
  revert acc. induction st as [|[k v] st IH]; intros acc [Hnodup Hfiled] Hfresh.
  - by rewrite app_nil_r.
  - simpl in Hnodup. apply NoDup_cons in Hnodup as [Hnotin Hnodup].
    apply Forall_cons in Hfiled as [[Htruthy Hkey] Hfiled]. simpl in Htruthy, Hkey.
    rewrite dict_get_find in Htruthy, Hkey.
    destruct (dict_find "movie_id" v) as [movie_id|] eqn:Hfind; [|done].
    simpl in Hkey.
    destruct (as_scalar movie_id) as [id|] eqn:Hid; [|done].
    simpl in Hkey. injection Hkey as Hkey.
    assert (Router.index_step (Some acc) v = Some (acc ++ [(k, v)])) as Hstep.
    { unfold Router.index_step. rewrite Hfind, Hid, Hkey. f_equal.
      apply setitem_new. unfold contains. apply bool_decide_eq_false.
      apply Hfresh. simpl. apply elem_of_cons. by left. }
    unfold values. rewrite fmap_cons. cbn [foldl snd]. rewrite Hstep.
    change (foldl Router.index_step (Some (acc ++ [(k, v)])) st.*2)
      with (foldl Router.index_step (Some (acc ++ [(k, v)])) (values st)).
    rewrite IH; [by rewrite <- app_assoc|done|].
    intros k' Hk'. rewrite fmap_app. intros [Hin|Hin]%elem_of_app.
    + revert Hin. apply Hfresh. simpl. apply elem_of_cons. by right.
    + simpl in Hin. apply list_elem_of_singleton in Hin. by subst.
Qed.

(** X27. The aggregator's index over the service's listing is the service's
    store. In any state the service reaches from start-up, indexing the
    ["favorites"] list of [GET /favorites] by ["movie_id"], as
    [_fetch_user_favorites] does, loses no entry: the mapping is the
    store of the service, it has as many entries as the reported total and
    binds an id exactly when [GET /favorites/{id}] answers, to the same
    entry. *)
Theorem index_of_listing_is_the_store requests :
  let s := serve requests startup in
  ∃ items total m,
    (get_favorites s).1 =
      Json [("favorites", PList (map PDict items)); ("total", PInt total)] ∧
    Router.index_by_movie_id items = Some m ∧
    m = favorites_store s ∧
    Z.of_nat (length m) = total ∧
    (∀ n, (get_favorite n s).1 =
            match getitem (HInt n) m with
            | Some favorite => Json favorite
            | None => HTTPError 404 "Movie not found in favorites"
            end) ∧
    (∀ service w w',
       service w = (Ok {| Router.favorites := Some items |}, w') →
       Router._fetch_user_favorites service w = (Ok m, w')).
Proof.
  intros s.
  destruct (keyed_serve requests startup) as [Hfav _]; [apply keyed_startup..|].
  fold s in Hfav.
  pose proof (index_of_store (favorites_store s) [] Hfav) as Hm.
  rewrite app_nil_l in Hm.
  assert (Router.index_by_movie_id (values (favorites_store s))
          = Some (favorites_store s)) as Hindex.
  { apply Hm. intros k _ Hin. by apply elem_of_nil in Hin. }
  exists (values (favorites_store s)), (len (favorites_store s)), (favorites_store s).
  split; [done|]. split; [exact Hindex|]. split; [done|]. split; [done|]. split.
  - intros n. unfold get_favorite.
    destruct (getitem (HInt n) (favorites_store s)) as [item|] eqn:Hget.
    + assert (contains (HInt n) (favorites_store s) = true) as ->
        by (apply contains_getitem; by rewrite Hget).
      done.
    + by rewrite (proj2 (absent_getitem _ _) Hget).
  - intros service w w' Hservice. unfold Router._fetch_user_favorites.
    rewrite Hservice. cbn [Router.favorites default]. unfold id.
    by rewrite Hindex.
Qed.

Lemma index_of_listing_is_the_store_witness :
  ∃ items m,
    (get_favorites
       (serve [AddFavorite [("movie_id", PInt 603)] "2024-03-01T10:00:00";
               DeleteFavorite 155] startup)).1 =
      Json [("favorites", PList (map PDict items)); ("total", PInt 3)] ∧
    Router.index_by_movie_id items = Some m ∧
    length m = 3%nat.
Proof.
  destruct (index_of_listing_is_the_store
              [AddFavorite [("movie_id", PInt 603)] "2024-03-01T10:00:00";
               DeleteFavorite 155])
    as (items & total & m & Hlist & Hm & _ & Hsize & _).
  assert (total = 3) as -> by (vm_compute in Hlist; by injection Hlist).
  exists items, m. split; [exact Hlist|]. split; [exact Hm|]. by apply Nat2Z.inj.
Defined.

End UserServiceFacts.
